(** * Follow-Up Concierge: the reliable pipeline, embedded and verified

    A shallow embedding of the TypeScript sources of the pipeline
    (ingress route, ingest worker, scheduler, executor, outbox sender and
    the PII redaction) together with the properties stated about them.

    Conventions of the embedding:
    - instants are [Z] (milliseconds since the epoch), nullable columns are
      [option], text is [string] (a sequence of bytes);
    - the store (Prisma over Postgres) is a record of tables, each a list of
      rows in table order; a Prisma call is a computation in the monad [M],
      which threads the world and may throw.  There is no transaction around
      a handler, so a throw keeps every write made before it;
    - whatever lives outside the repository (the clock, the LLM, the send
      APIs, JSON and date parsing, the identifier generator, configuration)
      is a field of the environment record [Env]. *)

From Stdlib Require Import String Ascii List ZArith Bool Arith Lia DecimalString.
From Stdlib Require Import Sorting.Permutation Sorting.Sorted.
Import ListNotations.

Local Open Scope string_scope.
Local Open Scope list_scope.
Local Open Scope Z_scope.

Set Implicit Arguments.

(* ------------------------------------------------------------------ *)
(** ** JavaScript value conventions *)

Module Js.

(** Truthiness of a string value: only the empty string is falsy. *)
Definition truthy (s : string) : bool :=
  match s with EmptyString => false | String _ _ => true end.

(** Truthiness of a [string | null] value. *)
Definition truthyOpt (o : option string) : bool :=
  match o with Some s => truthy s | None => false end.

(** [a || b] on strings. *)
Definition or (a b : string) : string := if truthy a then a else b.

(** [a || b] where [a : string | null]. *)
Definition orOpt (a : option string) (b : string) : string :=
  match a with Some s => or s b | None => b end.

(** [a || null]. *)
Definition orNull (a : string) : option string :=
  if truthy a then Some a else None.

(** [a ?? b]. *)
Definition nullish {A} (a : option A) (b : A) : A :=
  match a with Some x => x | None => b end.

(** A [string | null] value interpolated in a template literal. *)
Definition show (o : option string) : string := nullish o "null".

Definition nl : string := String (ascii_of_nat 10) EmptyString.

(** An integer interpolated in a template literal. *)
Definition showZ (z : Z) : string := NilZero.string_of_int (Z.to_int z).

End Js.

(* ------------------------------------------------------------------ *)
(** ** src/shared/pii.ts: the three patterns and their replacement *)

Module Pii.

Definition between (lo hi : nat) (c : ascii) : bool :=
  let n := nat_of_ascii c in (Nat.leb lo n && Nat.leb n hi)%bool.

Definition isDigit : ascii -> bool := between 48 57.
Definition isUpper : ascii -> bool := between 65 90.
Definition isLower : ascii -> bool := between 97 122.
Definition isAlnum (c : ascii) : bool := (isUpper c || isLower c || isDigit c)%bool.
Definition isChar (x : ascii) (c : ascii) : bool := Ascii.eqb x c.

(** [\w] *)
Definition isWord (c : ascii) : bool := (isAlnum c || isChar "_" c)%bool.
(** [[- ]] *)
Definition isSep (c : ascii) : bool := (isChar "-" c || isChar " " c)%bool.
(** [[A-Za-z0-9._%+-]] *)
Definition isLocal (c : ascii) : bool :=
  (isAlnum c || isChar "." c || isChar "_" c || isChar "%" c || isChar "+" c || isChar "-" c)%bool.
(** [[A-Za-z0-9.-]] *)
Definition isDomain (c : ascii) : bool := (isAlnum c || isChar "." c || isChar "-" c)%bool.
(** [[A-Z|a-z]]: the bar is a member of the class. *)
Definition isTld (c : ascii) : bool := (isUpper c || isChar "|" c || isLower c)%bool.

(** The fragment of the regular-expression language the three patterns
    use.  Every quantifier is applied to a character class. *)
Inductive atom : Type :=
| Boundary                                   (* \b *)
| Class (p : ascii -> bool)                  (* one character of a class *)
| Optional (p : ascii -> bool)               (* [..]? *)
| AtLeast (n : nat) (p : ascii -> bool).     (* [..]{n,}; [..]+ is {1,} *)

Definition regex := list atom.

Fixpoint times (n : nat) (p : ascii -> bool) : regex :=
  match n with O => [] | S k => Class p :: times k p end.

(** [/\b\d{3}-\d{2}-\d{4}\b/g] *)
Definition SSN_PATTERN : regex :=
  [Boundary] ++ times 3 isDigit ++ [Class (isChar "-")] ++ times 2 isDigit
    ++ [Class (isChar "-")] ++ times 4 isDigit ++ [Boundary].

(** [/\b\d{4}[- ]?\d{4}[- ]?\d{4}[- ]?\d{4}\b/g] *)
Definition CREDIT_CARD_PATTERN : regex :=
  [Boundary] ++ times 4 isDigit ++ [Optional isSep] ++ times 4 isDigit
    ++ [Optional isSep] ++ times 4 isDigit ++ [Optional isSep]
    ++ times 4 isDigit ++ [Boundary].

(** [/\b[A-Za-z0-9._%+-]+@[A-Za-z0-9.-]+\.[A-Z|a-z]{2,}\b/g] *)
Definition EMAIL_IN_BODY_PATTERN : regex :=
  [Boundary; AtLeast 1 isLocal; Class (isChar "@"); AtLeast 1 isDomain;
   Class (isChar "."); AtLeast 2 isTld; Boundary].

Definition wordOpt (o : option ascii) : bool :=
  match o with Some c => isWord c | None => false end.

(** [\b] holds between [prev] and the head of [s] when exactly one of the
    two is a word character (the ends of the text count as non-word). *)
Definition atBoundary (prev : option ascii) (s : list ascii) : bool :=
  xorb (wordOpt prev) (wordOpt (hd_error s)).

(** The backtracking matcher.  [matchHere r prev s] is the number of
    characters consumed by the first match of [r] at the head of [s] in
    the engine's priority order (a quantifier first tries to take one
    more character), or [None]; [prev] is the character before [s]. *)
Fixpoint matchHere (r : regex) : option ascii -> list ascii -> option nat :=
  match r with
  | [] => fun _ _ => Some O
  | Boundary :: k =>
      fun prev s => if atBoundary prev s then matchHere k prev s else None
  | Class p :: k =>
      fun _ s =>
        match s with
        | c :: s' => if p c then option_map S (matchHere k (Some c) s') else None
        | [] => None
        end
  | Optional p :: k =>
      fun prev s =>
        let skip := matchHere k prev s in
        match s with
        | c :: s' =>
            if p c then
              match matchHere k (Some c) s' with
              | Some n => Some (S n)
              | None => skip
              end
            else skip
        | [] => skip
        end
  | AtLeast n p :: k =>
      let rest := matchHere k in
      (fix more (need : nat) (prev : option ascii) (s : list ascii) {struct s}
         : option nat :=
         let stop := match need with O => rest prev s | S _ => None end in
         match s with
         | c :: s' =>
             if p c then
               match more (Nat.pred need) (Some c) s' with
               | Some m => Some (S m)
               | None => stop
               end
             else stop
         | [] => stop
         end) n
  end.

(** [String.prototype.replace] with a global pattern whose matches are
    never empty: scan left to right; where the pattern matches, emit the
    replacement and resume after the match; elsewhere copy the character.
    [skip] counts the characters of the current match still to drop. *)
Fixpoint replaceFrom (r : regex) (by_ : list ascii) (skip : nat)
    (prev : option ascii) (s : list ascii) : list ascii :=
  match s with
  | [] => []
  | c :: s' =>
      match skip with
      | S j => replaceFrom r by_ j (Some c) s'
      | O =>
          match matchHere r prev s with
          | Some (S j) => by_ ++ replaceFrom r by_ j (Some c) s'
          | _ => c :: replaceFrom r by_ O (Some c) s'
          end
      end
  end.

Definition replaceAll (r : regex) (by_ : string) (text : string) : string :=
  string_of_list_ascii
    (replaceFrom r (list_ascii_of_string by_) O None (list_ascii_of_string text)).

Definition redactPii (text : string) : string :=
  replaceAll EMAIL_IN_BODY_PATTERN "[EMAIL_REDACTED]"
    (replaceAll CREDIT_CARD_PATTERN "[CC_REDACTED]"
       (replaceAll SSN_PATTERN "[SSN_REDACTED]" text)).

Definition redactForRetention (_ : string) : string :=
  "[REDACTED_PER_RETENTION_POLICY]".

End Pii.

(* ------------------------------------------------------------------ *)
(** ** src/shared/types.ts and the rows of the six tables *)

Inductive TaskStatus : Type :=
| pending | needs_clarification | due | executing | sending | done | failed.

Inductive OutboxStatus : Type := ob_queued | ob_sending | ob_sent | ob_failed.

Inductive InboundStatus : Type := received | processed.

Inductive EventType : Type :=
| ev_created | ev_clarification_sent | ev_scheduled | ev_due | ev_executing
| ev_draft_generated | ev_sending | ev_sent | ev_done | ev_failed | ev_retried.

Definition TaskStatus_eqb (a b : TaskStatus) : bool :=
  match a, b with
  | pending, pending | needs_clarification, needs_clarification | due, due
  | executing, executing | sending, sending | done, done | failed, failed => true
  | _, _ => false
  end.

Definition OutboxStatus_eqb (a b : OutboxStatus) : bool :=
  match a, b with
  | ob_queued, ob_queued | ob_sending, ob_sending | ob_sent, ob_sent
  | ob_failed, ob_failed => true
  | _, _ => false
  end.

Record IngestJobPayload : Type := { ij_inboundId : string; ij_userId : string }.

Record ExecuteJobPayload : Type := { ej_taskId : string }.

Record ExtractionResult : Type := {
  needs_clarification_ : bool;
  clarifying_question : string;
  due_at_iso : option string;
  action_type : string;
  contact_hint : string;
  context_ : string
}.

Record DraftResult : Type := { draft_subject : string; draft_body : string }.

(** [to] is typed [string], but both workers fill it from a nullable column
    through a non-null assertion, so it can be null at run time. *)
Record OutboxPayload : Type := {
  to : option string;
  subject : option string;
  body : string
}.

Record EmailWebhookPayload : Type := {
  messageId : string;
  from : string;
  to_ : string;
  subject_ : string;
  textBody : string;
  timestamp : string
}.

Record Preference : Type := {
  timezone : string;
  tone : string;
  defaultAction : string;
  fallbackChannel : string
}.

Record User : Type := {
  userId : string;
  primaryEmail : option string;
  whatsappNumber : option string;
  displayName : string;
  preferences : option Preference
}.

Record InboundMessage : Type := {
  inboundId : string;
  in_userId : string;
  in_channel : string;
  providerMessageId : string;
  idempotencyKey : string;
  rawTextRedacted : option string;
  in_status : InboundStatus;
  receivedAt : Z
}.

Record Task : Type := {
  taskId : string;
  t_userId : string;
  sourceInboundId : string;
  dueAt : option Z;
  actionType : string;
  contactHint : option string;
  context : option string;
  t_status : TaskStatus;
  attemptCount : Z;
  lastAttemptAt : option Z;
  t_updatedAt : Z
}.

Record OutboxMessage : Type := {
  outboxId : string;
  o_taskId : option string;
  o_userId : string;
  o_channel : string;
  payload : OutboxPayload;
  o_status : OutboxStatus;
  attempts : Z;
  nextRetryAt : Z;
  o_updatedAt : Z
}.

(** The payload of an audit event: one variant per shape the workers write. *)
Inductive EventPayload : Type :=
| NoPayload
| Source (source : string)
| Question (question : string)
| DueAtIso (iso : option string)
| Draft (draft : DraftResult)
| Reason (reason : string).

Record TaskEvent : Type := {
  e_taskId : string;
  e_userId : string;
  eventType : EventType;
  e_payload : EventPayload;
  createdAt : Z
}.

(** A job handed to a BullMQ queue: [add name data {jobId}]. *)
Record Job (P : Type) : Type := { jobName : string; jobData : P; jobId : string }.

(** What reached a send API. *)
Record SendEmailParams : Type := {
  se_to : option string; se_subject : string; se_body : string
}.

Record SendWhatsAppParams : Type := { sw_to : option string; sw_body : string }.

Inductive SendCall : Type :=
| EmailCall (p : SendEmailParams)
| WhatsAppCall (p : SendWhatsAppParams).

(** src/shared/errors.ts: what can be thrown.  [AppError] carries its HTTP
    status and code; anything else ([Error], a Prisma error) is [Thrown]
    with its message. *)
Inductive Err : Type :=
| AppError (statusCode : Z) (code : string) (message : string)
| Thrown (message : string).

Definition UnauthorizedError (message : string) : Err :=
  AppError 401 "UNAUTHORIZED" message.

Definition errMessage (e : Err) : string :=
  match e with AppError _ _ m => m | Thrown m => m end.

(** Prisma's errors for a violated unique constraint (P2002), an update of a
    missing record (P2025) and an invalid argument. *)
Definition P2002 : Err := Thrown "Unique constraint failed".
Definition P2025 : Err := Thrown "Record to update not found".
Definition PrismaValidation : Err := Thrown "Provided Date object is invalid".

(** The [RangeError] of [Intl] for a time zone it does not know. *)
Definition InvalidTimeZone (timeZone : string) : Err :=
  Thrown ("Invalid time zone specified: " ++ timeZone).

(** What [fetch] gives the WhatsApp sender: a thrown error, a response that
    is not ok with its status and text, or the id in the JSON of an ok
    response. *)
Inductive FetchResult : Type :=
| FetchThrew (e : Err)
| FetchNotOk (status : Z) (errBody : string)
| FetchOk (id : string).

Inductive LogLevel : Type := lvl_debug | lvl_info | lvl_warn | lvl_error.

(** Everything a handler can read or change. *)
Record World : Type := {
  users : list User;
  inboundMessages : list InboundMessage;
  tasks : list Task;
  outbox : list OutboxMessage;
  taskEvents : list TaskEvent;
  ingestQueue : list (Job IngestJobPayload);
  executeQueue : list (Job ExecuteJobPayload);
  sendCalls : list SendCall;
  logs : list (LogLevel * string);
  clockReads : nat;
  idsIssued : nat
}.

(** What the repository takes from outside. *)
Record Env : Type := {
  (** [Date.now()], [new Date()], SQL [NOW()]: the n-th reading of the clock *)
  clock : nat -> Z;
  (** the n-th identifier the store generates *)
  uuid : nat -> string;
  (** [new Date(iso).getTime()], [None] for an invalid date *)
  parseDate : string -> option Z;
  toISOString : Z -> string;
  (** [date.toLocaleString('en-US', {..., timeZone})] of a valid date:
      [None] when the engine throws its [RangeError] because it does not
      know the time zone *)
  toLocaleString : Z -> string -> option string;
  (** the LLM: system prompt and user content to the text of the answer *)
  claude : string -> string -> Err + string;
  (** [JSON.parse(text) as ExtractionResult] and [... as DraftResult]:
      [None] when [JSON.parse] throws, which is the only case in which the
      callers fall back; [Some x] when it returns the object [x] of the
      declared type.  The cast checks nothing, and a text that parses to
      another value ([null], an object with missing or ill-typed fields) is
      outside the model: no statement below is about such an answer. *)
  parseExtraction : string -> option ExtractionResult;
  parseDraft : string -> option DraftResult;
  (** the send APIs, given the calls made so far: a thrown error or a
      provider message id *)
  sesSend : list SendCall -> SendEmailParams -> Err + string;
  whatsappFetch : list SendCall -> SendWhatsAppParams -> FetchResult;
  (** HMAC-SHA256 of the serialized body, in hex *)
  hmacHex : string -> EmailWebhookPayload -> string;
  (** zod's [string().email()] *)
  isEmail : string -> bool;
  EMAIL_WEBHOOK_SECRET : string;
  OUTBOX_MAX_ATTEMPTS : Z
}.

(* ------------------------------------------------------------------ *)
(** ** The monad of handlers: world passing with exceptions *)

Inductive Res (A : Type) : Type :=
| Ok (a : A)
| Threw (e : Err).

Arguments Ok {A} a.
Arguments Threw {A} e.

Definition M (A : Type) : Type := World -> Res A * World.

Definition ret {A} (a : A) : M A := fun w => (Ok a, w).

Definition bind {A B} (m : M A) (k : A -> M B) : M B :=
  fun w =>
    match m w with
    | (Ok a, w') => k a w'
    | (Threw e, w') => (Threw e, w')
    end.

Definition throw {A} (e : Err) : M A := fun w => (Threw e, w).

(** [try { m } catch (err) { handler err }] *)
Definition tryCatch {A} (m : M A) (handler : Err -> M A) : M A :=
  fun w =>
    match m w with
    | (Ok a, w') => (Ok a, w')
    | (Threw e, w') => handler e w'
    end.

Definition gets {A} (f : World -> A) : M A := fun w => (Ok (f w), w).

Definition modify (f : World -> World) : M unit := fun w => (Ok tt, f w).

Declare Scope handler_scope.
Delimit Scope handler_scope with handler.
Notation "x <- m ;; k" := (bind m (fun x => k))
  (at level 61, m at next level, right associativity) : handler_scope.
Notation "m ;; k" := (bind m (fun _ => k))
  (at level 61, right associativity) : handler_scope.
Local Open Scope handler_scope.

(** [for (const x of xs) { body x }] *)
Fixpoint forEach {A} (xs : list A) (body : A -> M unit) : M unit :=
  match xs with
  | [] => ret tt
  | x :: xs' => body x ;; forEach xs' body
  end.

(** [if (x) { k x }] for [x : string | null]: null and the empty string are
    falsy. *)
Definition whenTruthy (x : option string) (k : string -> M unit) : M unit :=
  match x with
  | Some s => if Js.truthy s then k s else ret tt
  | None => ret tt
  end.

(** Field updates of the world. *)
Definition with_inboundMessages (f : list InboundMessage -> list InboundMessage)
    (w : World) : World :=
  {| users := users w; inboundMessages := f (inboundMessages w); tasks := tasks w;
     outbox := outbox w; taskEvents := taskEvents w; ingestQueue := ingestQueue w;
     executeQueue := executeQueue w; sendCalls := sendCalls w; logs := logs w;
     clockReads := clockReads w; idsIssued := idsIssued w |}.

Definition with_tasks (f : list Task -> list Task) (w : World) : World :=
  {| users := users w; inboundMessages := inboundMessages w; tasks := f (tasks w);
     outbox := outbox w; taskEvents := taskEvents w; ingestQueue := ingestQueue w;
     executeQueue := executeQueue w; sendCalls := sendCalls w; logs := logs w;
     clockReads := clockReads w; idsIssued := idsIssued w |}.

Definition with_outbox (f : list OutboxMessage -> list OutboxMessage)
    (w : World) : World :=
  {| users := users w; inboundMessages := inboundMessages w; tasks := tasks w;
     outbox := f (outbox w); taskEvents := taskEvents w; ingestQueue := ingestQueue w;
     executeQueue := executeQueue w; sendCalls := sendCalls w; logs := logs w;
     clockReads := clockReads w; idsIssued := idsIssued w |}.

Definition with_taskEvents (f : list TaskEvent -> list TaskEvent) (w : World) : World :=
  {| users := users w; inboundMessages := inboundMessages w; tasks := tasks w;
     outbox := outbox w; taskEvents := f (taskEvents w); ingestQueue := ingestQueue w;
     executeQueue := executeQueue w; sendCalls := sendCalls w; logs := logs w;
     clockReads := clockReads w; idsIssued := idsIssued w |}.

Definition with_ingestQueue
    (f : list (Job IngestJobPayload) -> list (Job IngestJobPayload)) (w : World) : World :=
  {| users := users w; inboundMessages := inboundMessages w; tasks := tasks w;
     outbox := outbox w; taskEvents := taskEvents w; ingestQueue := f (ingestQueue w);
     executeQueue := executeQueue w; sendCalls := sendCalls w; logs := logs w;
     clockReads := clockReads w; idsIssued := idsIssued w |}.

Definition with_executeQueue
    (f : list (Job ExecuteJobPayload) -> list (Job ExecuteJobPayload)) (w : World) : World :=
  {| users := users w; inboundMessages := inboundMessages w; tasks := tasks w;
     outbox := outbox w; taskEvents := taskEvents w; ingestQueue := ingestQueue w;
     executeQueue := f (executeQueue w); sendCalls := sendCalls w; logs := logs w;
     clockReads := clockReads w; idsIssued := idsIssued w |}.

Definition with_sendCalls (f : list SendCall -> list SendCall) (w : World) : World :=
  {| users := users w; inboundMessages := inboundMessages w; tasks := tasks w;
     outbox := outbox w; taskEvents := taskEvents w; ingestQueue := ingestQueue w;
     executeQueue := executeQueue w; sendCalls := f (sendCalls w); logs := logs w;
     clockReads := clockReads w; idsIssued := idsIssued w |}.

Definition with_logs (f : list (LogLevel * string) -> list (LogLevel * string))
    (w : World) : World :=
  {| users := users w; inboundMessages := inboundMessages w; tasks := tasks w;
     outbox := outbox w; taskEvents := taskEvents w; ingestQueue := ingestQueue w;
     executeQueue := executeQueue w; sendCalls := sendCalls w; logs := f (logs w);
     clockReads := clockReads w; idsIssued := idsIssued w |}.

Definition with_clockReads (f : nat -> nat) (w : World) : World :=
  {| users := users w; inboundMessages := inboundMessages w; tasks := tasks w;
     outbox := outbox w; taskEvents := taskEvents w; ingestQueue := ingestQueue w;
     executeQueue := executeQueue w; sendCalls := sendCalls w; logs := logs w;
     clockReads := f (clockReads w); idsIssued := idsIssued w |}.

Definition with_idsIssued (f : nat -> nat) (w : World) : World :=
  {| users := users w; inboundMessages := inboundMessages w; tasks := tasks w;
     outbox := outbox w; taskEvents := taskEvents w; ingestQueue := ingestQueue w;
     executeQueue := executeQueue w; sendCalls := sendCalls w; logs := logs w;
     clockReads := clockReads w; idsIssued := f (idsIssued w) |}.

(** Row updates ([data: { ... }] of a Prisma update). *)
Definition task_with_status (st : TaskStatus) (t : Task) : Task :=
  {| taskId := taskId t; t_userId := t_userId t; sourceInboundId := sourceInboundId t;
     dueAt := dueAt t; actionType := actionType t; contactHint := contactHint t;
     context := context t; t_status := st; attemptCount := attemptCount t;
     lastAttemptAt := lastAttemptAt t; t_updatedAt := t_updatedAt t |}.

Definition task_claimed_due (now : Z) (t : Task) : Task :=
  {| taskId := taskId t; t_userId := t_userId t; sourceInboundId := sourceInboundId t;
     dueAt := dueAt t; actionType := actionType t; contactHint := contactHint t;
     context := context t; t_status := due; attemptCount := attemptCount t;
     lastAttemptAt := lastAttemptAt t; t_updatedAt := now |}.

Definition task_executing (now : Z) (t : Task) : Task :=
  {| taskId := taskId t; t_userId := t_userId t; sourceInboundId := sourceInboundId t;
     dueAt := dueAt t; actionType := actionType t; contactHint := contactHint t;
     context := context t; t_status := executing; attemptCount := attemptCount t + 1;
     lastAttemptAt := Some now; t_updatedAt := t_updatedAt t |}.

Definition outbox_with (st : OutboxStatus) (n : Z) (retryAt : option Z)
    (o : OutboxMessage) : OutboxMessage :=
  {| outboxId := outboxId o; o_taskId := o_taskId o; o_userId := o_userId o;
     o_channel := o_channel o; payload := payload o; o_status := st; attempts := n;
     nextRetryAt := Js.nullish retryAt (nextRetryAt o); o_updatedAt := o_updatedAt o |}.

Definition outbox_claimed (now : Z) (o : OutboxMessage) : OutboxMessage :=
  {| outboxId := outboxId o; o_taskId := o_taskId o; o_userId := o_userId o;
     o_channel := o_channel o; payload := payload o; o_status := ob_sending;
     attempts := attempts o; nextRetryAt := nextRetryAt o; o_updatedAt := now |}.

Definition inbound_with_status (st : InboundStatus) (i : InboundMessage) : InboundMessage :=
  {| inboundId := inboundId i; in_userId := in_userId i; in_channel := in_channel i;
     providerMessageId := providerMessageId i; idempotencyKey := idempotencyKey i;
     rawTextRedacted := rawTextRedacted i; in_status := st; receivedAt := receivedAt i |}.

(** Replace the first row satisfying [p]; [None] when there is none. *)
Fixpoint updateFirst {A} (p : A -> bool) (f : A -> A) (l : list A) : option (list A) :=
  match l with
  | [] => None
  | x :: l' =>
      if p x then Some (f x :: l') else option_map (cons x) (updateFirst p f l')
  end.

Section Pipeline.

Variable E : Env.

(* ---------------------------------------------------------------- *)
(** ** The runtime: clock, identifiers, logger *)

Definition dateNow : M Z :=
  fun w => (Ok (clock E (clockReads w)), with_clockReads S w).

Definition newId : M string :=
  fun w => (Ok (uuid E (idsIssued w)), with_idsIssued S w).

Definition log (lvl : LogLevel) (msg : string) : M unit :=
  modify (with_logs (fun l => l ++ [(lvl, msg)])).

(* ---------------------------------------------------------------- *)
(** ** The Prisma client

    Primary keys and the columns used in a [findUnique] are unique, so a
    lookup or an update by such a column concerns the first row that has it.
    The [updated_at] columns are written where the sources write them (the
    two raw claim statements). *)

(** Modelled from the spec: prisma/schema.prisma is not among the sources.
    A new row of [inbound_messages]: the store generates [inbound_id] and
    stamps [received_at]; the other columns are given by the route. *)
Definition newInboundMessage (id : string) (now : Z)
    (user channel providerId key : string) (text : option string)
    (st : InboundStatus) : InboundMessage :=
  {| inboundId := id; in_userId := user; in_channel := channel;
     providerMessageId := providerId; idempotencyKey := key;
     rawTextRedacted := text; in_status := st; receivedAt := now |}.

(** Modelled from the spec: prisma/schema.prisma is not among the sources.
    A new row of [tasks]: generated [task_id], [due_at] NULL unless given,
    [attempt_count] 0, no [last_attempt_at], [updated_at] at the insert. *)
Definition newTask (id : string) (now : Z) (user inbound : string)
    (due_ : option Z) (action : string) (hint ctx : option string)
    (st : TaskStatus) : Task :=
  {| taskId := id; t_userId := user; sourceInboundId := inbound; dueAt := due_;
     actionType := action; contactHint := hint; context := ctx;
     t_status := st; attemptCount := 0; lastAttemptAt := None;
     t_updatedAt := now |}.

(** Modelled from the spec: prisma/schema.prisma is not among the sources.
    A new row of [outbox]: generated [outbox_id], [attempts] 0 and
    [next_retry_at] defaulting to the creation time. *)
Definition newOutboxMessage (id : string) (now : Z) (task : option string)
    (user channel : string) (p : OutboxPayload) (st : OutboxStatus)
    : OutboxMessage :=
  {| outboxId := id; o_taskId := task; o_userId := user; o_channel := channel;
     payload := p; o_status := st; attempts := 0; nextRetryAt := now;
     o_updatedAt := now |}.

(** Modelled from the spec: prisma/schema.prisma is not among the sources.
    A new row of [task_events], stamped [created_at] by the store. *)
Definition newTaskEvent (now : Z) (task user : string) (ty : EventType)
    (p : EventPayload) : TaskEvent :=
  {| e_taskId := task; e_userId := user; eventType := ty; e_payload := p;
     createdAt := now |}.

Definition user_findUnique_userId (id : string) : M (option User) :=
  gets (fun w => find (fun u => String.eqb (userId u) id) (users w)).

Definition user_findUnique_primaryEmail (email : string) : M (option User) :=
  gets (fun w =>
          find (fun u => match primaryEmail u with
                         | Some e => String.eqb e email
                         | None => false
                         end) (users w)).

Definition inboundMessage_findUnique_inboundId (id : string)
    : M (option InboundMessage) :=
  gets (fun w => find (fun i => String.eqb (inboundId i) id) (inboundMessages w)).

Definition inboundMessage_findUnique_idempotencyKey (key : string)
    : M (option InboundMessage) :=
  gets (fun w => find (fun i => String.eqb (idempotencyKey i) key) (inboundMessages w)).

(** [inboundMessage.create]: the UNIQUE constraint on [idempotency_key]
    rejects a second row with the same key. *)
Definition inboundMessage_create (user channel providerId key : string)
    (text : option string) (st : InboundStatus) : M InboundMessage :=
  existing <- inboundMessage_findUnique_idempotencyKey key ;;
  match existing with
  | Some _ => throw P2002
  | None =>
      id <- newId ;;
      now <- dateNow ;;
      let row := newInboundMessage id now user channel providerId key text st in
      modify (with_inboundMessages (fun l => l ++ [row])) ;;
      ret row
  end.

Definition inboundMessage_update_status (id : string) (st : InboundStatus) : M unit :=
  rows <- gets inboundMessages ;;
  match updateFirst (fun i => String.eqb (inboundId i) id) (inbound_with_status st) rows with
  | Some rows' => modify (with_inboundMessages (fun _ => rows'))
  | None => throw P2025
  end.

Definition task_findUnique (id : string) : M (option Task) :=
  gets (fun w => find (fun t => String.eqb (taskId t) id) (tasks w)).

(** [task.findUnique] with [include: { user: { include: { preferences:
    true } } }]: the task and the user row its [user_id] points to. *)
Definition task_findUnique_include_user (id : string)
    : M (option (Task * option User)) :=
  gets (fun w =>
          option_map
            (fun t => (t, find (fun u => String.eqb (userId u) (t_userId t)) (users w)))
            (find (fun t => String.eqb (taskId t) id) (tasks w))).

(** Modelled from the spec: prisma/schema.prisma is not among the sources,
    and section 3 of the spec declares [source_inbound_id] unique, so that
    the store refuses (P2002) a second task for the same inbound message.

    [task.create].  A JavaScript [Date] handed to Prisma is [Some (Some d)],
    an invalid one [Some None], which the client refuses before it reaches
    the store; [None] leaves the column to its default. *)
Definition task_create (user inbound : string) (due_ : option (option Z))
    (action : string) (hint ctx : option string) (st : TaskStatus) : M Task :=
  match due_ with
  | Some None => throw PrismaValidation
  | _ =>
      clash <- gets (fun w =>
                 existsb (fun t => String.eqb (sourceInboundId t) inbound) (tasks w)) ;;
      if clash then throw P2002
      else
        id <- newId ;;
        now <- dateNow ;;
        let row := newTask id now user inbound
                     (match due_ with Some d => d | None => None end)
                     action hint ctx st in
        modify (with_tasks (fun l => l ++ [row])) ;;
        ret row
  end.

Definition task_update (id : string) (data : Task -> Task) : M unit :=
  rows <- gets tasks ;;
  match updateFirst (fun t => String.eqb (taskId t) id) data rows with
  | Some rows' => modify (with_tasks (fun _ => rows'))
  | None => throw P2025
  end.

Definition outboxMessage_create (task : option string) (user channel : string)
    (p : OutboxPayload) (st : OutboxStatus) : M OutboxMessage :=
  id <- newId ;;
  now <- dateNow ;;
  let row := newOutboxMessage id now task user channel p st in
  modify (with_outbox (fun l => l ++ [row])) ;;
  ret row.

Definition outboxMessage_update (id : string) (data : OutboxMessage -> OutboxMessage)
    : M unit :=
  rows <- gets outbox ;;
  match updateFirst (fun o => String.eqb (outboxId o) id) data rows with
  | Some rows' => modify (with_outbox (fun _ => rows'))
  | None => throw P2025
  end.

Definition taskEvent_create (task user : string) (ty : EventType) (p : EventPayload)
    : M unit :=
  now <- dateNow ;;
  modify (with_taskEvents (fun l => l ++ [newTaskEvent now task user ty p])).

(** [queue.add(name, data, { jobId })] *)
Definition ingestQueue_add (name : string) (data : IngestJobPayload) (id : string)
    : M unit :=
  modify (with_ingestQueue
            (fun q => q ++ [{| jobName := name; jobData := data; jobId := id |}])).

Definition executeQueue_add (name : string) (data : ExecuteJobPayload) (id : string)
    : M unit :=
  modify (with_executeQueue
            (fun q => q ++ [{| jobName := name; jobData := data; jobId := id |}])).

(* ---------------------------------------------------------------- *)
(** ** src/services/task-events.ts *)

Definition recordTaskEvent (task user : string) (ty : EventType) (p : EventPayload)
    : M unit :=
  tryCatch
    (taskEvent_create task user ty p ;;
     log lvl_debug "Task event recorded")
    (fun _ => log lvl_error "Failed to record task event").

(* ---------------------------------------------------------------- *)
(** ** src/services/claude.ts *)

(** The two system prompts, by their first sentence: the model is an oracle
    here and the rest of the text plays no role. *)
Definition EXTRACTION_SYSTEM : string := "You are a follow-up task extraction assistant.".
Definition DRAFTING_SYSTEM : string := "You are a professional message drafting assistant.".

Definition callClaude (system content : string) : M string :=
  match claude E system content with
  | inr text => ret text
  | inl e => throw e
  end.

Definition extractFollowUp (messageText userTimezone currentDateIso : string)
    : M ExtractionResult :=
  log lvl_info "Calling Claude for extraction" ;;
  text <- callClaude EXTRACTION_SYSTEM
            ("Current date/time: " ++ currentDateIso ++ Js.nl ++ "User timezone: "
               ++ userTimezone ++ Js.nl ++ Js.nl ++ "User message:" ++ Js.nl ++ messageText)%string ;;
  log lvl_debug "Claude extraction raw response" ;;
  match parseExtraction E text with
  | Some parsed => ret parsed
  | None =>
      log lvl_error "Failed to parse Claude extraction response" ;;
      ret {| needs_clarification_ := true;
             clarifying_question :=
               "I had trouble understanding your request. Could you rephrase it? For example: 'Follow up with Dr. Smith next Friday morning about test results.'";
             due_at_iso := None;
             action_type := "remind_and_draft";
             contact_hint := "";
             context_ := messageText |}
  end.

Definition draftFollowUp (contactHint_ context__ tone_ : string) : M DraftResult :=
  log lvl_info "Calling Claude for drafting" ;;
  text <- callClaude DRAFTING_SYSTEM
            ("Contact: " ++ contactHint_ ++ Js.nl ++ "Context: " ++ context__ ++ Js.nl
               ++ "Tone: " ++ tone_ ++ Js.nl ++ Js.nl ++ "Draft a follow-up message.")%string ;;
  log lvl_debug "Claude draft raw response" ;;
  match parseDraft E text with
  | Some d => ret d
  | None =>
      log lvl_error "Failed to parse Claude draft response" ;;
      ret {| draft_subject := ("Follow up: " ++ contactHint_)%string;
             draft_body := ("Hi, I wanted to follow up regarding " ++ context__
                              ++ ". Could you please provide an update? Thank you!")%string |}
  end.

(* ---------------------------------------------------------------- *)
(** ** src/services/email-sender.ts, src/services/whatsapp-sender.ts *)

Definition sendEmail (params : SendEmailParams) : M string :=
  log lvl_info "Sending email via SES" ;;
  calls <- gets sendCalls ;;
  modify (with_sendCalls (fun l => l ++ [EmailCall params])) ;;
  match sesSend E calls params with
  | inr messageId_ =>
      log lvl_info "Email sent successfully" ;;
      ret messageId_
  | inl e => throw e
  end.

Definition whatsappApiError (status_ : Z) (errBody : string) : Err :=
  Thrown ("WhatsApp API error: " ++ Js.showZ status_ ++ " - " ++ errBody)%string.

Definition sendWhatsApp (params : SendWhatsAppParams) : M string :=
  log lvl_info "Sending WhatsApp message" ;;
  calls <- gets sendCalls ;;
  modify (with_sendCalls (fun l => l ++ [WhatsAppCall params])) ;;
  match whatsappFetch E calls params with
  | FetchThrew e => throw e
  | FetchNotOk status_ errBody =>
      log lvl_error "WhatsApp send failed" ;;
      throw (whatsappApiError status_ errBody)
  | FetchOk messageId_ =>
      log lvl_info "WhatsApp message sent successfully" ;;
      ret messageId_
  end.

(* ---------------------------------------------------------------- *)
(** ** src/ingress/validators/email.ts, src/ingress/routes/email.ts,
       src/ingress/index.ts *)

Record EmailRequest : Type := {
  x_webhook_signature : option string;
  requestBody : EmailWebhookPayload
}.

Inductive ReplyBody : Type :=
| InvalidPayload
| Ignored (reason : string)
| Duplicate
| Accepted (inbound : string)
| ErrorBody (error message : string).

Record Reply : Type := { status : Z; sent : ReplyBody }.

Definition validateEmailWebhook (request : EmailRequest) : M unit :=
  if negb (Js.truthy (EMAIL_WEBHOOK_SECRET E)) then
    log lvl_warn "EMAIL_WEBHOOK_SECRET not set – skipping validation (dev mode only)"
  else
    match x_webhook_signature request with
    | None => throw (UnauthorizedError "Missing X-Webhook-Signature header")
    | Some signature =>
        if negb (Js.truthy signature) then
          throw (UnauthorizedError "Missing X-Webhook-Signature header")
        else
          let expected := hmacHex E (EMAIL_WEBHOOK_SECRET E) (requestBody request) in
          if negb (String.eqb signature expected) then
            log lvl_warn "Email webhook signature mismatch" ;;
            throw (UnauthorizedError "Invalid webhook signature")
          else ret tt
    end.

(** [emailBodySchema.safeParse] on a body whose six fields are strings:
    [messageId] and [textBody] are non-empty, [from] is an address. *)
Definition emailBodySchema (p : EmailWebhookPayload) : bool :=
  (Js.truthy (messageId p) && isEmail E (from p) && Js.truthy (textBody p))%bool.

(** The handler of [POST /webhook/email].  Every [await] is a point where
    other requests may run; [others] is what they do to the world between
    the duplicate check and the insert (the identity when the handler runs
    alone). *)
Definition postWebhookEmail (others : World -> World) (request : EmailRequest)
    : M Reply :=
  validateEmailWebhook request ;;
  if negb (emailBodySchema (requestBody request)) then
    log lvl_warn "Invalid email webhook payload" ;;
    ret {| status := 400; sent := InvalidPayload |}
  else
    let payload_ := requestBody request in
    user <- user_findUnique_primaryEmail (from payload_) ;;
    match user with
    | None =>
        log lvl_warn "Unknown sender email" ;;
        ret {| status := 200; sent := Ignored "unknown_sender" |}
    | Some user =>
        let key := (userId user ++ ":" ++ messageId payload_)%string in
        existing <- inboundMessage_findUnique_idempotencyKey key ;;
        match existing with
        | Some _ =>
            log lvl_info "Duplicate email webhook – ignoring" ;;
            ret {| status := 200; sent := Duplicate |}
        | None =>
            modify others ;;
            inbound <- inboundMessage_create (userId user) "email" (messageId payload_) key
                         (Some (subject_ payload_ ++ Js.nl ++ textBody payload_)%string) received ;;
            ingestQueue_add "ingest"
              {| ij_inboundId := inboundId inbound; ij_userId := userId user |} key ;;
            log lvl_info "Email ingested" ;;
            ret {| status := 200; sent := Accepted (inboundId inbound) |}
        end
    end.

(** [app.setErrorHandler] *)
Definition errorHandler (error : Err) : M Reply :=
  match error with
  | AppError statusCode code message =>
      log lvl_warn "App error" ;;
      ret {| status := statusCode; sent := ErrorBody code message |}
  | Thrown _ =>
      log lvl_error "Unhandled error" ;;
      ret {| status := 500; sent := ErrorBody "INTERNAL_ERROR" "Internal server error" |}
  end.

(** The route as the server runs it. *)
Definition emailRoutes (others : World -> World) (request : EmailRequest) : M Reply :=
  tryCatch (postWebhookEmail others request) errorHandler.

(* ---------------------------------------------------------------- *)
(** ** src/workers/ingest.worker.ts *)

Definition processIngest (job : IngestJobPayload) : M unit :=
  let inboundId_ := ij_inboundId job in
  let userId_ := ij_userId job in
  log lvl_info "Processing ingest job" ;;
  inbound <- inboundMessage_findUnique_inboundId inboundId_ ;;
  match inbound with
  | None => log lvl_error "Inbound message not found"
  | Some inbound =>
      user <- user_findUnique_userId userId_ ;;
      match user with
      | None => log lvl_error "User not found"
      | Some user =>
          let prefs := preferences user in
          let timezone_ := Js.nullish (option_map timezone prefs) "America/New_York" in
          let defaultAction_ := Js.nullish (option_map defaultAction prefs) "remind_and_draft" in
          let safeText := Pii.redactPii (Js.nullish (rawTextRedacted inbound) "") in
          nowMs <- dateNow ;;
          let now := toISOString E nowMs in
          extraction <- extractFollowUp safeText timezone_ now ;;
          let channel := in_channel inbound in
          let recipientAddress :=
            if String.eqb channel "email" then primaryEmail user else whatsappNumber user in
          (if needs_clarification_ extraction then
             task <- task_create userId_ inboundId_ None
                       (Js.or (action_type extraction) defaultAction_)
                       (Js.orNull (contact_hint extraction))
                       (Js.orNull (context_ extraction))
                       needs_clarification ;;
             recordTaskEvent (taskId task) userId_ ev_created (Source "ingest") ;;
             recordTaskEvent (taskId task) userId_ ev_clarification_sent
               (Question (clarifying_question extraction)) ;;
             let payload_ := {| to := recipientAddress;
                                subject := Some "Quick question about your follow-up";
                                body := clarifying_question extraction |} in
             outboxMessage_create (Some (taskId task)) userId_ channel payload_ ob_queued ;;
             log lvl_info "Clarification needed – outbox message created"
           else
             let dueAt_ : option (option Z) :=
               if Js.truthyOpt (due_at_iso extraction)
               then option_map (parseDate E) (due_at_iso extraction)
               else None in
             let dueMs : option Z :=
               match dueAt_ with Some (Some d) => Some d | _ => None end in
             task <- task_create userId_ inboundId_ dueAt_
                       (Js.or (action_type extraction) defaultAction_)
                       (Js.orNull (contact_hint extraction))
                       (Js.orNull (context_ extraction))
                       pending ;;
             recordTaskEvent (taskId task) userId_ ev_created (Source "ingest") ;;
             recordTaskEvent (taskId task) userId_ ev_scheduled
               (DueAtIso (option_map (toISOString E) dueMs)) ;;
             friendlyDate <-
               match dueMs with
               | Some d =>
                   match toLocaleString E d timezone_ with
                   | Some formatted => ret formatted
                   | None => throw (InvalidTimeZone timezone_)
                   end
               | None => ret "the scheduled time"
               end ;;
             let actionLabel :=
               if String.eqb (action_type extraction) "remind" then "I'll remind you"
               else if String.eqb (action_type extraction) "send" then "I'll send it for you"
               else "I'll remind you and prepare a draft" in
             let confirmBody :=
               ("Got it! " ++ actionLabel ++ " on " ++ friendlyDate ++ " about "
                  ++ Js.or (contact_hint extraction) "your follow-up" ++ ".")%string in
             let payload_ := {| to := recipientAddress;
                                subject := Some "Follow-up scheduled";
                                body := confirmBody |} in
             outboxMessage_create (Some (taskId task)) userId_ channel payload_ ob_queued ;;
             log lvl_info "Task created and confirmation queued") ;;
          inboundMessage_update_status inboundId_ processed
      end
  end.

(* ---------------------------------------------------------------- *)
(** ** The two raw claim statements

    [UPDATE t SET ... WHERE id IN (SELECT id FROM t WHERE ... ORDER BY k ASC
    LIMIT n FOR UPDATE SKIP LOCKED) RETURNING ...], run by one replica: the
    inner select filters, orders and cuts; the outer update walks the table
    and rewrites the rows whose identifier was selected, returning them. *)

(** [ORDER BY k ASC]: insertion sort, rows with equal keys in table order. *)
Fixpoint insertBy {A} (le : A -> A -> bool) (x : A) (l : list A) : list A :=
  match l with
  | [] => [x]
  | y :: l' => if le x y then x :: l else y :: insertBy le x l'
  end.

Fixpoint orderBy {A} (le : A -> A -> bool) (l : list A) : list A :=
  match l with
  | [] => []
  | x :: l' => insertBy le x (orderBy le l')
  end.

Definition inIds (ids : list string) (id : string) : bool :=
  existsb (String.eqb id) ids.

(** [WHERE status = 'pending' AND due_at <= now]; a NULL [due_at] fails the
    comparison. *)
Definition isDue (now : Z) (t : Task) : bool :=
  (TaskStatus_eqb (t_status t) pending &&
   match dueAt t with Some d => d <=? now | None => false end)%bool.

(** Ascending order on a nullable instant, NULLs last. *)
Definition dueLe (a b : Task) : bool :=
  match dueAt a, dueAt b with
  | Some x, Some y => x <=? y
  | Some _, None => true
  | None, Some _ => false
  | None, None => true
  end.

Definition selectDue (now : Z) (limit : nat) (rows : list Task) : list Task :=
  firstn limit (orderBy dueLe (filter (isDue now) rows)).

Definition claimDueTasks (now dbNow : Z) (rows : list Task)
    : list Task * list (string * string) :=
  let ids := map taskId (selectDue now 100 rows) in
  (map (fun t => if inIds ids (taskId t) then task_claimed_due dbNow t else t) rows,
   map (fun t => (taskId t, t_userId t))
     (filter (fun t => inIds ids (taskId t)) rows)).

(** [WHERE status = 'queued' AND next_retry_at <= now] *)
Definition isQueued (now : Z) (o : OutboxMessage) : bool :=
  (OutboxStatus_eqb (o_status o) ob_queued && (nextRetryAt o <=? now))%bool.

Definition retryLe (a b : OutboxMessage) : bool := nextRetryAt a <=? nextRetryAt b.

Definition selectQueued (now : Z) (limit : nat) (rows : list OutboxMessage)
    : list OutboxMessage :=
  firstn limit (orderBy retryLe (filter (isQueued now) rows)).

(** The projection [RETURNING outbox_id, task_id, user_id, channel, payload,
    attempts]. *)
Record ClaimedMessage : Type := {
  outbox_id : string;
  task_id : option string;
  user_id : string;
  channel : string;
  msg_payload : OutboxPayload;
  msg_attempts : Z
}.

Definition returning (o : OutboxMessage) : ClaimedMessage :=
  {| outbox_id := outboxId o; task_id := o_taskId o; user_id := o_userId o;
     channel := o_channel o; msg_payload := payload o; msg_attempts := attempts o |}.

Definition claimQueued (now dbNow : Z) (rows : list OutboxMessage)
    : list OutboxMessage * list ClaimedMessage :=
  let ids := map outboxId (selectQueued now 20 rows) in
  (map (fun o => if inIds ids (outboxId o) then outbox_claimed dbNow o else o) rows,
   map returning (filter (fun o => inIds ids (outboxId o)) rows)).

(* ---------------------------------------------------------------- *)
(** ** src/workers/scheduler.worker.ts *)

Definition tick : M unit :=
  now <- dateNow ;;
  log lvl_debug "Scheduler tick" ;;
  dueTasks <- (dbNow <- dateNow ;;
               rows <- gets tasks ;;
               let '(rows', claimed) := claimDueTasks now dbNow rows in
               modify (with_tasks (fun _ => rows')) ;;
               ret claimed) ;;
  match dueTasks with
  | [] => ret tt
  | _ =>
      log lvl_info "Tasks marked as due" ;;
      forEach dueTasks
        (fun row =>
           recordTaskEvent (fst row) (snd row) ev_due NoPayload ;;
           executeQueue_add "execute" {| ej_taskId := fst row |} ("exec:" ++ fst row)%string ;;
           log lvl_info "Execute job enqueued")
  end.

(* ---------------------------------------------------------------- *)
(** ** src/workers/executor.worker.ts *)

Definition processExecute (job : ExecuteJobPayload) : M unit :=
  let taskId_ := ej_taskId job in
  log lvl_info "Processing execute job" ;;
  task <- task_findUnique_include_user taskId_ ;;
  match task with
  | None => log lvl_error "Task not found"
  | Some (task, task_user) =>
      if negb (TaskStatus_eqb (t_status task) due) then
        log lvl_warn "Task not in due state – skipping"
      else
        now <- dateNow ;;
        task_update taskId_ (task_executing now) ;;
        recordTaskEvent taskId_ (t_userId task) ev_executing NoPayload ;;
        match task_user with
        | None => throw (Thrown "Cannot read properties of null (reading 'preferences')")
        | Some task_user =>
            let prefs := preferences task_user in
            let tone_ := Js.nullish (option_map tone prefs) "friendly" in
            let fallbackChannel_ := Js.nullish (option_map fallbackChannel prefs) "email" in
            inbound <- inboundMessage_findUnique_inboundId (sourceInboundId task) ;;
            let channel_ := Js.nullish (option_map in_channel inbound) fallbackChannel_ in
            let recipientAddress :=
              if String.eqb channel_ "email" then primaryEmail task_user
              else whatsappNumber task_user in
            let withHint :=
              if Js.truthyOpt (contactHint task)
              then (" with " ++ Js.show (contactHint task))%string else "" in
            message <-
              (if String.eqb (actionType task) "remind" then
                 ret (("Reminder: Follow up with "
                         ++ Js.orOpt (contactHint task) "your contact")%string,
                      ("Hi " ++ displayName task_user
                         ++ ", this is your reminder to follow up" ++ withHint
                         ++ (if Js.truthyOpt (context task)
                             then " about " ++ Js.show (context task) else "")
                         ++ ".")%string)
               else
                 draft <- draftFollowUp (Js.orOpt (contactHint task) "the contact")
                            (Js.orOpt (context task) "a follow-up") tone_ ;;
                 recordTaskEvent taskId_ (t_userId task) ev_draft_generated (Draft draft) ;;
                 ret (draft_subject draft,
                      if String.eqb (actionType task) "send" then draft_body draft
                      else ("Hi " ++ displayName task_user ++ ", it's time to follow up"
                              ++ withHint ++ ". Here's a draft you can use:" ++ Js.nl
                              ++ Js.nl ++ "---" ++ Js.nl ++ "Subject: "
                              ++ draft_subject draft ++ Js.nl ++ Js.nl
                              ++ draft_body draft ++ Js.nl ++ "---" ++ Js.nl ++ Js.nl
                              ++ "Feel free to edit and send!")%string)) ;;
            let payload_ := {| to := recipientAddress; subject := Some (fst message);
                               body := snd message |} in
            outboxMessage_create (Some taskId_) (t_userId task) channel_ payload_ ob_queued ;;
            task_update taskId_ (task_with_status sending) ;;
            recordTaskEvent taskId_ (t_userId task) ev_sending NoPayload ;;
            log lvl_info "Execute job completed – outbox entry created"
        end
  end.

(* ---------------------------------------------------------------- *)
(** ** src/workers/outbox.worker.ts *)

Definition MAX_ATTEMPTS : Z := OUTBOX_MAX_ATTEMPTS E.

(** [Math.min(30_000 * Math.pow(2, attempts), 600_000)], as the whole
    number of milliseconds that [new Date(Date.now() + delayMs)] keeps: for
    a negative exponent the power is a fraction and the instant is
    truncated. *)
Definition delayMs (attempts_ : Z) : Z :=
  if 0 <=? attempts_ then Z.min (30000 * 2 ^ attempts_) 600000
  else 30000 / 2 ^ (- attempts_).

Definition computeNextRetry (attempts_ : Z) : M Z :=
  now <- dateNow ;;
  ret (now + delayMs attempts_).

(** The arguments the two send functions are called with. *)
Definition emailParams (msg : ClaimedMessage) : SendEmailParams :=
  {| se_to := to (msg_payload msg);
     se_subject := Js.nullish (subject (msg_payload msg)) "Follow-Up Concierge";
     se_body := body (msg_payload msg) |}.

Definition whatsappParams (msg : ClaimedMessage) : SendWhatsAppParams :=
  {| sw_to := to (msg_payload msg); sw_body := body (msg_payload msg) |}.

(** The first statement of the [try] block: the send on the channel of the
    message, nothing on any other channel. *)
Definition dispatch (msg : ClaimedMessage) : M unit :=
  if String.eqb (channel msg) "email" then
    sendEmail (emailParams msg) ;; ret tt
  else if String.eqb (channel msg) "whatsapp" then
    sendWhatsApp (whatsappParams msg) ;; ret tt
  else ret tt.

(** The body of the loop over the claimed batch. *)
Definition deliver (msg : ClaimedMessage) : M unit :=
  tryCatch
    (dispatch msg ;;
     outboxMessage_update (outbox_id msg) (outbox_with ob_sent (msg_attempts msg + 1) None) ;;
     whenTruthy (task_id msg)
       (fun task =>
          task_update task (task_with_status done) ;;
          recordTaskEvent task (user_id msg) ev_sent NoPayload ;;
          recordTaskEvent task (user_id msg) ev_done NoPayload) ;;
     log lvl_info "Message sent")
    (fun err =>
       let newAttempts := msg_attempts msg + 1 in
       if newAttempts >=? MAX_ATTEMPTS then
         outboxMessage_update (outbox_id msg) (outbox_with ob_failed newAttempts None) ;;
         whenTruthy (task_id msg)
           (fun task =>
              task_update task (task_with_status failed) ;;
              recordTaskEvent task (user_id msg) ev_failed (Reason (errMessage err))) ;;
         log lvl_error "Message permanently failed – alerting"
       else
         nextRetry <- computeNextRetry newAttempts ;;
         outboxMessage_update (outbox_id msg)
           (outbox_with ob_queued newAttempts (Some nextRetry)) ;;
         log lvl_warn "Message send failed – will retry").

Definition pollOutbox : M unit :=
  now <- dateNow ;;
  messages <- (dbNow <- dateNow ;;
               rows <- gets outbox ;;
               let '(rows', claimed) := claimQueued now dbNow rows in
               modify (with_outbox (fun _ => rows')) ;;
               ret claimed) ;;
  match messages with
  | [] => ret tt
  | _ =>
      log lvl_info "Processing outbox batch" ;;
      forEach messages deliver
  end.

(** The cron callback: [try { await pollOutbox() } catch { log }]. *)
Definition outboxJob : M unit :=
  tryCatch pollOutbox (fun _ => log lvl_error "Outbox poll failed").

Definition schedulerJob : M unit :=
  tryCatch tick (fun _ => log lvl_error "Scheduler tick failed").

End Pipeline.

(* ------------------------------------------------------------------ *)
(** ** The WhatsApp side of the ingress *)

(** src/shared/types.ts: the webhook payload of the WhatsApp Cloud API.
    [wa_text] is the body of [text] when the message has one.  The route
    casts the request body to this type without validating it: a body of
    another shape is outside the model. *)
Record WhatsAppMessage : Type := {
  wa_id : string;
  wa_from : string;
  wa_timestamp : string;
  wa_type : string;
  wa_text : option string
}.

Record WhatsAppValue : Type := {
  messaging_product : string;
  phone_number_id : string;
  messages : option (list WhatsAppMessage)
}.

Record WhatsAppChange : Type := { value : WhatsAppValue }.

Record WhatsAppWebhookEntry : Type := {
  entry_id : string;
  changes : list WhatsAppChange
}.

Record WhatsAppWebhookPayload : Type := {
  object : string;
  entry : list WhatsAppWebhookEntry
}.

Record WhatsAppRequest : Type := {
  x_hub_signature_256 : option string;
  whatsappBody : WhatsAppWebhookPayload
}.

(** The query of the verification request: [hub.mode], [hub.verify_token]
    and [hub.challenge], each possibly absent. *)
Record VerifyQuery : Type := {
  hub_mode : option string;
  hub_verify_token : option string;
  hub_challenge : option string
}.

Inductive WhatsAppReplyBody : Type :=
| Challenge (challenge : option string)
| VerificationFailed
| StatusOnly (status_ : string).

Record WhatsAppReply : Type := { wa_status : Z; wa_sent : WhatsAppReplyBody }.

(** What the rest of the ingress and the admin server take from the
    configuration and from outside. *)
Record Config : Type := {
  WHATSAPP_APP_SECRET : string;
  WHATSAPP_VERIFY_TOKEN : string;
  (** HMAC-SHA256 of the serialized WhatsApp body, in hex *)
  hmacHexWhatsApp : string -> WhatsAppWebhookPayload -> string;
  (** [z.coerce.number().default(60)], taken to be a whole number of days *)
  RETENTION_DAYS : Z
}.

Definition optEqb (a : option string) (b : string) : bool :=
  match a with Some s => String.eqb s b | None => false end.

Section Ingress.

Variable E : Env.
Variable C : Config.

(** src/ingress/validators/whatsapp.ts *)
Definition validateWhatsAppWebhook (request : WhatsAppRequest) : M unit :=
  if negb (Js.truthy (WHATSAPP_APP_SECRET C)) then
    log lvl_warn "WHATSAPP_APP_SECRET not set – skipping validation (dev mode only)"
  else
    match x_hub_signature_256 request with
    | None => throw (UnauthorizedError "Missing X-Hub-Signature-256 header")
    | Some signature =>
        if negb (Js.truthy signature) then
          throw (UnauthorizedError "Missing X-Hub-Signature-256 header")
        else
          let expected :=
            ("sha256=" ++ hmacHexWhatsApp C (WHATSAPP_APP_SECRET C) (whatsappBody request))%string in
          if negb (String.eqb signature expected) then
            log lvl_warn "WhatsApp webhook signature mismatch" ;;
            throw (UnauthorizedError "Invalid webhook signature")
          else ret tt
    end.

Definition user_findUnique_whatsappNumber (number : string) : M (option User) :=
  gets (fun w =>
          find (fun u => match whatsappNumber u with
                         | Some n => String.eqb n number
                         | None => false
                         end) (users w)).

(** src/ingress/routes/whatsapp.ts: [GET /webhook/whatsapp] *)
Definition getWebhookWhatsApp (query : VerifyQuery) : M WhatsAppReply :=
  if (optEqb (hub_mode query) "subscribe"
      && optEqb (hub_verify_token query) (WHATSAPP_VERIFY_TOKEN C))%bool then
    log lvl_info "WhatsApp webhook verified" ;;
    ret {| wa_status := 200; wa_sent := Challenge (hub_challenge query) |}
  else ret {| wa_status := 403; wa_sent := VerificationFailed |}.

(** The body of the innermost loop of [POST /webhook/whatsapp]; each
    [continue] ends it.  As in the email route, [others] is what other
    requests do to the world between the duplicate check and the insert
    (the identity when the handler runs alone). *)
Definition ingestWhatsAppMessage (others : World -> World) (msg : WhatsAppMessage)
    : M unit :=
  if (negb (String.eqb (wa_type msg) "text") || negb (Js.truthyOpt (wa_text msg)))%bool then
    ret tt
  else
    user <- user_findUnique_whatsappNumber (wa_from msg) ;;
    match user with
    | None => log lvl_warn "Unknown WhatsApp sender"
    | Some user =>
        let key := (userId user ++ ":" ++ wa_id msg)%string in
        existing <- inboundMessage_findUnique_idempotencyKey key ;;
        match existing with
        | Some _ => log lvl_info "Duplicate WhatsApp webhook – ignoring"
        | None =>
            modify others ;;
            inbound <- inboundMessage_create E (userId user) "whatsapp" (wa_id msg) key
                         (wa_text msg) received ;;
            ingestQueue_add "ingest"
              {| ij_inboundId := inboundId inbound; ij_userId := userId user |} key ;;
            log lvl_info "WhatsApp message ingested"
        end
    end.

(** [POST /webhook/whatsapp] *)
Definition postWebhookWhatsApp (others : World -> World) (request : WhatsAppRequest)
    : M WhatsAppReply :=
  validateWhatsAppWebhook request ;;
  let body_ := whatsappBody request in
  if negb (String.eqb (object body_) "whatsapp_business_account") then
    ret {| wa_status := 200; wa_sent := StatusOnly "ignored" |}
  else
    forEach (entry body_)
      (fun entry_ =>
         forEach (changes entry_)
           (fun change =>
              match messages (value change) with
              | None => ret tt
              | Some messages_ => forEach messages_ (ingestWhatsAppMessage others)
              end)) ;;
    ret {| wa_status := 200; wa_sent := StatusOnly "accepted" |}.

(** A route as the ingress serves it: the reply of the handler, or that of
    the global error handler when the handler throws. *)
Definition served {A} (handler : M A) : M (A + Reply) :=
  tryCatch (a <- handler ;; ret (inl a))
    (fun e => r <- errorHandler e ;; ret (inr r)).

(* ---------------------------------------------------------------- *)
(** ** src/admin/index.ts *)

Inductive AdminReplyBody : Type :=
| FailedTasks (count : nat) (tasks_ : list (Task * list TaskEvent))
| FailedMessages (count : nat) (messages_ : list OutboxMessage)
| ErrorOnly (error : string)
| Retried (id : string)
| EventsOf (task : string) (events : list TaskEvent)
| RedactionDone (redacted : nat).

Record AdminReply : Type := { ad_status : Z; ad_sent : AdminReplyBody }.

(** [data: { status: 'due', attemptCount: 0 }] *)
Definition task_retried (t : Task) : Task :=
  {| taskId := taskId t; t_userId := t_userId t; sourceInboundId := sourceInboundId t;
     dueAt := dueAt t; actionType := actionType t; contactHint := contactHint t;
     context := context t; t_status := due; attemptCount := 0;
     lastAttemptAt := lastAttemptAt t; t_updatedAt := t_updatedAt t |}.

Definition RETENTION_MARKER : string := "[REDACTED_PER_RETENTION_POLICY]".

(** [data: { rawTextRedacted: '[REDACTED_PER_RETENTION_POLICY]' }] *)
Definition inbound_redacted (i : InboundMessage) : InboundMessage :=
  {| inboundId := inboundId i; in_userId := in_userId i; in_channel := in_channel i;
     providerMessageId := providerMessageId i; idempotencyKey := idempotencyKey i;
     rawTextRedacted := Some RETENTION_MARKER; in_status := in_status i;
     receivedAt := receivedAt i |}.

(** [where: { receivedAt: { lt: cutoff }, rawTextRedacted: { not: marker } }];
    a NULL text fails the comparison. *)
Definition pastRetention (cutoff : Z) (i : InboundMessage) : bool :=
  ((receivedAt i <? cutoff) &&
   match rawTextRedacted i with
   | Some t => negb (String.eqb t RETENTION_MARKER)
   | None => false
   end)%bool.

(** [orderBy: { k: 'desc' }], rows with equal keys in table order. *)
Definition newestFirst {A} (k : A -> Z) (a b : A) : bool := k b <=? k a.

Definition oldestFirst {A} (k : A -> Z) (a b : A) : bool := k a <=? k b.

(** [GET /admin/tasks/failed] *)
Definition getAdminTasksFailed : M AdminReply :=
  rows <- gets (fun w =>
            map (fun t =>
                   (t, firstn 3 (orderBy (newestFirst createdAt)
                                   (filter (fun ev => String.eqb (e_taskId ev) (taskId t))
                                      (taskEvents w)))))
              (firstn 50 (orderBy (newestFirst t_updatedAt)
                            (filter (fun t => TaskStatus_eqb (t_status t) failed)
                               (tasks w))))) ;;
  ret {| ad_status := 200; ad_sent := FailedTasks (length rows) rows |}.

(** [GET /admin/outbox/failed] *)
Definition getAdminOutboxFailed : M AdminReply :=
  rows <- gets (fun w =>
            firstn 50 (orderBy (newestFirst o_updatedAt)
                         (filter (fun o => OutboxStatus_eqb (o_status o) ob_failed)
                            (outbox w)))) ;;
  ret {| ad_status := 200; ad_sent := FailedMessages (length rows) rows |}.

(** [POST /admin/tasks/:taskId/retry] *)
Definition postAdminTaskRetry (taskId_ : string) : M AdminReply :=
  task <- task_findUnique taskId_ ;;
  match task with
  | None => ret {| ad_status := 404; ad_sent := ErrorOnly "Task not found" |}
  | Some task =>
      if negb (TaskStatus_eqb (t_status task) failed) then
        ret {| ad_status := 400; ad_sent := ErrorOnly "Task is not in failed state" |}
      else
        task_update taskId_ task_retried ;;
        now <- dateNow E ;;
        executeQueue_add "execute" {| ej_taskId := taskId_ |}
          ("retry:" ++ taskId_ ++ ":" ++ Js.showZ now)%string ;;
        log lvl_info "Task retried via admin" ;;
        ret {| ad_status := 200; ad_sent := Retried taskId_ |}
  end.

Definition outboxMessage_findUnique (id : string) : M (option OutboxMessage) :=
  gets (fun w => find (fun o => String.eqb (outboxId o) id) (outbox w)).

(** [POST /admin/outbox/:outboxId/retry] *)
Definition postAdminOutboxRetry (outboxId_ : string) : M AdminReply :=
  msg <- outboxMessage_findUnique outboxId_ ;;
  match msg with
  | None => ret {| ad_status := 404; ad_sent := ErrorOnly "Outbox message not found" |}
  | Some msg =>
      if negb (OutboxStatus_eqb (o_status msg) ob_failed) then
        ret {| ad_status := 400;
               ad_sent := ErrorOnly "Outbox message is not in failed state" |}
      else
        now <- dateNow E ;;
        outboxMessage_update outboxId_ (outbox_with ob_queued 0 (Some now)) ;;
        log lvl_info "Outbox message retried via admin" ;;
        ret {| ad_status := 200; ad_sent := Retried outboxId_ |}
  end.

(** [GET /admin/tasks/:taskId/events] *)
Definition getAdminTaskEvents (taskId_ : string) : M AdminReply :=
  events <- gets (fun w =>
              orderBy (oldestFirst createdAt)
                (filter (fun ev => String.eqb (e_taskId ev) taskId_) (taskEvents w))) ;;
  ret {| ad_status := 200; ad_sent := EventsOf taskId_ events |}.

(** [POST /admin/retention/redact] *)
Definition postAdminRetentionRedact : M AdminReply :=
  now <- dateNow E ;;
  let cutoff := now - RETENTION_DAYS C * 24 * 60 * 60 * 1000 in
  count <- (rows <- gets inboundMessages ;;
            modify (with_inboundMessages
                      (map (fun i => if pastRetention cutoff i then inbound_redacted i
                                     else i))) ;;
            ret (length (filter (pastRetention cutoff) rows))) ;;
  log lvl_info "Retention redaction complete" ;;
  ret {| ad_status := 200; ad_sent := RedactionDone count |}.

End Ingress.

(* ------------------------------------------------------------------ *)
(** ** Vocabulary of the statements *)

(** The row with a given primary key. *)
Definition taskRow (w : World) (id : string) : option Task :=
  find (fun t => String.eqb (taskId t) id) (tasks w).

Definition outboxRow (w : World) (id : string) : option OutboxMessage :=
  find (fun o => String.eqb (outboxId o) id) (outbox w).

Definition inboundRow (w : World) (id : string) : option InboundMessage :=
  find (fun i => String.eqb (inboundId i) id) (inboundMessages w).

Definition userRow (w : World) (id : string) : option User :=
  find (fun u => String.eqb (userId u) id) (users w).

(** The foreign key of a claimed message: when [task_id] is set it is the
    (non-empty) identifier of a task in the store. *)
Definition linked (w : World) (msg : ClaimedMessage) : Prop :=
  forall t, task_id msg = Some t -> t <> "" /\ taskRow w t <> None.

(** The audit entry [recordTaskEvent] appends at the [n]-th clock reading. *)
Definition eventAt (E : Env) (n : nat) (task user : string) (ty : EventType)
    (p : EventPayload) : TaskEvent :=
  newTaskEvent (clock E n) task user ty p.

(** Two worlds with the same six tables and the same queues. *)
Definition sameStore (w w' : World) : Prop :=
  users w' = users w /\ inboundMessages w' = inboundMessages w /\
  tasks w' = tasks w /\ outbox w' = outbox w /\ taskEvents w' = taskEvents w /\
  ingestQueue w' = ingestQueue w /\ executeQueue w' = executeQueue w.

(** [n] runs of a handler, one after the other. *)
Fixpoint repeat_ (n : nat) (m : M unit) : M unit :=
  match n with
  | O => ret tt
  | S k => bind m (fun _ => repeat_ k m)
  end.

(** The world after [recordTaskEvent] has appended its entry. *)
Definition recorded (E : Env) (task user : string) (ty : EventType)
    (p : EventPayload) (w : World) : World :=
  with_logs (fun l => l ++ [(lvl_debug, "Task event recorded")])
    (with_taskEvents (fun l => l ++ [eventAt E (clockReads w) task user ty p])
       (with_clockReads S w)).

(** The send on the channel of [msg] is made in world [w] and throws [e],
    or returns. *)
Definition sendThrows (E : Env) (w : World) (msg : ClaimedMessage) (e : Err) : Prop :=
  (channel msg = "email" /\ sesSend E (sendCalls w) (emailParams msg) = inl e) \/
  (channel msg = "whatsapp" /\
   (whatsappFetch E (sendCalls w) (whatsappParams msg) = FetchThrew e \/
    exists status_ errBody,
      whatsappFetch E (sendCalls w) (whatsappParams msg) = FetchNotOk status_ errBody /\
      e = whatsappApiError status_ errBody)).

Definition sendReturns (E : Env) (w : World) (msg : ClaimedMessage) (call : SendCall)
  : Prop :=
  (channel msg = "email" /\ call = EmailCall (emailParams msg) /\
   exists id, sesSend E (sendCalls w) (emailParams msg) = inr id) \/
  (channel msg = "whatsapp" /\ call = WhatsAppCall (whatsappParams msg) /\
   exists id, whatsappFetch E (sendCalls w) (whatsappParams msg) = FetchOk id).

(** The extractor, asked about [text], answers [x]. *)
Definition extractorSays (E : Env) (text tz iso : string) (x : ExtractionResult) : Prop :=
  forall w, fst (extractFollowUp E text tz iso w) = Ok x.

(** What the ingest worker hands to the extractor for an inbound row. *)
Definition safeTextOf (inbound : InboundMessage) : string :=
  Pii.redactPii (Js.nullish (rawTextRedacted inbound) "").

Definition timezoneOf (user : User) : string :=
  Js.nullish (option_map timezone (preferences user)) "America/New_York".

(** The JavaScript [Date] the ingest worker hands to [task.create] for an
    extraction result: none on the clarification branch or when
    [due_at_iso] is falsy, else the parsed string ([Some None] when it does
    not parse). *)
Definition requestedDue (E : Env) (x : ExtractionResult) : option (option Z) :=
  if needs_clarification_ x then None
  else if Js.truthyOpt (due_at_iso x) then option_map (parseDate E) (due_at_iso x)
       else None.

(** The row [task.create] inserts in world [w]. *)
Definition createdTask (E : Env) (w : World) (user inbound : string)
    (due_ : option (option Z)) (action : string) (hint ctx : option string)
    (st : TaskStatus) : Task :=
  newTask (uuid E (idsIssued w)) (clock E (clockReads w)) user inbound
    (match due_ with Some d => d | None => None end) action hint ctx st.

(** The store would refuse a task for [inbound]: a task for it exists. *)
Definition sourceTaken (w : World) (inbound : string) : bool :=
  existsb (fun t => String.eqb (sourceInboundId t) inbound) (tasks w).

(** Every inbound message marked [processed] has its task. *)
Definition anchored (w : World) : Prop :=
  forall i, In i (inboundMessages w) -> in_status i = processed ->
    sourceTaken w (inboundId i) = true.

(** A request that passes the signature check and the body schema. *)
Definition validRequest (E : Env) (request : EmailRequest) : Prop :=
  (EMAIL_WEBHOOK_SECRET E = "" \/
   (x_webhook_signature request
      = Some (hmacHex E (EMAIL_WEBHOOK_SECRET E) (requestBody request)) /\
    hmacHex E (EMAIL_WEBHOOK_SECRET E) (requestBody request) <> "")) /\
  emailBodySchema E (requestBody request) = true.

(** The job the route enqueues for an inbound row. *)
Definition ingestJob (row : InboundMessage) : Job IngestJobPayload :=
  {| jobName := "ingest";
     jobData := {| ij_inboundId := inboundId row; ij_userId := in_userId row |};
     jobId := idempotencyKey row |}.

(** The user with a given primary address, the inbound row with a given
    idempotency key. *)
Definition senderOf (w : World) (email : string) : option User :=
  find (fun u => match primaryEmail u with
                 | Some e => String.eqb e email
                 | None => false
                 end) (users w).

Definition inboundByKey (w : World) (key : string) : option InboundMessage :=
  find (fun i => String.eqb (idempotencyKey i) key) (inboundMessages w).

(** *** What "replaces every match and leaves the rest" means

    A second, declarative reading of the patterns, independent of the
    matcher: [Matches r prev s n] says that the first [n] characters of [s]
    are a match of [r] when [prev] is the character before [s], without any
    priority between the ways to match. *)
Inductive Matches : Pii.regex -> option ascii -> list ascii -> nat -> Prop :=
| M_done prev s : Matches [] prev s 0
| M_boundary k prev s n :
    Pii.atBoundary prev s = true -> Matches k prev s n ->
    Matches (Pii.Boundary :: k) prev s n
| M_class p k prev c s n :
    p c = true -> Matches k (Some c) s n ->
    Matches (Pii.Class p :: k) prev (c :: s) (S n)
| M_optional_skip p k prev s n :
    Matches k prev s n -> Matches (Pii.Optional p :: k) prev s n
| M_optional_take p k prev c s n :
    p c = true -> Matches k (Some c) s n ->
    Matches (Pii.Optional p :: k) prev (c :: s) (S n)
| M_atleast_stop p k prev s n :
    Matches k prev s n -> Matches (Pii.AtLeast 0 p :: k) prev s n
| M_atleast_more m p k prev c s n :
    p c = true -> Matches (Pii.AtLeast (Nat.pred m) p :: k) (Some c) s n ->
    Matches (Pii.AtLeast m p :: k) prev (c :: s) (S n).

(** The character before the rest of the text, once [m] has been read. *)
Definition lastOf (prev : option ascii) (m : list ascii) : option ascii :=
  fold_left (fun _ c => Some c) m prev.

(** [Redacted r by_ prev s out]: [out] is [s] read from left to right, where
    a character at which no match of [r] starts is copied, and where a
    match starts, a match is replaced by [by_] and reading resumes after
    it. *)
Inductive Redacted (r : Pii.regex) (by_ : list ascii)
  : option ascii -> list ascii -> list ascii -> Prop :=
| R_end prev : Redacted r by_ prev [] []
| R_copy prev c s out :
    (forall n, ~ Matches r prev (c :: s) n) ->
    Redacted r by_ (Some c) s out ->
    Redacted r by_ prev (c :: s) (c :: out)
| R_replace prev m rest out :
    m <> [] ->
    Matches r prev (m ++ rest) (length m) ->
    Redacted r by_ (lastOf prev m) rest out ->
    Redacted r by_ prev (m ++ rest) (by_ ++ out).

Definition RedactedText (r : Pii.regex) (by_ text out : string) : Prop :=
  Redacted r (list_ascii_of_string by_) None
    (list_ascii_of_string text) (list_ascii_of_string out).

(** No match of [r] starts anywhere in [s]. *)
Definition Clean (r : Pii.regex) (prev : option ascii) (s : list ascii) : Prop :=
  forall pre suf n, s = pre ++ suf -> suf <> [] -> ~ Matches r (lastOf prev pre) suf n.

(** A pattern with an atom that consumes a character. *)
Definition consuming (r : Pii.regex) : bool :=
  existsb (fun a => match a with
                    | Pii.Class _ => true
                    | Pii.AtLeast (S _) _ => true
                    | _ => false
                    end) r.

(** [Frame R m]: whatever the world, running [m] takes it to a world
    related to it by [R], whether [m] returns or throws. *)
Definition Frame (R : World -> World -> Prop) {A} (m : M A) : Prop :=
  forall w, R w (snd (m w)).

(** The outbox keeps its keys and the row [r]. *)
Definition Keeps (r : OutboxMessage) (w w' : World) : Prop :=
  map outboxId (outbox w') = map outboxId (outbox w) /\
  (In r (outbox w) -> In r (outbox w')).

Definition SameOutbox (w w' : World) : Prop := outbox w' = outbox w.

Definition SameTasks (w w' : World) : Prop := tasks w' = tasks w.


(* ------------------------------------------------------------------ *)
(** ** Vocabulary of the further properties *)

(** The send a claimed message asks for: one call on its channel, none on
    any other channel. *)
Definition callsOf (msg : ClaimedMessage) : list SendCall :=
  if String.eqb (channel msg) "email" then [EmailCall (emailParams msg)]
  else if String.eqb (channel msg) "whatsapp" then [WhatsAppCall (whatsappParams msg)]
  else [].

(** Referential integrity of the outbox: its keys are unique and the
    [task_id] of every row is the identifier of a task. *)
Definition intact (w : World) : Prop :=
  NoDup (map outboxId (outbox w)) /\
  forall o, In o (outbox w) -> linked w (returning o).

Definition SameCalls (w w' : World) : Prop := sendCalls w' = sendCalls w.

Definition SameTaskKeys (w w' : World) : Prop :=
  map taskId (tasks w') = map taskId (tasks w).

(** The outbox keeps its keys, and a row that was not there before has key
    [id] and is no longer [sending]. *)
Definition Settles (id : string) (w w' : World) : Prop :=
  map outboxId (outbox w') = map outboxId (outbox w) /\
  forall o, In o (outbox w') ->
    In o (outbox w) \/ (outboxId o = id /\ o_status o <> ob_sending).

(** The job the scheduler enqueues for a claimed [(task_id, user_id)]. *)
Definition executeJob (row : string * string) : Job ExecuteJobPayload :=
  {| jobName := "execute"; jobData := {| ej_taskId := fst row |};
     jobId := ("exec:" ++ fst row)%string |}.

(** What an audit entry says, apart from its instant. *)
Definition entryOf (ev : TaskEvent) : string * string * EventType * EventPayload :=
  (e_taskId ev, e_userId ev, eventType ev, e_payload ev).

(** The address of a user on a channel: the primary address for [email],
    the WhatsApp number for anything else. *)
Definition addressOn (channel_ : string) (user : User) : option string :=
  if String.eqb channel_ "email" then primaryEmail user else whatsappNumber user.

(** The channel the executor answers on: that of the inbound message the
    task came from, else the user's fallback preference, else [email]. *)
Definition replyChannel (w : World) (task : Task) (user : User) : string :=
  Js.nullish (option_map in_channel (inboundRow w (sourceInboundId task)))
    (Js.nullish (option_map fallbackChannel (preferences user)) "email").

(** The prompt the executor sends for a task, and the draft it works with
    for an answer: the parsed answer, or the fixed template. *)
Definition draftPrompt (task : Task) (user : User) : string :=
  ("Contact: " ++ Js.orOpt (contactHint task) "the contact" ++ Js.nl
     ++ "Context: " ++ Js.orOpt (context task) "a follow-up" ++ Js.nl
     ++ "Tone: " ++ Js.nullish (option_map tone (preferences user)) "friendly"
     ++ Js.nl ++ Js.nl ++ "Draft a follow-up message.")%string.

Definition draftFrom (E : Env) (task : Task) (text : string) : DraftResult :=
  match parseDraft E text with
  | Some d => d
  | None =>
      {| draft_subject := ("Follow up: " ++ Js.orOpt (contactHint task) "the contact")%string;
         draft_body := ("Hi, I wanted to follow up regarding "
                          ++ Js.orOpt (context task) "a follow-up"
                          ++ ". Could you please provide an update? Thank you!")%string |}
  end.

(** The subject and the body the executor writes for a task; [draft] is
    the draft it works with when the action is not [remind]. *)
Definition messageOf (task : Task) (user : User) (draft : DraftResult) : string * string :=
  let withHint :=
    if Js.truthyOpt (contactHint task)
    then (" with " ++ Js.show (contactHint task))%string else "" in
  if String.eqb (actionType task) "remind" then
    (("Reminder: Follow up with " ++ Js.orOpt (contactHint task) "your contact")%string,
     ("Hi " ++ displayName user ++ ", this is your reminder to follow up" ++ withHint
        ++ (if Js.truthyOpt (context task) then " about " ++ Js.show (context task) else "")
        ++ ".")%string)
  else
    (draft_subject draft,
     if String.eqb (actionType task) "send" then draft_body draft
     else ("Hi " ++ displayName user ++ ", it's time to follow up" ++ withHint
             ++ ". Here's a draft you can use:" ++ Js.nl ++ Js.nl ++ "---" ++ Js.nl
             ++ "Subject: " ++ draft_subject draft ++ Js.nl ++ Js.nl
             ++ draft_body draft ++ Js.nl ++ "---" ++ Js.nl ++ Js.nl
             ++ "Feel free to edit and send!")%string).

(** The content the ingest worker sends to the extractor for an inbound
    row, and the extraction it falls back on when the answer is not the
    JSON asked for. *)
Definition extractionPrompt (E : Env) (w : World) (inbound : InboundMessage) (user : User)
    : string :=
  ("Current date/time: " ++ toISOString E (clock E (clockReads w)) ++ Js.nl
     ++ "User timezone: " ++ timezoneOf user ++ Js.nl ++ Js.nl
     ++ "User message:" ++ Js.nl ++ safeTextOf inbound)%string.

Definition rephrase : string :=
  "I had trouble understanding your request. Could you rephrase it? For example: 'Follow up with Dr. Smith next Friday morning about test results.'".

Definition defaultActionOf (user : User) : string :=
  Js.nullish (option_map defaultAction (preferences user)) "remind_and_draft".

(** The date of the confirmation: the due instant in the time zone of the
    user, [the scheduled time] without one; none when the engine does not
    know the time zone. *)
Definition friendlyDateOf (E : Env) (user : User) (dueMs : option Z) : option string :=
  match dueMs with
  | Some d => toLocaleString E d (timezoneOf user)
  | None => Some "the scheduled time"
  end.

(** The body of the confirmation the ingest worker writes for an
    extraction and the date it has formatted. *)
Definition confirmationOf (x : ExtractionResult) (friendlyDate : string) : string :=
  let actionLabel :=
    if String.eqb (action_type x) "remind" then "I'll remind you"
    else if String.eqb (action_type x) "send" then "I'll send it for you"
    else "I'll remind you and prepare a draft" in
  ("Got it! " ++ actionLabel ++ " on " ++ friendlyDate ++ " about "
     ++ Js.or (contact_hint x) "your follow-up" ++ ".")%string.

(** The due instant of the task the ingest worker creates. *)
Definition dueOf (E : Env) (x : ExtractionResult) : option Z :=
  match requestedDue E x with Some d => d | None => None end.

(** The messages of a WhatsApp payload, in the order the route visits
    them. *)
Definition allMessages (body_ : WhatsAppWebhookPayload) : list WhatsAppMessage :=
  flat_map (fun entry_ =>
              flat_map (fun change => match messages (value change) with
                                      | Some messages_ => messages_
                                      | None => []
                                      end) (changes entry_))
    (entry body_).

(** A message the route takes up: of type [text], with a non-empty body. *)
Definition takenUp (msg : WhatsAppMessage) : bool :=
  (String.eqb (wa_type msg) "text" && Js.truthyOpt (wa_text msg))%bool.

(** The user with a given WhatsApp number. *)
Definition whatsappSender (w : World) (number : string) : option User :=
  find (fun u => match whatsappNumber u with
                 | Some n => String.eqb n number
                 | None => false
                 end) (users w).

(** A request that passes the signature check of the WhatsApp validator. *)
Definition signedWhatsApp (C : Config) (request : WhatsAppRequest) : Prop :=
  WHATSAPP_APP_SECRET C = "" \/
  x_hub_signature_256 request
  = Some ("sha256=" ++ hmacHexWhatsApp C (WHATSAPP_APP_SECRET C) (whatsappBody request))%string.

(** The inbound message of the store that answers a WhatsApp message of a
    known sender. *)
Definition storedFor (w : World) (msg : WhatsAppMessage) : Prop :=
  forall user, whatsappSender w (wa_from msg) = Some user ->
    inboundByKey w (userId user ++ ":" ++ wa_id msg)%string <> None.

(* ------------------------------------------------------------------ *)
(** ** A concrete deployment, for examples *)

Module Demo.

Definition showNat (n : nat) : string := NilEmpty.string_of_uint (Nat.to_uint n).

(** The JSON text of an extraction result whose strings need no escape. *)
Definition jsonString (s : string) : string :=
  (String (Ascii.ascii_of_nat 34) s ++ String (Ascii.ascii_of_nat 34) EmptyString)%string.

Definition jsonOf (x : ExtractionResult) : string :=
  ("{" ++ jsonString "needs_clarification" ++ ":"
     ++ (if needs_clarification_ x then "true" else "false")
     ++ "," ++ jsonString "clarifying_question" ++ ":" ++ jsonString (clarifying_question x)
     ++ "," ++ jsonString "due_at_iso" ++ ":"
     ++ match due_at_iso x with Some s => jsonString s | None => "null" end
     ++ "," ++ jsonString "action_type" ++ ":" ++ jsonString (action_type x)
     ++ "," ++ jsonString "contact_hint" ++ ":" ++ jsonString (contact_hint x)
     ++ "," ++ jsonString "context" ++ ":" ++ jsonString (context_ x) ++ "}")%string.

(** An environment in which the model answers an extraction request with
    the JSON of [x] and a drafting request with plain text, and the mail
    provider is up or down.  The engine knows one time zone. *)
Definition env (x : ExtractionResult) (sesUp : bool) : Env :=
  {| clock := fun n => 1000000 + Z.of_nat n;
     uuid := fun n => ("id-" ++ showNat n)%string;
     parseDate := fun s => if String.eqb s "2025-01-01T10:00:00Z"
                           then Some 1735725600000 else None;
     toISOString := fun _ => "2025-01-01T10:00:00.000Z";
     toLocaleString := fun _ timeZone =>
                         if String.eqb timeZone "America/New_York"
                         then Some "Wednesday, January 1 at 5:00 AM" else None;
     claude := fun system _ => if String.eqb system EXTRACTION_SYSTEM
                               then inr (jsonOf x) else inr "Here is a draft for you.";
     parseExtraction := fun text => if String.eqb text (jsonOf x) then Some x else None;
     parseDraft := fun _ => None;
     sesSend := fun _ _ => if sesUp then inr "ses-1" else inl (Thrown "SES unavailable");
     whatsappFetch := fun _ _ => FetchOk "wamid-1";
     hmacHex := fun _ _ => "c0ffee";
     isEmail := fun _ => true;
     EMAIL_WEBHOOK_SECRET := "";
     OUTBOX_MAX_ATTEMPTS := 5 |}.

Definition scheduled : ExtractionResult :=
  {| needs_clarification_ := false; clarifying_question := "";
     due_at_iso := Some "2025-01-01T10:00:00Z"; action_type := "remind";
     contact_hint := "Dr. Smith"; context_ := "test results" |}.

Definition undated : ExtractionResult :=
  {| needs_clarification_ := false; clarifying_question := "";
     due_at_iso := None; action_type := "remind";
     contact_hint := "Dr. Smith"; context_ := "test results" |}.

Definition alice : User :=
  {| userId := "u-1"; primaryEmail := Some "alice@example.com";
     whatsappNumber := Some "15551234567"; displayName := "Alice Johnson";
     preferences := Some {| timezone := "America/New_York"; tone := "friendly";
                            defaultAction := "remind_and_draft";
                            fallbackChannel := "email" |} |}.

Definition world (inbound : list InboundMessage) (ts : list Task)
    (os : list OutboxMessage) : World :=
  {| users := [alice]; inboundMessages := inbound; tasks := ts; outbox := os;
     taskEvents := []; ingestQueue := []; executeQueue := []; sendCalls := [];
     logs := []; clockReads := 0; idsIssued := 0 |}.

Definition request : EmailRequest :=
  {| x_webhook_signature := None;
     requestBody := {| messageId := "msg-1"; from := "alice@example.com";
                       to_ := "concierge@example.com"; subject_ := "Follow up";
                       textBody := "Follow up with Dr office next Friday morning.";
                       timestamp := "2025-01-15T10:00:00Z" |} |}.

Definition inbound1 (st : InboundStatus) : InboundMessage :=
  {| inboundId := "in-1"; in_userId := "u-1"; in_channel := "email";
     providerMessageId := "msg-1"; idempotencyKey := "u-1:msg-1";
     rawTextRedacted := Some "Follow up with Dr office next Friday morning.";
     in_status := st; receivedAt := 900000 |}.

Definition job1 : IngestJobPayload := {| ij_inboundId := "in-1"; ij_userId := "u-1" |}.

Definition task1 (st : TaskStatus) (due_ : option Z) : Task :=
  {| taskId := "t-1"; t_userId := "u-1"; sourceInboundId := "in-1"; dueAt := due_;
     actionType := "remind"; contactHint := Some "Dr. Smith";
     context := Some "test results"; t_status := st; attemptCount := 0;
     lastAttemptAt := None; t_updatedAt := 900000 |}.

Definition row1 (channel_ : string) (st : OutboxStatus) (n : Z) : OutboxMessage :=
  {| outboxId := "o-1"; o_taskId := Some "t-1"; o_userId := "u-1";
     o_channel := channel_;
     payload := {| to := Some "alice@example.com"; subject := Some "Reminder";
                   body := "Hi Alice" |};
     o_status := st; attempts := n; nextRetryAt := 900000; o_updatedAt := 900000 |}.


(** The mail provider fails four times, then answers; a million
    milliseconds pass between two readings of the clock.  The model answers
    in plain text. *)
Definition flaky : Env :=
  {| clock := fun n => 1000000 * (1 + Z.of_nat n);
     uuid := fun n => ("id-" ++ showNat n)%string;
     parseDate := fun _ => None;
     toISOString := fun _ => "2025-01-01T10:00:00.000Z";
     toLocaleString := fun _ _ => Some "Wednesday, January 1 at 5:00 AM";
     claude := fun _ _ => inr "I am not sure what you mean.";
     parseExtraction := fun _ => None;
     parseDraft := fun _ => None;
     sesSend := fun calls _ => if Nat.ltb (length calls) 4
                               then inl (Thrown "SES unavailable") else inr "ses-5";
     whatsappFetch := fun _ _ => FetchOk "wamid-1";
     hmacHex := fun _ _ => "c0ffee";
     isEmail := fun _ => true;
     EMAIL_WEBHOOK_SECRET := "";
     OUTBOX_MAX_ATTEMPTS := 5 |}.

(** The rows of the scheduler test: due at 09:00, 09:30, 10:00 and 11:00,
    in milliseconds of the day. *)
Definition hour : Z := 3600000.

Definition testTask (id user : string) (st : TaskStatus) (due_ : option Z) : Task :=
  {| taskId := id; t_userId := user; sourceInboundId := id; dueAt := due_;
     actionType := "remind"; contactHint := None; context := None; t_status := st;
     attemptCount := 0; lastAttemptAt := None; t_updatedAt := 0 |}.

Definition testTasks : list Task :=
  [testTask "task-1" "user-1" pending (Some (9 * hour));
   testTask "task-2" "user-2" pending (Some (9 * hour + hour / 2));
   testTask "task-3" "user-1" pending (Some (10 * hour));
   testTask "task-4" "user-3" pending (Some (11 * hour))].

(** Another request inserting the same idempotency key meanwhile. *)
Definition racing (w : World) : World :=
  with_inboundMessages (fun l => l ++ [inbound1 received]) w.

End Demo.

(* ------------------------------------------------------------------ *)
(** ** Further cases, for examples *)

Module Cases.

(** An environment whose webhook secret is [secret] and whose LLM answers
    [answer], a text that is not JSON or an error; no date parses. *)
Definition envWith (secret : string) (answer : Err + string) : Env :=
  {| clock := fun n => 1000000 + Z.of_nat n;
     uuid := fun n => ("id-" ++ Demo.showNat n)%string;
     parseDate := fun _ => None;
     toISOString := fun _ => "2025-01-01T10:00:00.000Z";
     toLocaleString := fun _ _ => Some "Wednesday, January 1 at 5:00 AM";
     claude := fun _ _ => answer;
     parseExtraction := fun _ => None;
     parseDraft := fun _ => None;
     sesSend := fun _ _ => inr "ses-1";
     whatsappFetch := fun _ _ => FetchOk "wamid-1";
     hmacHex := fun _ _ => "c0ffee";
     isEmail := fun _ => true;
     EMAIL_WEBHOOK_SECRET := secret;
     OUTBOX_MAX_ATTEMPTS := 5 |}.

Definition config (secret : string) : Config :=
  {| WHATSAPP_APP_SECRET := secret; WHATSAPP_VERIFY_TOKEN := "verify-me";
     hmacHexWhatsApp := fun _ _ => "c0ffee"; RETENTION_DAYS := 30 |}.

(** The extractor asks back; the extractor names a date that does not
    parse. *)
Definition unclear : ExtractionResult :=
  {| needs_clarification_ := true; clarifying_question := "When should I remind you?";
     due_at_iso := None; action_type := "remind";
     contact_hint := "Dr. Smith"; context_ := "test results" |}.

Definition vague : ExtractionResult :=
  {| needs_clarification_ := false; clarifying_question := "";
     due_at_iso := Some "tomorrow"; action_type := "remind";
     contact_hint := "Dr. Smith"; context_ := "test results" |}.

(** A task that needs a draft. *)
Definition draftTask (st : TaskStatus) : Task :=
  {| taskId := "t-1"; t_userId := "u-1"; sourceInboundId := "in-1";
     dueAt := Some 5000; actionType := "remind_and_draft";
     contactHint := Some "Dr. Smith"; context := Some "test results";
     t_status := st; attemptCount := 0; lastAttemptAt := None;
     t_updatedAt := 900000 |}.

(** A user whose stored time zone the engine does not know, and a message
    of theirs. *)
Definition bob : User :=
  {| userId := "u-2"; primaryEmail := Some "bob@example.com";
     whatsappNumber := None; displayName := "Bob Lee";
     preferences := Some {| timezone := "Mars/Olympus_Mons"; tone := "brief";
                            defaultAction := "remind"; fallbackChannel := "email" |} |}.

Definition bobsJob : IngestJobPayload := {| ij_inboundId := "in-2"; ij_userId := "u-2" |}.

Definition bobsWorld : World :=
  {| users := [Demo.alice; bob];
     inboundMessages :=
       [{| inboundId := "in-2"; in_userId := "u-2"; in_channel := "email";
           providerMessageId := "msg-2"; idempotencyKey := "u-2:msg-2";
           rawTextRedacted := Some "Remind me to call the bank on Monday.";
           in_status := received; receivedAt := 900000 |}];
     tasks := []; outbox := []; taskEvents := []; ingestQueue := [];
     executeQueue := []; sendCalls := []; logs := []; clockReads := 0;
     idsIssued := 0 |}.

(** A WhatsApp delivery of two messages from the number of
    [Demo.alice]: a text and an image. *)
Definition hello : WhatsAppMessage :=
  {| wa_id := "wamid-7"; wa_from := "15551234567"; wa_timestamp := "1736935200";
     wa_type := "text"; wa_text := Some "Remind me to call the dentist on Monday." |}.

Definition picture : WhatsAppMessage :=
  {| wa_id := "wamid-8"; wa_from := "15551234567"; wa_timestamp := "1736935260";
     wa_type := "image"; wa_text := None |}.

Definition whatsappRequest (signature : option string) : WhatsAppRequest :=
  {| x_hub_signature_256 := signature;
     whatsappBody :=
       {| object := "whatsapp_business_account";
          entry := [{| entry_id := "entry-1";
                       changes := [{| value := {| messaging_product := "whatsapp";
                                                  phone_number_id := "1066";
                                                  messages := Some [hello; picture] |} |}] |}] |} |}.

End Cases.

(* ================================================================== *)
(** * Properties *)

(** ** Running the monad *)

Lemma run_bind {A B} (m : M A) (k : A -> M B) w a w1 res :
  m w = (Ok a, w1) -> k a w1 = res -> bind m k w = res.
Proof. intros H1 H2. unfold bind. now rewrite H1. Qed.

Lemma run_bind_threw {A B} (m : M A) (k : A -> M B) w e w1 :
  m w = (Threw e, w1) -> bind m k w = (Threw e, w1).
Proof. intros H1. unfold bind. now rewrite H1. Qed.

Lemma run_try {A} (m : M A) h w a w1 :
  m w = (Ok a, w1) -> tryCatch m h w = (Ok a, w1).
Proof. intros H1. unfold tryCatch. now rewrite H1. Qed.

Lemma run_catch {A} (m : M A) h w e w1 res :
  m w = (Threw e, w1) -> h e w1 = res -> tryCatch m h w = res.
Proof. intros H1 H2. unfold tryCatch. now rewrite H1. Qed.

Lemma log_run lvl msg w :
  log lvl msg w = (Ok tt, with_logs (fun l => l ++ [(lvl, msg)]) w).
Proof. reflexivity. Qed.

Lemma sameStore_refl w : sameStore w w.
Proof. repeat split. Qed.

Lemma sameStore_trans w1 w2 w3 : sameStore w1 w2 -> sameStore w2 w3 -> sameStore w1 w3.
Proof.
  unfold sameStore. intros (a1 & a2 & a3 & a4 & a5 & a6 & a7) (b1 & b2 & b3 & b4 & b5 & b6 & b7).
  repeat split; congruence.
Qed.

(** ** Rows and their keys *)

Lemma updateFirst_hit {A} (p : A -> bool) (f : A -> A) l x :
  find p l = Some x -> p (f x) = true ->
  exists l', updateFirst p f l = Some l' /\ find p l' = Some (f x).
Proof.
  induction l as [|y l IH]; cbn; [discriminate|].
  destruct (p y) eqn:Py; intros H Hf.
  - inversion H; subst. eexists; split; [reflexivity|]. cbn. now rewrite Hf.
  - destruct (IH H Hf) as (l' & -> & F). eexists; split; [reflexivity|].
    cbn. now rewrite Py.
Qed.

(** An update by key keeps the keys and every row with another key. *)
Lemma updateFirst_frame {A} (key : A -> string) id (f : A -> A) l l' :
  (forall x, key (f x) = key x) ->
  updateFirst (fun x => String.eqb (key x) id) f l = Some l' ->
  map key l' = map key l /\
  forall y, In y l -> key y <> id -> In y l'.
Proof.
  intros K. revert l'. induction l as [|x l IH]; cbn; [discriminate|].
  intros l'. destruct (String.eqb (key x) id) eqn:Kx.
  - intros H; inversion H; subst; cbn. rewrite K. split; [reflexivity|].
    intros y [->|Hy] Ne; [|now right].
    apply String.eqb_eq in Kx. contradiction.
  - destruct (updateFirst _ f l) as [l0|] eqn:U; cbn; [|discriminate].
    intros H; inversion H; subst; cbn.
    destruct (IH l0 eq_refl) as (M1 & M2). split; [now rewrite M1|].
    intros y [->|Hy] Ne; [now left|right; auto].
Qed.

(** The rows after an update: the old ones, and the rewritten one. *)
Lemma updateFirst_rows {A} (p : A -> bool) (f : A -> A) l l' :
  updateFirst p f l = Some l' ->
  forall y, In y l' -> In y l \/ exists x, In x l /\ p x = true /\ y = f x.
Proof.
  revert l'. induction l as [|x l IH]; cbn; [discriminate|].
  intros l'. destruct (p x) eqn:Px.
  - intros H; inversion H; subst. intros y [<-|Hy].
    + right. exists x. auto.
    + left. now right.
  - destruct (updateFirst p f l) as [l0|]; cbn; [|discriminate].
    intros H; inversion H; subst. intros y [<-|Hy]; [left; now left|].
    destruct (IH l0 eq_refl y Hy) as [In_|(z & Hz & Pz & ->)].
    + left. now right.
    + right. exists z. auto.
Qed.

Section Facts.

Variable E : Env.

Lemma recordTaskEvent_run task user ty p w :
  recordTaskEvent E task user ty p w = (Ok tt, recorded E task user ty p w).
Proof. reflexivity. Qed.

Lemma outboxMessage_update_hit id data w r :
  outboxRow w id = Some r -> outboxId (data r) = outboxId r ->
  exists rows,
    outboxMessage_update id data w = (Ok tt, with_outbox (fun _ => rows) w) /\
    find (fun o => String.eqb (outboxId o) id) rows = Some (data r).
Proof.
  intros F K. unfold outboxRow in F.
  destruct (updateFirst_hit _ data _ F) as (l' & U & F').
  - rewrite K. apply find_some in F. apply F.
  - exists l'. split; [|exact F'].
    unfold outboxMessage_update, bind, gets. cbn. now rewrite U.
Qed.

Lemma task_update_hit id data w r :
  taskRow w id = Some r -> taskId (data r) = taskId r ->
  exists rows,
    task_update id data w = (Ok tt, with_tasks (fun _ => rows) w) /\
    find (fun o => String.eqb (taskId o) id) rows = Some (data r).
Proof.
  intros F K. unfold taskRow in F.
  destruct (updateFirst_hit _ data _ F) as (l' & U & F').
  - rewrite K. apply find_some in F. apply F.
  - exists l'. split; [|exact F'].
    unfold task_update, bind, gets. cbn. now rewrite U.
Qed.

(** *** The send of a claimed message *)

Lemma dispatch_returns msg w call :
  sendReturns E w msg call ->
  exists w1,
    dispatch E msg w = (Ok tt, w1) /\ sameStore w w1 /\
    sendCalls w1 = sendCalls w ++ [call] /\ clockReads w1 = clockReads w.
Proof.
  unfold dispatch, sendEmail, sendWhatsApp, bind, gets, log, modify.
  intros [(C & -> & id & S)|(C & -> & id & S)]; rewrite C; cbn; rewrite S; cbn;
    eexists; split; try reflexivity; cbn; repeat split.
Qed.

Lemma dispatch_throws msg w e :
  sendThrows E w msg e ->
  exists w1,
    dispatch E msg w = (Threw e, w1) /\ sameStore w w1 /\
    clockReads w1 = clockReads w.
Proof.
  unfold dispatch, sendEmail, sendWhatsApp, bind, gets, log, modify.
  intros [(C & S)|(C & [S|(st & body & S & ->)])]; rewrite C; cbn; rewrite S; cbn;
    eexists; split; try reflexivity; cbn; repeat split.
Qed.

Lemma dispatch_silent msg w :
  channel msg <> "email" -> channel msg <> "whatsapp" ->
  dispatch E msg w = (Ok tt, w).
Proof.
  intros H1 H2. unfold dispatch.
  apply String.eqb_neq in H1, H2. now rewrite H1, H2.
Qed.

(** *** One claimed message, after its send *)

Lemma deliver_sent msg w w1 r :
  dispatch E msg w = (Ok tt, w1) ->
  outboxRow w1 (outbox_id msg) = Some r ->
  linked w1 msg ->
  exists w',
    deliver E msg w = (Ok tt, w') /\
    sendCalls w' = sendCalls w1 /\
    outboxRow w' (outbox_id msg)
      = Some (outbox_with ob_sent (msg_attempts msg + 1) None r) /\
    match task_id msg with
    | Some t =>
        exists task, taskRow w1 t = Some task /\
          taskRow w' t = Some (task_with_status done task) /\
          taskEvents w' = taskEvents w1 ++
            [eventAt E (clockReads w1) t (user_id msg) ev_sent NoPayload;
             eventAt E (S (clockReads w1)) t (user_id msg) ev_done NoPayload]
    | None => tasks w' = tasks w1 /\ taskEvents w' = taskEvents w1
    end.
Proof.
  intros D R L.
  destruct (outboxMessage_update_hit (outbox_id msg)
              (outbox_with ob_sent (msg_attempts msg + 1) None) w1 R eq_refl)
    as (rows & U & F).
  unfold deliver.
  destruct (task_id msg) as [t|] eqn:Ht.
  - destruct (L t Ht) as (Ne & Ex).
    destruct (taskRow w1 t) as [task|] eqn:Tr; [|congruence].
    destruct (task_update_hit t (task_with_status done)
                (with_outbox (fun _ => rows) w1) Tr eq_refl) as (trows & TU & TF).
    eexists; split.
    + apply run_try.
      eapply run_bind; [exact D|]. eapply run_bind; [exact U|].
      eapply run_bind; [|apply log_run].
      unfold whenTruthy. destruct t; [congruence|]. cbn [Js.truthy].
      eapply run_bind; [exact TU|]. eapply run_bind; apply recordTaskEvent_run.
    + cbn. repeat split; auto. exists task. repeat split; auto.
      now rewrite <- app_assoc.
  - eexists; split.
    + apply run_try.
      eapply run_bind; [exact D|]. eapply run_bind; [exact U|].
      eapply run_bind; [reflexivity|apply log_run].
    + cbn. auto.
Qed.

Lemma deliver_exhausted msg w w1 r e :
  dispatch E msg w = (Threw e, w1) ->
  outboxRow w1 (outbox_id msg) = Some r ->
  linked w1 msg ->
  msg_attempts msg + 1 >= MAX_ATTEMPTS E ->
  exists w',
    deliver E msg w = (Ok tt, w') /\
    outboxRow w' (outbox_id msg)
      = Some (outbox_with ob_failed (msg_attempts msg + 1) None r) /\
    match task_id msg with
    | Some t =>
        exists task, taskRow w1 t = Some task /\
          taskRow w' t = Some (task_with_status failed task) /\
          taskEvents w' = taskEvents w1 ++
            [eventAt E (clockReads w1) t (user_id msg) ev_failed (Reason (errMessage e))]
    | None => tasks w' = tasks w1 /\ taskEvents w' = taskEvents w1
    end.
Proof.
  intros D R L G.
  destruct (outboxMessage_update_hit (outbox_id msg)
              (outbox_with ob_failed (msg_attempts msg + 1) None) w1 R eq_refl)
    as (rows & U & F).
  assert (G' : (msg_attempts msg + 1 >=? MAX_ATTEMPTS E) = true)
    by (apply Z.geb_le; lia).
  unfold deliver.
  destruct (task_id msg) as [t|] eqn:Ht.
  - destruct (L t Ht) as (Ne & Ex).
    destruct (taskRow w1 t) as [task|] eqn:Tr; [|congruence].
    destruct (task_update_hit t (task_with_status failed)
                (with_outbox (fun _ => rows) w1) Tr eq_refl) as (trows & TU & TF).
    eexists; split.
    + eapply run_catch; [apply run_bind_threw; exact D|].
      cbv zeta. rewrite G'.
      eapply run_bind; [exact U|]. eapply run_bind; [|apply log_run].
      unfold whenTruthy. destruct t; [congruence|]. cbn [Js.truthy].
      eapply run_bind; [exact TU|]. apply recordTaskEvent_run.
    + cbn. repeat split; auto. exists task. repeat split; auto.
  - eexists; split.
    + eapply run_catch; [apply run_bind_threw; exact D|].
      cbv zeta. rewrite G'.
      eapply run_bind; [exact U|]. eapply run_bind; [reflexivity|apply log_run].
    + cbn. auto.
Qed.

Lemma deliver_retried msg w w1 r e :
  dispatch E msg w = (Threw e, w1) ->
  outboxRow w1 (outbox_id msg) = Some r ->
  msg_attempts msg + 1 < MAX_ATTEMPTS E ->
  exists w',
    deliver E msg w = (Ok tt, w') /\
    outboxRow w' (outbox_id msg)
      = Some (outbox_with ob_queued (msg_attempts msg + 1)
                (Some (clock E (clockReads w1) + delayMs (msg_attempts msg + 1))) r) /\
    tasks w' = tasks w1 /\ taskEvents w' = taskEvents w1.
Proof.
  intros D R G.
  destruct (outboxMessage_update_hit (outbox_id msg)
              (outbox_with ob_queued (msg_attempts msg + 1)
                 (Some (clock E (clockReads w1) + delayMs (msg_attempts msg + 1))))
              (with_clockReads S w1) R eq_refl)
    as (rows & U & F).
  assert (G' : (msg_attempts msg + 1 >=? MAX_ATTEMPTS E) = false)
    by (rewrite Z.geb_leb; apply Z.leb_gt; lia).
  unfold deliver.
  eexists; split.
  - eapply run_catch; [apply run_bind_threw; exact D|].
    cbv zeta. rewrite G'.
    eapply run_bind; [reflexivity|]. eapply run_bind; [exact U|]. apply log_run.
  - cbn. auto.
Qed.

(** *** Frames: what a handler leaves alone *)

Section FrameRules.

Variable R : World -> World -> Prop.
Hypothesis R_refl : forall w, R w w.
Hypothesis R_trans : forall a b c, R a b -> R b c -> R a c.

Lemma frame_ret {A} (a : A) : Frame R (ret a).
Proof. intros w. apply R_refl. Qed.

Lemma frame_throw {A} e : Frame R (@throw A e).
Proof. intros w. apply R_refl. Qed.

Lemma frame_gets {A} (f : World -> A) : Frame R (gets f).
Proof. intros w. apply R_refl. Qed.

Lemma frame_bind {A B} (m : M A) (k : A -> M B) :
  Frame R m -> (forall a, Frame R (k a)) -> Frame R (bind m k).
Proof.
  intros Hm Hk w. unfold bind. specialize (Hm w).
  destruct (m w) as [[a|e] w1]; cbn in *; [|exact Hm].
  eapply R_trans; [exact Hm|apply Hk].
Qed.

Lemma frame_tryCatch {A} (m : M A) h :
  Frame R m -> (forall e, Frame R (h e)) -> Frame R (tryCatch m h).
Proof.
  intros Hm Hh w. unfold tryCatch. specialize (Hm w).
  destruct (m w) as [[a|e] w1]; cbn in *; [exact Hm|].
  eapply R_trans; [exact Hm|apply Hh].
Qed.

Lemma frame_forEach {A} (xs : list A) body :
  (forall x, In x xs -> Frame R (body x)) -> Frame R (forEach xs body).
Proof.
  induction xs as [|x xs IH]; intros H; cbn [forEach].
  - apply frame_ret.
  - apply frame_bind; [apply H; now left|].
    intros _. apply IH. intros y Hy. apply H. now right.
Qed.

Lemma frame_whenTruthy x k :
  (forall s, Frame R (k s)) -> Frame R (whenTruthy x k).
Proof.
  intros H. unfold whenTruthy. destruct x as [s|]; [|apply frame_ret].
  destruct (Js.truthy s); [apply H|apply frame_ret].
Qed.

Lemma frame_repeat n (m : M unit) : Frame R m -> Frame R (repeat_ n m).
Proof.
  intros H. induction n; cbn [repeat_]; [apply frame_ret|].
  apply frame_bind; auto.
Qed.

End FrameRules.

Lemma SameOutbox_refl w : SameOutbox w w.
Proof. reflexivity. Qed.

Lemma SameOutbox_trans a b c : SameOutbox a b -> SameOutbox b c -> SameOutbox a c.
Proof. unfold SameOutbox. congruence. Qed.



Lemma Keeps_refl r w : Keeps r w w.
Proof. split; auto. Qed.

Lemma Keeps_trans r a b c : Keeps r a b -> Keeps r b c -> Keeps r a c.
Proof. intros (M1 & I1) (M2 & I2). split; [congruence|auto]. Qed.

Lemma SameOutbox_Keeps r {A} (m : M A) : Frame SameOutbox m -> Frame (Keeps r) m.
Proof. intros H w. specialize (H w). unfold SameOutbox in H. split; now rewrite H. Qed.

Create HintDb frames.

Lemma log_outbox lvl msg : Frame SameOutbox (log lvl msg).
Proof. intros w. reflexivity. Qed.

Lemma dateNow_outbox : Frame SameOutbox (dateNow E).
Proof. intros w. reflexivity. Qed.

Lemma recordTaskEvent_outbox t u ty p : Frame SameOutbox (recordTaskEvent E t u ty p).
Proof. intros w. reflexivity. Qed.

Lemma task_update_outbox id data : Frame SameOutbox (task_update id data).
Proof.
  intros w. unfold task_update, bind, gets. cbn.
  destruct (updateFirst _ data (tasks w)); reflexivity.
Qed.

Lemma dispatch_outbox msg : Frame SameOutbox (dispatch E msg).
Proof.
  intros w. unfold dispatch, sendEmail, sendWhatsApp, bind, gets, log, modify.
  destruct (String.eqb (channel msg) "email"); cbn.
  - destruct (sesSend E _ _); reflexivity.
  - destruct (String.eqb (channel msg) "whatsapp"); cbn; [|reflexivity].
    destruct (whatsappFetch E _ _); reflexivity.
Qed.

Lemma computeNextRetry_outbox n : Frame SameOutbox (computeNextRetry E n).
Proof. intros w. reflexivity. Qed.

Lemma outboxMessage_update_keeps r id data :
  (forall o, outboxId (data o) = outboxId o) -> outboxId r <> id ->
  Frame (Keeps r) (outboxMessage_update id data).
Proof.
  intros K Ne w. unfold outboxMessage_update, bind, gets. cbn.
  destruct (updateFirst _ data (outbox w)) as [rows|] eqn:U; cbn.
  - destruct (updateFirst_frame outboxId id data (outbox w) K U) as (M1 & M2).
    split; [exact M1|]. intros Hin. now apply M2.
  - apply Keeps_refl.
Qed.

Hint Resolve log_outbox dateNow_outbox recordTaskEvent_outbox task_update_outbox
  dispatch_outbox computeNextRetry_outbox SameOutbox_Keeps Keeps_refl Keeps_trans
  : frames.

Lemma deliver_keeps r msg :
  outboxId r <> outbox_id msg -> Frame (Keeps r) (deliver E msg).
Proof.
  intros Ne. unfold deliver.
  pose proof (Keeps_refl r) as Rf. pose proof (@Keeps_trans r) as Tr.
  assert (Up : forall data, (forall o, outboxId (data o) = outboxId o) ->
               Frame (Keeps r) (outboxMessage_update (outbox_id msg) data))
    by (intros; now apply outboxMessage_update_keeps).
  apply (frame_tryCatch Tr).
  - apply (frame_bind Tr); [auto with frames|intros _].
    apply (frame_bind Tr); [now apply Up|intros _].
    apply (frame_bind Tr); [|intros _; auto with frames].
    apply (frame_whenTruthy Rf). intros s.
    apply (frame_bind Tr); [auto with frames|intros _].
    apply (frame_bind Tr); [auto with frames|intros _; auto with frames].
  - intros e. cbv zeta.
    destruct (msg_attempts msg + 1 >=? MAX_ATTEMPTS E).
    + apply (frame_bind Tr); [now apply Up|intros _].
      apply (frame_bind Tr); [|intros _; auto with frames].
      apply (frame_whenTruthy Rf). intros s.
      apply (frame_bind Tr); [auto with frames|intros _; auto with frames].
    + apply (frame_bind Tr); [auto with frames|intros nextRetry].
      apply (frame_bind Tr); [now apply Up|intros _; auto with frames].
Qed.

(** *** The claim statements: ordering, cut and keys *)

Lemma insertBy_Permutation {A} (le : A -> A -> bool) x l :
  Permutation (insertBy le x l) (x :: l).
Proof.
  induction l as [|y l IH]; cbn; [reflexivity|].
  destruct (le x y); [reflexivity|].
  rewrite IH. apply perm_swap.
Qed.

Lemma orderBy_Permutation {A} (le : A -> A -> bool) l :
  Permutation (orderBy le l) l.
Proof.
  induction l as [|x l IH]; cbn; [reflexivity|].
  rewrite insertBy_Permutation. now constructor.
Qed.

Lemma In_firstn_In {A} n (l : list A) x : In x (firstn n l) -> In x l.
Proof.
  intros H. rewrite <- (firstn_skipn n l). apply in_or_app. now left.
Qed.

Lemma selected_In {A} (le : A -> A -> bool) p n l x :
  In x (firstn n (orderBy le (filter p l))) -> In x l /\ p x = true.
Proof.
  intros H. apply In_firstn_In in H.
  apply (Permutation_in _ (orderBy_Permutation le _)) in H.
  now apply filter_In in H.
Qed.

Lemma inIds_In ids id : inIds ids id = true <-> In id ids.
Proof.
  unfold inIds. rewrite existsb_exists. split.
  - intros (x & Hx & Ex). apply String.eqb_eq in Ex. now subst.
  - intros H. exists id. split; [exact H|apply String.eqb_refl].
Qed.

Lemma key_inj {A} (key : A -> string) l x y :
  NoDup (map key l) -> In x l -> In y l -> key x = key y -> x = y.
Proof.
  induction l as [|z l IH]; cbn; [tauto|].
  intros N. inversion N as [|? ? Nin N']; subst.
  intros [->|Hx] [->|Hy] K; auto.
  - exfalso. apply Nin. rewrite K. now apply in_map.
  - exfalso. apply Nin. rewrite <- K. now apply in_map.
Qed.

(** With unique keys, the rows the outer statement rewrites are the rows
    the inner select picked. *)
Lemma picked_iff {A} (key : A -> string) (sel l : list A) x :
  NoDup (map key l) -> incl sel l -> In x l ->
  (inIds (map key sel) (key x) = true <-> In x sel).
Proof.
  intros N Inc Hx. rewrite inIds_In, in_map_iff. split.
  - intros (y & K & Hy). now rewrite <- (key_inj key l y x N (Inc _ Hy) Hx K).
  - intros H. now exists x.
Qed.

(** *** A failed outbox row and the poller *)

Lemma failed_not_selected now n rows r :
  NoDup (map outboxId rows) -> In r rows -> o_status r = ob_failed ->
  inIds (map outboxId (selectQueued now n rows)) (outboxId r) = false.
Proof.
  intros N Hr F. destruct (inIds _ _) eqn:I; [|reflexivity].
  apply (@picked_iff _ outboxId (selectQueued now n rows) rows r N) in I; auto.
  - apply selected_In in I. destruct I as (_ & Q).
    unfold isQueued in Q. rewrite F in Q. discriminate.
  - intros x Hx. now apply selected_In in Hx.
Qed.

Lemma claimQueued_keys now dbNow rows :
  map outboxId (fst (claimQueued now dbNow rows)) = map outboxId rows.
Proof.
  unfold claimQueued, fst. rewrite map_map. apply map_ext.
  intros o. now match goal with |- context [if ?c then _ else _] => destruct c end.
Qed.

Lemma claimQueued_spares now dbNow rows r :
  NoDup (map outboxId rows) -> In r rows -> o_status r = ob_failed ->
  In r (fst (claimQueued now dbNow rows)) /\
  forall msg, In msg (snd (claimQueued now dbNow rows)) -> outboxId r <> outbox_id msg.
Proof.
  intros N Hr F. pose proof (failed_not_selected now 20 rows r N Hr F) as NS.
  unfold claimQueued, fst, snd. split.
  - apply in_map_iff. exists r. now rewrite NS.
  - intros msg Hm. apply in_map_iff in Hm. destruct Hm as (o & <- & Ho).
    apply filter_In in Ho. destruct Ho as (_ & Io). cbn [returning outbox_id].
    intros Eq. rewrite <- Eq in Io. congruence.
Qed.

Lemma pollOutbox_run w :
  pollOutbox E w =
    let claim := claimQueued (clock E (clockReads w)) (clock E (S (clockReads w)))
                   (outbox w) in
    let w1 := with_outbox (fun _ => fst claim) (with_clockReads S (with_clockReads S w)) in
    match snd claim with
    | [] => (Ok tt, w1)
    | _ => bind (log lvl_info "Processing outbox batch")
             (fun _ => forEach (snd claim) (deliver E)) w1
    end.
Proof.
  cbv zeta. unfold pollOutbox, bind at 1 2 3 4 5, dateNow, gets, modify, ret.
  cbv beta iota. cbn [fst snd clockReads with_clockReads outbox].
  destruct (claimQueued _ _ (outbox w)) as [rows' msgs]. cbn [fst snd].
  destruct msgs; reflexivity.
Qed.

Lemma pollOutbox_keeps r w :
  NoDup (map outboxId (outbox w)) -> In r (outbox w) -> o_status r = ob_failed ->
  Keeps r w (snd (pollOutbox E w)).
Proof.
  intros N Hr F.
  pose proof (Keeps_refl r) as Rf. pose proof (@Keeps_trans r) as Tr.
  rewrite pollOutbox_run. cbv zeta.
  set (now := clock E (clockReads w)).
  set (dbNow := clock E (S (clockReads w))).
  pose proof (claimQueued_keys now dbNow (outbox w)) as Keys.
  destruct (claimQueued_spares now dbNow (outbox w) r N Hr F) as (Still & Other).
  destruct (claimQueued now dbNow (outbox w)) as [rows' msgs]. cbn [fst snd] in *.
  set (w1 := with_outbox (fun _ => rows') _).
  assert (K1 : Keeps r w w1) by (split; cbn; auto).
  assert (K2 : Frame (Keeps r) (forEach msgs (deliver E))).
  { apply (frame_forEach Rf Tr). intros msg Hm. apply deliver_keeps. now apply Other. }
  destruct msgs as [|m ms]; [exact K1|].
  eapply Tr; [exact K1|].
  apply (frame_bind Tr); [auto with frames|intros _; exact K2].
Qed.

Lemma outboxJob_keeps r w :
  NoDup (map outboxId (outbox w)) -> In r (outbox w) -> o_status r = ob_failed ->
  Keeps r w (snd (outboxJob E w)).
Proof.
  intros N Hr F. pose proof (@pollOutbox_keeps r w N Hr F) as K.
  unfold outboxJob, tryCatch. destruct (pollOutbox E w) as [[u|e] w1]; exact K.
Qed.

Lemma polls_keep r n w :
  NoDup (map outboxId (outbox w)) -> In r (outbox w) -> o_status r = ob_failed ->
  Keeps r w (snd (repeat_ n (outboxJob E) w)).
Proof.
  revert w. induction n as [|n IH]; intros w N Hr F; cbn [repeat_].
  - apply Keeps_refl.
  - pose proof (@outboxJob_keeps r w N Hr F) as K. unfold bind.
    destruct (outboxJob E w) as [[u|e] w1]; cbn in *; [|exact K].
    destruct K as (K1 & K2). eapply Keeps_trans; [split; eauto|].
    apply IH; [now rewrite K1|auto|exact F].
Qed.

(** *** The outbox sender, claim by claim *)

Lemma sameStore_rows w w1 msg :
  sameStore w w1 ->
  outboxRow w1 (outbox_id msg) = outboxRow w (outbox_id msg) /\
  (linked w msg -> linked w1 msg) /\
  (forall t, taskRow w1 t = taskRow w t).
Proof.
  intros (_ & _ & T & O & _). unfold outboxRow, linked, taskRow.
  rewrite T, O. auto.
Qed.

(** C5: for a claimed outbox row whose send call returns, the row becomes
    [sent] with its attempts incremented by one; when its [task_id] is set,
    the linked task becomes [done] and a [sent] event followed by a [done]
    event is appended; when [task_id] is null, no task row and no event is
    touched. *)
Theorem sent_row_completes_task w r call :
  o_status r = ob_sending ->
  outboxRow w (outboxId r) = Some r ->
  linked w (returning r) ->
  sendReturns E w (returning r) call ->
  exists w',
    deliver E (returning r) w = (Ok tt, w') /\
    sendCalls w' = sendCalls w ++ [call] /\
    outboxRow w' (outboxId r) = Some (outbox_with ob_sent (attempts r + 1) None r) /\
    match o_taskId r with
    | Some t =>
        exists task, taskRow w t = Some task /\
          taskRow w' t = Some (task_with_status done task) /\
          taskEvents w' = taskEvents w ++
            [eventAt E (clockReads w) t (o_userId r) ev_sent NoPayload;
             eventAt E (S (clockReads w)) t (o_userId r) ev_done NoPayload]
    | None => tasks w' = tasks w /\ taskEvents w' = taskEvents w
    end.
Proof.
  intros _ Row Link Send.
  destruct (@dispatch_returns (returning r) w call Send) as (w1 & D & Same & Calls & Clock).
  destruct (@sameStore_rows w w1 (returning r) Same) as (R1 & L1 & T1).
  assert (Row1 : outboxRow w1 (outbox_id (returning r)) = Some r) by (now rewrite R1).
  destruct (@deliver_sent (returning r) w w1 r D Row1 (L1 Link))
    as (w' & Run & C' & R' & Rest).
  destruct Same as (_ & _ & St & _ & Se & _).
  exists w'. split; [exact Run|]. split; [congruence|]. split; [exact R'|].
  cbn [returning task_id user_id] in Rest.
  destruct (o_taskId r) as [t|].
  - destruct Rest as (task & A & B & C). exists task.
    rewrite T1 in A. rewrite Se, Clock in C. auto.
  - destruct Rest as (A & B). split; congruence.
Qed.

(** C10: for a claimed outbox row whose channel is neither [email] nor
    [whatsapp], no send API is called and the success path is taken all the
    same: the row becomes [sent] with its attempts incremented, and a linked
    task is marked [done] with its [sent] and [done] events. *)
Theorem unknown_channel_is_marked_sent w r :
  o_status r = ob_sending ->
  outboxRow w (outboxId r) = Some r ->
  linked w (returning r) ->
  o_channel r <> "email" -> o_channel r <> "whatsapp" ->
  exists w',
    deliver E (returning r) w = (Ok tt, w') /\
    sendCalls w' = sendCalls w /\
    outboxRow w' (outboxId r) = Some (outbox_with ob_sent (attempts r + 1) None r) /\
    match o_taskId r with
    | Some t =>
        exists task, taskRow w t = Some task /\
          taskRow w' t = Some (task_with_status done task) /\
          taskEvents w' = taskEvents w ++
            [eventAt E (clockReads w) t (o_userId r) ev_sent NoPayload;
             eventAt E (S (clockReads w)) t (o_userId r) ev_done NoPayload]
    | None => tasks w' = tasks w /\ taskEvents w' = taskEvents w
    end.
Proof.
  intros _ Row Link C1 C2.
  assert (D : dispatch E (returning r) w = (Ok tt, w)) by (now apply dispatch_silent).
  exact (@deliver_sent (returning r) w w r D Row Link).
Qed.

(** C4: after the n-th failure of a row, 1 <= n < MAX_ATTEMPTS, the sender
    re-queues it with [next_retry_at] at the failure instant plus
    min(30000 * 2^n, 600000) ms; the delays after failures 1, 2, 3, 4 are
    60000, 120000, 240000 and 480000 ms, and no delay exceeds 600000 ms. *)
Theorem retry_delay_is_capped_exponential w r e :
  o_status r = ob_sending ->
  outboxRow w (outboxId r) = Some r ->
  sendThrows E w (returning r) e ->
  1 <= attempts r + 1 < MAX_ATTEMPTS E ->
  let n := attempts r + 1 in
  let delay := Z.min (30000 * 2 ^ n) 600000 in
  (exists w',
     deliver E (returning r) w = (Ok tt, w') /\
     outboxRow w' (outboxId r)
       = Some (outbox_with ob_queued n (Some (clock E (clockReads w) + delay)) r)) /\
  delay <= 600000 /\
  delayMs 1 = 60000 /\ delayMs 2 = 120000 /\ delayMs 3 = 240000 /\ delayMs 4 = 480000.
Proof.
  intros _ Row Send (Lo & Hi). cbv zeta.
  destruct (@dispatch_throws (returning r) w e Send) as (w1 & D & Same & Clock).
  destruct (@sameStore_rows w w1 (returning r) Same) as (R1 & _ & _).
  assert (Row1 : outboxRow w1 (outbox_id (returning r)) = Some r) by (now rewrite R1).
  destruct (@deliver_retried (returning r) w w1 r e D Row1 Hi) as (w' & Run & R' & _).
  split; [|split; [apply Z.le_min_r|repeat split]].
  exists w'. split; [exact Run|].
  cbn [returning outbox_id msg_attempts] in R'. rewrite R', Clock.
  unfold delayMs. destruct (0 <=? attempts r + 1) eqn:G; [reflexivity|].
  apply Z.leb_gt in G. lia.
Qed.

(** C3: when the send of a claimed row throws and attempts + 1 reaches
    MAX_ATTEMPTS, the row becomes [failed] with attempts + 1, and a linked
    task becomes [failed] with a [failed] event that records the reason.  A
    row that is [failed] stays as it is through any number of polls, and
    the claim statement of none of them returns it. *)
Theorem exhausted_row_fails_for_good :
  (forall w r e,
      o_status r = ob_sending ->
      outboxRow w (outboxId r) = Some r ->
      linked w (returning r) ->
      sendThrows E w (returning r) e ->
      attempts r + 1 >= MAX_ATTEMPTS E ->
      exists w',
        deliver E (returning r) w = (Ok tt, w') /\
        outboxRow w' (outboxId r)
          = Some (outbox_with ob_failed (attempts r + 1) None r) /\
        match o_taskId r with
        | Some t =>
            exists task, taskRow w t = Some task /\
              taskRow w' t = Some (task_with_status failed task) /\
              taskEvents w' = taskEvents w ++
                [eventAt E (clockReads w) t (o_userId r) ev_failed
                   (Reason (errMessage e))]
        | None => tasks w' = tasks w /\ taskEvents w' = taskEvents w
        end) /\
  (forall w r n,
      NoDup (map outboxId (outbox w)) ->
      In r (outbox w) ->
      o_status r = ob_failed ->
      let later := snd (repeat_ n (outboxJob E) w) in
      In r (outbox later) /\
      forall now dbNow msg,
        In msg (snd (claimQueued now dbNow (outbox later))) ->
        outbox_id msg <> outboxId r).
Proof.
  split.
  - intros w r e _ Row Link Send Max.
    destruct (@dispatch_throws (returning r) w e Send) as (w1 & D & Same & Clock).
    destruct (@sameStore_rows w w1 (returning r) Same) as (R1 & L1 & T1).
    assert (Row1 : outboxRow w1 (outbox_id (returning r)) = Some r) by (now rewrite R1).
    destruct (@deliver_exhausted (returning r) w w1 r e D Row1 (L1 Link) Max)
      as (w' & Run & R' & Rest).
    destruct Same as (_ & _ & St & _ & Se & _).
    exists w'. split; [exact Run|]. split; [exact R'|].
    cbn [returning task_id user_id] in Rest.
    destruct (o_taskId r) as [t|].
    + destruct Rest as (task & A & B & C). exists task.
      rewrite T1 in A. rewrite Se, Clock in C. auto.
    + destruct Rest as (A & B). split; congruence.
  - intros w r n N Hr F. cbv zeta.
    destruct (@polls_keep r n w N Hr F) as (Keys & Still).
    split; [now apply Still|].
    intros now dbNow msg Hm Eq.
    rewrite <- Keys in N.
    destruct (claimQueued_spares now dbNow _ r N (Still Hr) F) as (_ & Other).
    now apply (Other msg Hm).
Qed.

(** *** The executor *)

(** C6: when the task of an execute job does not exist, or exists with a
    status other than [due], [processExecute] returns normally and changes
    nothing but the log: every table, both queues, the send calls, the
    clock and the identifier counter are as before. *)
Theorem execute_is_noop_unless_due job w :
  (forall t, taskRow w (ej_taskId job) = Some t -> t_status t <> due) ->
  exists entries,
    processExecute E job w = (Ok tt, with_logs (fun l => l ++ entries) w).
Proof.
  intros H. unfold taskRow in H.
  unfold processExecute, bind, log, modify, task_findUnique_include_user, gets.
  cbn [fst snd tasks users with_logs].
  destruct (find _ (tasks w)) as [t|]; cbn [option_map].
  - specialize (H t eq_refl).
    destruct (t_status t); try congruence; cbn [TaskStatus_eqb negb];
      eexists; unfold with_logs; cbn; rewrite <- app_assoc; reflexivity.
  - eexists. unfold with_logs; cbn. rewrite <- app_assoc. reflexivity.
Qed.

(** *** Ordering *)

Section Ordering.

Context {A : Type}.
Variable le : A -> A -> bool.
Hypothesis le_total : forall a b, le a b = false -> le b a = true.
Hypothesis le_trans : forall a b c, le a b = true -> le b c = true -> le a c = true.

Let R (a b : A) : Prop := le a b = true.






End Ordering.



(** *** The scheduler's claim *)






Lemma Forall2_map_r {A B} (P : A -> B -> Prop) (f : A -> B) l :
  (forall x, In x l -> P x (f x)) -> Forall2 P l (map f l).
Proof.
  induction l as [|x l IH]; intros H; cbn; constructor.
  - apply H. now left.
  - apply IH. intros y Hy. apply H. now right.
Qed.

Lemma filter_none {A} (p : A -> bool) l :
  (forall x, In x l -> p x = false) -> filter p l = [].
Proof.
  induction l as [|x l IH]; intros H; cbn; [reflexivity|].
  rewrite (H x (or_introl eq_refl)). apply IH. intros y Hy. apply H. now right.
Qed.



Lemma log_tasks lvl msg : Frame SameTasks (log lvl msg).
Proof. intros w. reflexivity. Qed.

Lemma recordTaskEvent_tasks t u ty p : Frame SameTasks (recordTaskEvent E t u ty p).
Proof. intros w. reflexivity. Qed.


Lemma tick_run w :
  tick E w =
    let claim := claimDueTasks (clock E (clockReads w)) (clock E (S (clockReads w)))
                   (tasks w) in
    let w1 := with_tasks (fun _ => fst claim)
                (with_clockReads S
                   (with_logs (fun l => l ++ [(lvl_debug, "Scheduler tick")])
                      (with_clockReads S w))) in
    match snd claim with
    | [] => (Ok tt, w1)
    | _ =>
        bind (log lvl_info "Tasks marked as due")
          (fun _ =>
             forEach (snd claim)
               (fun row =>
                  bind (recordTaskEvent E (fst row) (snd row) ev_due NoPayload)
                    (fun _ =>
                       bind (executeQueue_add "execute" {| ej_taskId := fst row |}
                               ("exec:" ++ fst row)%string)
                         (fun _ => log lvl_info "Execute job enqueued")))) w1
    end.
Proof.
  cbv zeta. unfold tick.
  unfold bind at 1 2 3 4 5 6. unfold dateNow, gets, log at 1, modify at 1 2, ret.
  cbv beta iota. cbn [fst snd clockReads with_clockReads with_logs tasks].
  destruct (claimDueTasks _ _ (tasks w)) as [rows' claimed]. cbn [fst snd].
  destruct claimed; reflexivity.
Qed.



(** *** The ingest worker *)

Lemma gets_run {A} (f : World -> A) w : gets f w = (Ok (f w), w).
Proof. reflexivity. Qed.

Lemma extractFollowUp_world text tz iso w :
  exists entries,
    snd (extractFollowUp E text tz iso w) = with_logs (fun l => l ++ entries) w.
Proof.
  unfold extractFollowUp, callClaude, bind, log, modify, ret, throw.
  cbn [fst snd].
  destruct (claude E _ _) as [e|text']; cbn [fst snd].
  - eexists. reflexivity.
  - destruct (parseExtraction E text'); cbn [fst snd]; eexists;
      unfold with_logs; cbn; rewrite <- ?app_assoc; reflexivity.
Qed.

Lemma extractFollowUp_says text tz iso x w :
  extractorSays E text tz iso x ->
  exists entries,
    extractFollowUp E text tz iso w = (Ok x, with_logs (fun l => l ++ entries) w).
Proof.
  intros Says. destruct (extractFollowUp_world text tz iso w) as (entries & W).
  exists entries. specialize (Says w).
  destruct (extractFollowUp E text tz iso w) as [r w']. cbn in *. congruence.
Qed.

Lemma task_create_run user inbound due_ action hint ctx st w :
  due_ <> Some None ->
  sourceTaken w inbound = false ->
  task_create E user inbound due_ action hint ctx st w
  = (Ok (createdTask E w user inbound due_ action hint ctx st),
     with_tasks (fun l => l ++ [createdTask E w user inbound due_ action hint ctx st])
       (with_clockReads S (with_idsIssued S w))).
Proof.
  intros D C. unfold sourceTaken in C. unfold task_create.
  destruct due_ as [[d|]|]; try congruence;
    unfold bind, gets; cbn [fst snd]; rewrite C; reflexivity.
Qed.

Lemma task_create_clash user inbound due_ action hint ctx st w :
  due_ <> Some None ->
  sourceTaken w inbound = true ->
  task_create E user inbound due_ action hint ctx st w = (Threw P2002, w).
Proof.
  intros D C. unfold sourceTaken in C. unfold task_create.
  destruct due_ as [[d|]|]; try congruence;
    unfold bind, gets; cbn [fst snd]; rewrite C; reflexivity.
Qed.

Lemma outboxMessage_create_run task user channel_ p st w :
  exists row,
    outboxMessage_create E task user channel_ p st w
    = (Ok row, with_outbox (fun l => l ++ [row])
                 (with_clockReads S (with_idsIssued S w))) /\
    o_taskId row = task /\ o_status row = st /\ o_userId row = user.
Proof.
  exists (newOutboxMessage (uuid E (idsIssued w)) (clock E (clockReads w))
            task user channel_ p st).
  split; [reflexivity|]. cbn. auto.
Qed.

Lemma inboundMessage_update_status_hit id st w r :
  inboundRow w id = Some r ->
  exists rows,
    inboundMessage_update_status id st w
    = (Ok tt, with_inboundMessages (fun _ => rows) w) /\
    find (fun i => String.eqb (inboundId i) id) rows = Some (inbound_with_status st r) /\
    forall i, In i rows -> In i (inboundMessages w) \/ inboundId i = id.
Proof.
  intros F. unfold inboundRow in F.
  destruct (updateFirst_hit _ (inbound_with_status st) _ F) as (l' & U & F').
  - cbn. apply find_some in F. apply F.
  - exists l'. split; [|split; [exact F'|]].
    + unfold inboundMessage_update_status, bind, gets. cbn. now rewrite U.
    + intros i Hi. destruct (updateFirst_rows _ _ _ U i Hi) as [Old|(y & _ & Py & ->)];
        [now left|right]. cbn. now apply String.eqb_eq.
Qed.

(** Up to the extractor's answer, an ingest job for a present row. *)
Ltac ingest_prefix In_ Us Ex NC :=
  eapply run_bind; [apply log_run|];
  eapply run_bind; [apply gets_run|]; cbn [inboundMessages with_logs]; rewrite In_;
  eapply run_bind; [apply gets_run|]; cbn [users with_logs]; rewrite Us;
  eapply run_bind; [reflexivity|]; cbn [clockReads with_logs];
  eapply run_bind; [exact Ex|]; rewrite NC.

Lemma processIngest_creates job w inbound user x :
  inboundRow w (ij_inboundId job) = Some inbound ->
  userRow w (ij_userId job) = Some user ->
  extractorSays E (safeTextOf inbound) (timezoneOf user)
    (toISOString E (clock E (clockReads w))) x ->
  requestedDue E x <> Some None ->
  friendlyDateOf E user (dueOf E x) <> None ->
  sourceTaken w (ij_inboundId job) = false ->
  exists t o w',
    processIngest E job w = (Ok tt, w') /\
    tasks w' = tasks w ++ [t] /\
    outbox w' = outbox w ++ [o] /\
    taskId t = uuid E (idsIssued w) /\
    t_userId t = ij_userId job /\
    sourceInboundId t = ij_inboundId job /\
    t_status t = (if needs_clarification_ x then needs_clarification else pending) /\
    dueAt t = match requestedDue E x with Some d => d | None => None end /\
    o_taskId o = Some (taskId t) /\
    o_status o = ob_queued /\
    inboundRow w' (ij_inboundId job) = Some (inbound_with_status processed inbound) /\
    users w' = users w /\
    forall i, In i (inboundMessages w') ->
              In i (inboundMessages w) \/ inboundId i = ij_inboundId job.
Proof.
  intros In_ Us Says Due Zone Clash.
  unfold processIngest. cbv zeta.
  pose proof In_ as In0.
  unfold inboundRow in In_. unfold userRow in Us.
  unfold inboundMessage_findUnique_inboundId, user_findUnique_userId.
  set (w1 := with_clockReads S
               (with_logs (fun l => l ++ [(lvl_info, "Processing ingest job")]) w)).
  destruct (@extractFollowUp_says _ _ _ x w1 Says) as (entries & Ex).
  set (w2 := with_logs (fun l => l ++ entries) w1) in *.
  unfold friendlyDateOf, dueOf, timezoneOf, requestedDue in *.
  destruct (needs_clarification_ x) eqn:NC.
  - edestruct outboxMessage_create_run as (orow & Oc & O1 & O2 & O3).
    edestruct (inboundMessage_update_status_hit (ij_inboundId job) processed)
      as (rows & Up & Fd & Rows);
      [|do 3 eexists; split;
        [ingest_prefix In_ Us Ex NC;
         eapply run_bind; [|exact Up];
         eapply run_bind; [apply task_create_run; [discriminate|exact Clash]|];
         eapply run_bind; [apply recordTaskEvent_run|];
         eapply run_bind; [apply recordTaskEvent_run|];
         eapply run_bind; [exact Oc|]; apply log_run|]].
    + exact In0.
    + cbn. unfold inboundRow. cbn. repeat split; auto.
  - destruct (if Js.truthyOpt (due_at_iso x)
              then option_map (parseDate E) (due_at_iso x) else None)
      as [[d|]|] eqn:DD; [|congruence|].
    + destruct (toLocaleString E d _) as [formatted|] eqn:TL; [|congruence].
      edestruct outboxMessage_create_run as (orow & Oc & O1 & O2 & O3).
      edestruct (inboundMessage_update_status_hit (ij_inboundId job) processed)
        as (rows & Up & Fd & Rows);
        [|do 3 eexists; split;
          [ingest_prefix In_ Us Ex NC; rewrite DD;
           eapply run_bind; [|exact Up];
           eapply run_bind; [apply task_create_run; [discriminate|exact Clash]|];
           eapply run_bind; [apply recordTaskEvent_run|];
           eapply run_bind; [apply recordTaskEvent_run|];
           eapply run_bind; [rewrite TL; reflexivity|];
           eapply run_bind; [exact Oc|]; apply log_run|]].
      * exact In0.
      * cbn. unfold inboundRow. cbn. repeat split; auto.
    + edestruct outboxMessage_create_run as (orow & Oc & O1 & O2 & O3).
      edestruct (inboundMessage_update_status_hit (ij_inboundId job) processed)
        as (rows & Up & Fd & Rows);
        [|do 3 eexists; split;
          [ingest_prefix In_ Us Ex NC; rewrite DD;
           eapply run_bind; [|exact Up];
           eapply run_bind; [apply task_create_run; [discriminate|exact Clash]|];
           eapply run_bind; [apply recordTaskEvent_run|];
           eapply run_bind; [apply recordTaskEvent_run|];
           eapply run_bind; [reflexivity|];
           eapply run_bind; [exact Oc|]; apply log_run|]].
      * exact In0.
      * cbn. unfold inboundRow. cbn. repeat split; auto.
Qed.

Lemma processIngest_clash job w inbound user x :
  inboundRow w (ij_inboundId job) = Some inbound ->
  userRow w (ij_userId job) = Some user ->
  extractorSays E (safeTextOf inbound) (timezoneOf user)
    (toISOString E (clock E (clockReads w))) x ->
  requestedDue E x <> Some None ->
  sourceTaken w (ij_inboundId job) = true ->
  exists w', processIngest E job w = (Threw P2002, w') /\ sameStore w w'.
Proof.
  intros In_ Us Says Due Clash.
  unfold processIngest. cbv zeta.
  unfold inboundRow in In_. unfold userRow in Us.
  unfold inboundMessage_findUnique_inboundId, user_findUnique_userId.
  set (w1 := with_clockReads S
               (with_logs (fun l => l ++ [(lvl_info, "Processing ingest job")]) w)).
  destruct (@extractFollowUp_says _ _ _ x w1 Says) as (entries & Ex).
  unfold requestedDue in *.
  destruct (needs_clarification_ x) eqn:NC.
  - eexists; split.
    + ingest_prefix In_ Us Ex NC.
      apply run_bind_threw. apply run_bind_threw.
      apply task_create_clash; [discriminate|exact Clash].
    + repeat split.
  - eexists; split.
    + ingest_prefix In_ Us Ex NC.
      apply run_bind_threw. apply run_bind_threw.
      apply task_create_clash; [exact Due|exact Clash].
    + repeat split.
Qed.

Lemma processIngest_missing job w :
  inboundRow w (ij_inboundId job) = None \/
  userRow w (ij_userId job) = None ->
  exists entries,
    processIngest E job w = (Ok tt, with_logs (fun l => l ++ entries) w).
Proof.
  unfold inboundRow, userRow, processIngest. cbv zeta.
  unfold inboundMessage_findUnique_inboundId, user_findUnique_userId.
  intros H.
  destruct (find _ (inboundMessages w)) as [inbound|] eqn:In_.
  - destruct H as [H|H]; [discriminate|]. eexists.
    eapply run_bind; [apply log_run|].
    eapply run_bind; [apply gets_run|]. cbn [inboundMessages with_logs]. rewrite In_.
    eapply run_bind; [apply gets_run|]. cbn [users with_logs]. rewrite H.
    rewrite log_run. unfold with_logs; cbn. rewrite <- app_assoc. reflexivity.
  - eexists.
    eapply run_bind; [apply log_run|].
    eapply run_bind; [apply gets_run|]. cbn [inboundMessages with_logs]. rewrite In_.
    rewrite log_run. unfold with_logs; cbn. rewrite <- app_assoc. reflexivity.
Qed.

(** The date of the task cannot be formatted: the job throws after it has
    inserted the task and recorded its two events, before it queues the
    confirmation and marks the inbound message. *)
Lemma processIngest_strands job w inbound user x d :
  inboundRow w (ij_inboundId job) = Some inbound ->
  userRow w (ij_userId job) = Some user ->
  extractorSays E (safeTextOf inbound) (timezoneOf user)
    (toISOString E (clock E (clockReads w))) x ->
  requestedDue E x = Some (Some d) ->
  toLocaleString E d (timezoneOf user) = None ->
  sourceTaken w (ij_inboundId job) = false ->
  exists t w',
    processIngest E job w = (Threw (InvalidTimeZone (timezoneOf user)), w') /\
    tasks w' = tasks w ++ [t] /\
    taskId t = uuid E (idsIssued w) /\
    t_userId t = ij_userId job /\
    sourceInboundId t = ij_inboundId job /\
    t_status t = pending /\ dueAt t = Some d /\
    outbox w' = outbox w /\ inboundMessages w' = inboundMessages w /\
    users w' = users w /\
    ingestQueue w' = ingestQueue w /\ executeQueue w' = executeQueue w /\
    map eventType (taskEvents w') = map eventType (taskEvents w) ++ [ev_created; ev_scheduled].
Proof.
  intros In_ Us Says Due Zone Clash.
  unfold processIngest. cbv zeta.
  unfold inboundRow in In_. unfold userRow in Us.
  unfold inboundMessage_findUnique_inboundId, user_findUnique_userId.
  set (w1 := with_clockReads S
               (with_logs (fun l => l ++ [(lvl_info, "Processing ingest job")]) w)).
  destruct (@extractFollowUp_says _ _ _ x w1 Says) as (entries & Ex).
  unfold timezoneOf, requestedDue in *.
  destruct (needs_clarification_ x) eqn:NC; [discriminate|].
  do 2 eexists. split.
  - ingest_prefix In_ Us Ex NC. rewrite Due.
    apply run_bind_threw.
    eapply run_bind; [apply task_create_run; [discriminate|exact Clash]|].
    eapply run_bind; [apply recordTaskEvent_run|].
    eapply run_bind; [apply recordTaskEvent_run|].
    apply run_bind_threw. rewrite Zone. reflexivity.
  - cbn. rewrite !map_app. cbn. rewrite <- !app_assoc. repeat split.
Qed.

(** What the extractor answers does not depend on the world. *)
Lemma extractFollowUp_answer text tz iso w w0 :
  fst (extractFollowUp E text tz iso w) = fst (extractFollowUp E text tz iso w0).
Proof.
  unfold extractFollowUp, callClaude, bind, log, modify, ret, throw. cbn [fst snd].
  destruct (claude E _ _) as [e|text']; cbn [fst snd]; [reflexivity|].
  destruct (parseExtraction E text'); reflexivity.
Qed.

Lemma processIngest_failed job w inbound user e :
  inboundRow w (ij_inboundId job) = Some inbound ->
  userRow w (ij_userId job) = Some user ->
  (forall w0, fst (extractFollowUp E (safeTextOf inbound) (timezoneOf user)
                     (toISOString E (clock E (clockReads w))) w0) = Threw e) ->
  exists w', processIngest E job w = (Threw e, w') /\ sameStore w w'.
Proof.
  intros In_ Us Fails.
  unfold processIngest. cbv zeta.
  unfold inboundRow in In_. unfold userRow in Us.
  unfold inboundMessage_findUnique_inboundId, user_findUnique_userId.
  set (w1 := with_clockReads S
               (with_logs (fun l => l ++ [(lvl_info, "Processing ingest job")]) w)).
  destruct (extractFollowUp_world (safeTextOf inbound) (timezoneOf user)
              (toISOString E (clock E (clockReads w))) w1) as (entries & W).
  specialize (Fails w1).
  destruct (extractFollowUp E _ _ _ w1) as [r w2] eqn:Ex. cbn [fst snd] in *. subst.
  eexists. split.
  - eapply run_bind; [apply log_run|].
    eapply run_bind; [apply gets_run|]. cbn [inboundMessages with_logs]. rewrite In_.
    eapply run_bind; [apply gets_run|]. cbn [users with_logs]. rewrite Us.
    eapply run_bind; [reflexivity|]. cbn [clockReads with_logs].
    apply run_bind_threw. exact Ex.
  - repeat split.
Qed.

Lemma processIngest_invalid job w inbound user x :
  inboundRow w (ij_inboundId job) = Some inbound ->
  userRow w (ij_userId job) = Some user ->
  extractorSays E (safeTextOf inbound) (timezoneOf user)
    (toISOString E (clock E (clockReads w))) x ->
  requestedDue E x = Some None ->
  exists w', processIngest E job w = (Threw PrismaValidation, w') /\ sameStore w w'.
Proof.
  intros In_ Us Says Due.
  unfold processIngest. cbv zeta.
  unfold inboundRow in In_. unfold userRow in Us.
  unfold inboundMessage_findUnique_inboundId, user_findUnique_userId.
  set (w1 := with_clockReads S
               (with_logs (fun l => l ++ [(lvl_info, "Processing ingest job")]) w)).
  destruct (@extractFollowUp_says _ _ _ x w1 Says) as (entries & Ex).
  unfold requestedDue in *.
  destruct (needs_clarification_ x) eqn:NC; [discriminate|].
  eexists. split.
  - ingest_prefix In_ Us Ex NC. rewrite Due.
    apply run_bind_threw. apply run_bind_threw. reflexivity.
  - repeat split.
Qed.

(** Every run of the ingest worker: it writes nothing, or it inserts one
    task for the inbound message of the job, which had none, and then
    either queues one message for it and marks the inbound message, or
    stops there. *)
Lemma processIngest_outcome job w :
  let w' := snd (processIngest E job w) in
  sameStore w w' \/
  (sourceTaken w (ij_inboundId job) = false /\
   exists t,
     tasks w' = tasks w ++ [t] /\ sourceInboundId t = ij_inboundId job /\
     users w' = users w /\
     ((exists o, outbox w' = outbox w ++ [o] /\ o_status o = ob_queued /\
                 o_taskId o = Some (taskId t) /\
                 forall i, In i (inboundMessages w') ->
                           In i (inboundMessages w) \/ inboundId i = ij_inboundId job) \/
      (outbox w' = outbox w /\ inboundMessages w' = inboundMessages w))).
Proof.
  cbv zeta.
  destruct (inboundRow w (ij_inboundId job)) as [inbound|] eqn:In_;
    [destruct (userRow w (ij_userId job)) as [user|] eqn:Us|].
  2, 3: left; destruct (@processIngest_missing job w) as (entries & Run); auto;
    rewrite Run; repeat split.
  set (text := safeTextOf inbound). set (tz := timezoneOf user).
  set (iso := toISOString E (clock E (clockReads w))).
  destruct (fst (extractFollowUp E text tz iso w)) as [x|e] eqn:Ex.
  - assert (Says : extractorSays E text tz iso x)
      by (intros w0; etransitivity; [apply extractFollowUp_answer|exact Ex]).
    destruct (requestedDue E x) as [[d|]|] eqn:Due.
    + destruct (sourceTaken w (ij_inboundId job)) eqn:C.
      * left. destruct (@processIngest_clash job w inbound user x) as (w' & Run & Same);
          auto; [congruence|]. now rewrite Run.
      * right. split; [reflexivity|].
        destruct (toLocaleString E d tz) as [formatted|] eqn:TL.
        -- destruct (@processIngest_creates job w inbound user x)
             as (t & o & w' & Run & T & O & _ & _ & Src & _ & _ & Ot & Os & _ & U & I);
             auto; [congruence| |].
           ++ unfold friendlyDateOf, dueOf. rewrite Due. fold tz. congruence.
           ++ rewrite Run. exists t. repeat split; auto. left. exists o. auto.
        -- destruct (@processIngest_strands job w inbound user x d)
             as (t & w' & Run & T & _ & _ & Src & _ & _ & O & I & U & _); auto.
           rewrite Run. exists t. repeat split; auto.
    + left. destruct (@processIngest_invalid job w inbound user x) as (w' & Run & Same);
        auto. now rewrite Run.
    + destruct (sourceTaken w (ij_inboundId job)) eqn:C.
      * left. destruct (@processIngest_clash job w inbound user x) as (w' & Run & Same);
          auto; [congruence|]. now rewrite Run.
      * right. split; [reflexivity|].
        destruct (@processIngest_creates job w inbound user x)
          as (t & o & w' & Run & T & O & _ & _ & Src & _ & _ & Ot & Os & _ & U & I);
          auto; [congruence| |].
        -- unfold friendlyDateOf, dueOf. rewrite Due. discriminate.
        -- rewrite Run. exists t. repeat split; auto. left. exists o. auto.
  - left. destruct (@processIngest_failed job w inbound user e) as (w' & Run & Same);
      auto; [|now rewrite Run].
    intros w0. etransitivity; [apply extractFollowUp_answer|exact Ex].
Qed.

Lemma sourceTaken_app w w' ts id :
  tasks w' = tasks w ++ ts -> sourceTaken w id = true -> sourceTaken w' id = true.
Proof.
  unfold sourceTaken. intros ->. rewrite existsb_app. now intros ->.
Qed.

(** C1: [processIngest] performs no write when the inbound row (or the
    user) is missing, and none when a task for the inbound message exists,
    which the store refuses to duplicate; an inbound message that is
    [processed] has its task, an invariant the job keeps, so that the job
    writes nothing for a [processed] row.  The job keeps the
    [source_inbound_id] of the tasks pairwise distinct, and a job that is
    run again after a run that inserted a task writes nothing. *)
Theorem ingest_is_anchored_on_source_inbound job w :
  let w' := snd (processIngest E job w) in
  (inboundRow w (ij_inboundId job) = None \/ userRow w (ij_userId job) = None ->
   exists entries,
     processIngest E job w = (Ok tt, with_logs (fun l => l ++ entries) w)) /\
  (sourceTaken w (ij_inboundId job) = true -> sameStore w w') /\
  (anchored w ->
   (forall inbound,
       inboundRow w (ij_inboundId job) = Some inbound ->
       in_status inbound = processed -> sameStore w w') /\
   anchored w') /\
  (NoDup (map sourceInboundId (tasks w)) -> NoDup (map sourceInboundId (tasks w'))) /\
  (tasks w' <> tasks w -> sameStore w' (snd (processIngest E job w'))).
Proof.
  cbv zeta.
  assert (Taken : forall w0, sourceTaken w0 (ij_inboundId job) = true ->
                    sameStore w0 (snd (processIngest E job w0))).
  { intros w0 C. destruct (processIngest_outcome job w0) as [Same|(Free & _)];
      [exact Same|congruence]. }
  split; [now apply processIngest_missing|]. split; [apply Taken|].
  split; [|split].
  - intros Anch. split.
    + intros inbound In_ St. apply Taken. unfold inboundRow in In_.
      apply find_some in In_. destruct In_ as (Hin & Id).
      apply String.eqb_eq in Id. rewrite <- Id. now apply Anch.
    + destruct (processIngest_outcome job w)
        as [(_ & I & T & _)|(_ & t & T & Src & _ & [(o & _ & _ & _ & I)|(_ & I)])];
        intros i Hi St.
      * unfold sourceTaken. rewrite T. rewrite I in Hi. now apply Anch.
      * destruct (I i Hi) as [Old|Id].
        -- apply (sourceTaken_app w _ [t] _ T). now apply Anch.
        -- unfold sourceTaken. rewrite T, existsb_app, Id. cbn.
           rewrite Src, String.eqb_refl. apply orb_true_r.
      * rewrite I in Hi. apply (sourceTaken_app w _ [t] _ T). now apply Anch.
  - intros N. destruct (processIngest_outcome job w)
      as [(_ & _ & T & _)|(Free & t & T & Src & _)]; rewrite T; [exact N|].
    rewrite map_app. cbn [map]. apply NoDup_app; [exact N|now repeat constructor|].
    intros s Hs [<-|[]]. unfold sourceTaken in Free.
    apply (f_equal negb) in Free. cbn in Free.
    apply in_map_iff in Hs. destruct Hs as (t' & Eq & Ht').
    assert (X : existsb (fun t0 => String.eqb (sourceInboundId t0) (ij_inboundId job))
                  (tasks w) = true).
    { apply existsb_exists. exists t'. split; [exact Ht'|].
      apply String.eqb_eq. congruence. }
    rewrite X in Free. discriminate.
  - intros Grew. apply Taken.
    destruct (processIngest_outcome job w)
      as [(_ & _ & T & _)|(_ & t & T & Src & _)]; [congruence|].
    unfold sourceTaken. rewrite T, existsb_app. cbn.
    rewrite Src, String.eqb_refl. apply orb_true_r.
Qed.

(** C7 (as amended): the ingest worker creates a task with status
    [needs_clarification] and a NULL [due_at] when the extraction asks for
    clarification; with [needs_clarification = false] and a non-empty
    [due_at_iso] that parses, it creates the task [pending] with the parsed
    instant as [due_at], and then returns or, when the instant cannot be
    formatted in the time zone of the user, throws; with
    [needs_clarification = false] and a null or empty [due_at_iso], it
    creates the task [pending] with a NULL [due_at]. *)
Theorem ingest_due_at_follows_extraction job w inbound user x :
  inboundRow w (ij_inboundId job) = Some inbound ->
  userRow w (ij_userId job) = Some user ->
  extractorSays E (safeTextOf inbound) (timezoneOf user)
    (toISOString E (clock E (clockReads w))) x ->
  sourceTaken w (ij_inboundId job) = false ->
  (needs_clarification_ x = true ->
   exists t w',
     processIngest E job w = (Ok tt, w') /\ tasks w' = tasks w ++ [t] /\
     t_status t = needs_clarification /\ dueAt t = None) /\
  (forall s d,
      needs_clarification_ x = false ->
      due_at_iso x = Some s -> s <> "" -> parseDate E s = Some d ->
      exists t w',
        processIngest E job w
        = (match toLocaleString E d (timezoneOf user) with
           | Some _ => Ok tt
           | None => Threw (InvalidTimeZone (timezoneOf user))
           end, w') /\
        tasks w' = tasks w ++ [t] /\
        t_status t = pending /\ dueAt t = Some d) /\
  (needs_clarification_ x = false ->
   due_at_iso x = None \/ due_at_iso x = Some "" ->
   exists t w',
     processIngest E job w = (Ok tt, w') /\ tasks w' = tasks w ++ [t] /\
     t_status t = pending /\ dueAt t = None).
Proof.
  intros In_ Us Says Free.
  pose proof (@processIngest_creates job w inbound user x In_ Us Says) as Run.
  pose proof (@processIngest_strands job w inbound user x) as Stop.
  unfold friendlyDateOf, dueOf, requestedDue in Run. unfold requestedDue in Stop.
  split; [|split].
  - intros NC. rewrite NC in Run.
    destruct (Run ltac:(discriminate) ltac:(discriminate) Free)
      as (t & o & w' & R & T & _ & _ & _ & _ & St & Du & _).
    exists t, w'. repeat split; assumption.
  - intros s d NC Iso Ne P. rewrite NC, Iso in Run. rewrite NC, Iso in Stop.
    destruct s as [|c s]; [congruence|].
    cbn [Js.truthyOpt Js.truthy option_map] in Run, Stop.
    rewrite P in Run. rewrite P in Stop.
    destruct (toLocaleString E d (timezoneOf user)) as [formatted|] eqn:TL.
    + destruct (Run ltac:(discriminate) ltac:(discriminate) Free)
        as (t & o & w' & R & T & _ & _ & _ & _ & St & Du & _).
      exists t, w'. repeat split; assumption.
    + destruct (Stop d In_ Us Says eq_refl TL Free)
        as (t & w' & R & T & _ & _ & _ & St & Du & _).
      exists t, w'. repeat split; assumption.
  - intros NC Iso. rewrite NC in Run.
    assert (F : (if Js.truthyOpt (due_at_iso x)
                 then option_map (parseDate E) (due_at_iso x) else None) = None)
      by (destruct Iso as [-> | ->]; reflexivity).
    rewrite F in Run.
    destruct (Run ltac:(discriminate) ltac:(discriminate) Free)
      as (t & o & w' & R & T & _ & _ & _ & _ & St & Du & _).
    exists t, w'. repeat split; assumption.
Qed.

(** *** The email route *)

Lemma validateEmailWebhook_ok request w :
  validRequest E request ->
  exists entries,
    validateEmailWebhook E request w = (Ok tt, with_logs (fun l => l ++ entries) w).
Proof.
  intros ([Empty|(Sig & Ne)] & _); unfold validateEmailWebhook.
  - rewrite Empty. cbn [Js.truthy negb]. eexists. apply log_run.
  - destruct (Js.truthy (EMAIL_WEBHOOK_SECRET E)); cbn [negb];
      [|eexists; apply log_run].
    rewrite Sig.
    destruct (hmacHex E (EMAIL_WEBHOOK_SECRET E) (requestBody request)) as [|c s] eqn:Hx;
      [congruence|].
    cbn [Js.truthy negb]. rewrite String.eqb_refl. cbn [negb].
    exists []. unfold ret, with_logs. rewrite app_nil_r. now destruct w.
Qed.

Lemma inboundMessage_create_run user channel_ providerId key text st w :
  find (fun i => String.eqb (idempotencyKey i) key) (inboundMessages w) = None ->
  let row := newInboundMessage (uuid E (idsIssued w)) (clock E (clockReads w))
               user channel_ providerId key text st in
  inboundMessage_create E user channel_ providerId key text st w
  = (Ok row, with_inboundMessages (fun l => l ++ [row])
               (with_clockReads S (with_idsIssued S w))).
Proof.
  intros F. cbv zeta. unfold inboundMessage_create, inboundMessage_findUnique_idempotencyKey.
  unfold bind at 1. rewrite gets_run. rewrite F. reflexivity.
Qed.

Lemma inboundMessage_create_conflict user channel_ providerId key text st w i :
  find (fun i => String.eqb (idempotencyKey i) key) (inboundMessages w) = Some i ->
  inboundMessage_create E user channel_ providerId key text st w = (Threw P2002, w).
Proof.
  intros F. unfold inboundMessage_create, inboundMessage_findUnique_idempotencyKey.
  unfold bind at 1. rewrite gets_run. rewrite F. reflexivity.
Qed.

(** The outcomes of the email route.  For a valid request, an unknown
    sender is answered 200 [ignored] and an existing idempotency key 200
    [duplicate], both without any change to the store; otherwise the
    handler inserts one InboundMessage with that key and status [received],
    enqueues one ingest job whose job id is the key, and answers 200
    [accepted] with the new inbound id.  When another request has inserted
    the key between the duplicate check and the insert, the UNIQUE
    constraint makes the insert throw, and the error handler answers
    500. *)
Theorem email_webhook_outcomes others request w :
  validRequest E request ->
  let p := requestBody request in
  match senderOf w (from p) with
  | None =>
      exists w',
        emailRoutes E others request w
          = (Ok {| status := 200; sent := Ignored "unknown_sender" |}, w') /\
        sameStore w w'
  | Some user =>
      let key := (userId user ++ ":" ++ messageId p)%string in
      match inboundByKey w key with
      | Some _ =>
          exists w',
            emailRoutes E others request w
              = (Ok {| status := 200; sent := Duplicate |}, w') /\
            sameStore w w'
      | None =>
          exists entries,
            let w2 := others (with_logs (fun l => l ++ entries) w) in
            match inboundByKey w2 key with
            | None =>
                exists row w',
                  emailRoutes E others request w
                    = (Ok {| status := 200; sent := Accepted (inboundId row) |}, w') /\
                  inboundMessages w' = inboundMessages w2 ++ [row] /\
                  inboundId row = uuid E (idsIssued w2) /\
                  in_userId row = userId user /\
                  idempotencyKey row = key /\
                  in_status row = received /\
                  ingestQueue w' = ingestQueue w2 ++ [ingestJob row] /\
                  tasks w' = tasks w2 /\ outbox w' = outbox w2
            | Some _ =>
                exists w',
                  emailRoutes E others request w
                    = (Ok {| status := 500;
                             sent := ErrorBody "INTERNAL_ERROR" "Internal server error" |},
                       w') /\
                  sameStore w2 w'
            end
      end
  end.
Proof.
  intros Valid. cbv zeta.
  destruct (validateEmailWebhook_ok w Valid) as (entries & Val).
  destruct Valid as (_ & Schema).
  set (w1 := with_logs (fun l => l ++ entries) w) in *.
  unfold emailRoutes, postWebhookEmail. rewrite Schema. cbn [negb]. cbv zeta.
  unfold user_findUnique_primaryEmail, inboundMessage_findUnique_idempotencyKey.
  unfold senderOf, inboundByKey.
  destruct (find _ (users w)) as [user|] eqn:Us.
  - destruct (find _ (inboundMessages w)) as [dup|] eqn:Dup.
    + eexists; split.
      * apply run_try. eapply run_bind; [exact Val|].
        eapply run_bind; [apply gets_run|]. cbn [users w1 with_logs]. rewrite Us.
        eapply run_bind; [apply gets_run|]. cbn [inboundMessages w1 with_logs]. rewrite Dup.
        eapply run_bind; [apply log_run|]. reflexivity.
      * repeat split.
    + exists entries. fold w1.
      destruct (find _ (inboundMessages (others w1))) as [other|] eqn:Race.
      * eexists; split.
        -- eapply run_catch.
           ++ eapply run_bind; [exact Val|].
              eapply run_bind; [apply gets_run|]. cbn [users w1 with_logs]. rewrite Us.
              eapply run_bind; [apply gets_run|].
              cbn [inboundMessages w1 with_logs]. rewrite Dup.
              eapply run_bind; [reflexivity|].
              apply run_bind_threw. eapply inboundMessage_create_conflict. exact Race.
           ++ cbn [errorHandler P2002]. eapply run_bind; [apply log_run|]. reflexivity.
        -- repeat split.
      * do 2 eexists; split.
        -- apply run_try. eapply run_bind; [exact Val|].
           eapply run_bind; [apply gets_run|]. cbn [users w1 with_logs]. rewrite Us.
           eapply run_bind; [apply gets_run|].
           cbn [inboundMessages w1 with_logs]. rewrite Dup.
           eapply run_bind; [reflexivity|].
           eapply run_bind; [apply inboundMessage_create_run; exact Race|].
           eapply run_bind; [reflexivity|].
           eapply run_bind; [apply log_run|]. reflexivity.
        -- cbn. repeat split.
  - eexists; split.
    + apply run_try. eapply run_bind; [exact Val|].
      eapply run_bind; [apply gets_run|]. cbn [users w1 with_logs]. rewrite Us.
      eapply run_bind; [apply log_run|]. reflexivity.
    + repeat split.
Qed.

End Facts.

(** ** The redaction *)

Lemma matchHere_sound r : forall prev s n,
  Pii.matchHere r prev s = Some n -> Matches r prev s n.
Proof.
  induction r as [|a k IH]; intros prev s n; cbn [Pii.matchHere].
  - intros H; inversion H; constructor.
  - destruct a as [|p|p|m p].
    + destruct (Pii.atBoundary prev s) eqn:B; [|discriminate].
      intros H. constructor; auto.
    + destruct s as [|c s]; [discriminate|].
      destruct (p c) eqn:P; [|discriminate].
      destruct (Pii.matchHere k (Some c) s) as [j|] eqn:K; [|discriminate].
      intros H; inversion H; subst. constructor; auto.
    + destruct s as [|c s].
      * intros H. apply M_optional_skip; auto.
      * destruct (p c) eqn:P.
        -- destruct (Pii.matchHere k (Some c) s) as [j|] eqn:K.
           ++ intros H; inversion H; subst. apply M_optional_take; auto.
           ++ intros H. apply M_optional_skip; auto.
        -- intros H. apply M_optional_skip; auto.
    + revert m prev n. induction s as [|c s IHs]; intros m prev n.
      * destruct m; [|discriminate]. intros H. apply M_atleast_stop; auto.
      * destruct (p c) eqn:P.
        -- match goal with
           | |- match ?X with _ => _ end = _ -> _ => destruct X as [j|] eqn:More
           end.
           ++ intros H; inversion H; subst. apply M_atleast_more; auto.
           ++ destruct m; [|discriminate]. intros H. apply M_atleast_stop; auto.
        -- destruct m; [|discriminate]. intros H. apply M_atleast_stop; auto.
Qed.

Lemma matchHere_complete r prev s n :
  Matches r prev s n -> exists j, Pii.matchHere r prev s = Some j.
Proof.
  induction 1 as [prev s|k prev s n B _ IH|p k prev c s n P _ IH|p k prev s n _ IH
                 |p k prev c s n P _ IH|p k prev s n _ IH|m p k prev c s n P _ IH].
  - now exists 0%nat.
  - cbn [Pii.matchHere]. now rewrite B.
  - cbn [Pii.matchHere]. rewrite P. destruct IH as (j & ->). now exists (S j).
  - cbn [Pii.matchHere]. destruct IH as (j & K).
    destruct s as [|c s]; [now exists j|].
    destruct (p c); [|now exists j].
    destruct (Pii.matchHere k (Some c) s) as [i|]; [now exists (S i)|now exists j].
  - cbn [Pii.matchHere]. rewrite P. destruct IH as (j & ->). now exists (S j).
  - cbn [Pii.matchHere]. destruct IH as (j & K).
    destruct s as [|c s]; [now exists j|].
    destruct (p c); [|now exists j].
    match goal with
    | |- exists _, match ?X with _ => _ end = _ => destruct X as [i|]
    end; [now exists (S i)|now exists j].
  - cbn [Pii.matchHere] in *. rewrite P. destruct IH as (j & ->). now exists (S j).
Qed.

Lemma Matches_length r prev s n : Matches r prev s n -> (n <= length s)%nat.
Proof. induction 1; cbn [length] in *; lia. Qed.

Lemma consuming_nonempty r prev s n :
  consuming r = true -> Matches r prev s n -> n <> 0%nat.
Proof.
  intros C M. induction M; cbn in C; try discriminate; try lia; auto.
Qed.

Lemma lastOf_cons prev c m : lastOf prev (c :: m) = lastOf (Some c) m.
Proof. reflexivity. Qed.

Lemma replaceFrom_skip r by_ : forall s j prev,
  Pii.replaceFrom r by_ j prev s
  = Pii.replaceFrom r by_ 0 (lastOf prev (firstn j s)) (skipn j s).
Proof.
  induction s as [|c s IH]; intros j prev.
  - now destruct j.
  - destruct j as [|j]; [reflexivity|].
    cbn [Pii.replaceFrom firstn skipn]. rewrite lastOf_cons. apply IH.
Qed.

(** The scan of the source is a redaction in the declarative sense. *)
Lemma replaceFrom_Redacted r by_ :
  consuming r = true ->
  forall s prev, Redacted r by_ prev s (Pii.replaceFrom r by_ 0 prev s).
Proof.
  intros C s.
  assert (G : forall n s, (length s <= n)%nat ->
              forall prev, Redacted r by_ prev s (Pii.replaceFrom r by_ 0 prev s));
    [|now apply (G (length s))].
  clear s. induction n as [|n IHn]; intros s Le prev;
    (destruct s as [|c s]; [constructor|]); cbn [length] in Le; [lia|].
  assert (IH : forall t, (length t < length (c :: s))%nat ->
               forall prev, Redacted r by_ prev t (Pii.replaceFrom r by_ 0 prev t))
    by (intros t Lt; apply IHn; cbn [length] in Lt; lia).
  cbn [Pii.replaceFrom].
  destruct (Pii.matchHere r prev (c :: s)) as [[|j]|] eqn:Mh.
  - apply matchHere_sound in Mh. now apply consuming_nonempty in Mh.
  - apply matchHere_sound in Mh. pose proof (Matches_length Mh) as Len.
    cbn [length] in Len. rewrite replaceFrom_skip.
    rewrite <- (firstn_skipn (S j) (c :: s)) at 1.
    assert (L : length (firstn (S j) (c :: s)) = S j)
      by (rewrite length_firstn; cbn [length]; lia).
    apply R_replace.
    + cbn [firstn]. discriminate.
    + rewrite firstn_skipn, L. exact Mh.
    + cbn [firstn skipn]. rewrite lastOf_cons. apply IH.
      cbn [length]. pose proof (length_skipn j s). lia.
  - apply R_copy.
    + intros i M. apply matchHere_complete in M. destruct M as (i' & M). congruence.
    + apply IH. cbn [length]. lia.
Qed.

Lemma Redacted_Clean r by_ prev s out :
  Redacted r by_ prev s out -> Clean r prev s -> out = s.
Proof.
  induction 1 as [prev|prev c s out No _ IH|prev m rest out Ne M _ _]; intros Cl.
  - reflexivity.
  - f_equal. apply IH. intros pre suf n Eq Ns.
    apply (Cl (c :: pre) suf n); [cbn; now rewrite Eq|exact Ns].
  - exfalso. apply (Cl [] (m ++ rest) (length m)); [reflexivity| |exact M].
    destruct m; [congruence|discriminate].
Qed.

Lemma replaceAll_Redacted r by_ text :
  consuming r = true -> RedactedText r by_ text (Pii.replaceAll r by_ text).
Proof.
  intros C. unfold RedactedText, Pii.replaceAll.
  rewrite list_ascii_of_string_of_list_ascii. now apply replaceFrom_Redacted.
Qed.


(** ** Instances and counterexamples *)


Lemma linked_demo st due_ channel_ ost n :
  linked (Demo.world [] [Demo.task1 st due_] [Demo.row1 channel_ ost n])
    (returning (Demo.row1 channel_ ost n)).
Proof.
  intros t H. inversion H; subst. split; discriminate.
Qed.

Lemma sent_row_completes_task_witness :
  let E := Demo.env Demo.scheduled true in
  let r := Demo.row1 "email" ob_sending 0 in
  let w := Demo.world [] [Demo.task1 sending (Some 5000)] [r] in
  o_status r = ob_sending /\
  outboxRow w (outboxId r) = Some r /\
  linked w (returning r) /\
  sendReturns E w (returning r) (EmailCall (emailParams (returning r))) /\
  exists w',
    deliver E (returning r) w = (Ok tt, w') /\
    sendCalls w' = [EmailCall (emailParams (returning r))] /\
    outboxRow w' "o-1" = Some (Demo.row1 "email" ob_sent 1) /\
    taskRow w' "t-1" = Some (Demo.task1 done (Some 5000)).
Proof.
  cbv zeta.
  assert (H1 : o_status (Demo.row1 "email" ob_sending 0) = ob_sending) by reflexivity.
  assert (H2 : outboxRow (Demo.world [] [Demo.task1 sending (Some 5000)]
                            [Demo.row1 "email" ob_sending 0])
                 (outboxId (Demo.row1 "email" ob_sending 0))
               = Some (Demo.row1 "email" ob_sending 0)) by reflexivity.
  pose proof (@linked_demo sending (Some 5000) "email" ob_sending 0) as H3.
  assert (H4 : sendReturns (Demo.env Demo.scheduled true)
                 (Demo.world [] [Demo.task1 sending (Some 5000)]
                    [Demo.row1 "email" ob_sending 0])
                 (returning (Demo.row1 "email" ob_sending 0))
                 (EmailCall (emailParams (returning (Demo.row1 "email" ob_sending 0)))))
    by (left; repeat split; now exists "ses-1").
  split; [exact H1|split; [exact H2|split; [exact H3|split; [exact H4|]]]].
  destruct (sent_row_completes_task H1 H2 H3 H4)
    as (w' & Run & Calls & Row & task & T0 & T1 & Ev).
  exists w'. repeat split; auto.
  vm_compute in T0. inversion T0; subst. exact T1.
Defined.

Lemma unknown_channel_is_marked_sent_witness :
  let E := Demo.env Demo.scheduled true in
  let r := Demo.row1 "sms" ob_sending 0 in
  let w := Demo.world [] [Demo.task1 sending (Some 5000)] [r] in
  o_channel r <> "email" /\ o_channel r <> "whatsapp" /\
  exists w',
    deliver E (returning r) w = (Ok tt, w') /\
    sendCalls w' = [] /\
    outboxRow w' "o-1" = Some (Demo.row1 "sms" ob_sent 1) /\
    taskRow w' "t-1" = Some (Demo.task1 done (Some 5000)).
Proof.
  cbv zeta. split; [discriminate|split; [discriminate|]].
  destruct (@unknown_channel_is_marked_sent (Demo.env Demo.scheduled true)
              (Demo.world [] [Demo.task1 sending (Some 5000)]
                 [Demo.row1 "sms" ob_sending 0])
              (Demo.row1 "sms" ob_sending 0) eq_refl eq_refl
              (@linked_demo sending (Some 5000) "sms" ob_sending 0))
    as (w' & Run & Calls & Row & task & T0 & T1 & Ev); try discriminate.
  exists w'. repeat split; auto.
  vm_compute in T0. inversion T0; subst. exact T1.
Defined.

Lemma demo_send_throws n :
  sendThrows (Demo.env Demo.scheduled false)
    (Demo.world [] [Demo.task1 sending (Some 5000)] [Demo.row1 "email" ob_sending n])
    (returning (Demo.row1 "email" ob_sending n)) (Thrown "SES unavailable").
Proof. left. split; reflexivity. Qed.

Lemma retry_delay_is_capped_exponential_witness :
  let E := Demo.env Demo.scheduled false in
  let r := Demo.row1 "email" ob_sending 0 in
  let w := Demo.world [] [Demo.task1 sending (Some 5000)] [r] in
  1 <= attempts r + 1 < MAX_ATTEMPTS E /\
  exists w',
    deliver E (returning r) w = (Ok tt, w') /\
    option_map (fun o => (o_status o, attempts o, nextRetryAt o)) (outboxRow w' "o-1")
      = Some (ob_queued, 1, 1000000 + 60000).
Proof.
  cbv zeta.
  assert (B : 1 <= attempts (Demo.row1 "email" ob_sending 0) + 1
              < MAX_ATTEMPTS (Demo.env Demo.scheduled false))
    by (vm_compute; split; [discriminate|reflexivity]).
  split; [exact B|].
  destruct (@retry_delay_is_capped_exponential (Demo.env Demo.scheduled false)
              (Demo.world [] [Demo.task1 sending (Some 5000)]
                 [Demo.row1 "email" ob_sending 0])
              (Demo.row1 "email" ob_sending 0) (Thrown "SES unavailable")
              eq_refl eq_refl (demo_send_throws 0) B)
    as ((w' & Run & Row) & _).
  exists w'. split; [exact Run|]. cbn [outboxId Demo.row1] in Row. rewrite Row. reflexivity.
Defined.

Lemma exhausted_row_fails_for_good_witness :
  let E := Demo.env Demo.scheduled false in
  let r := Demo.row1 "email" ob_sending 4 in
  let w := Demo.world [] [Demo.task1 sending (Some 5000)] [r] in
  let dead := Demo.row1 "email" ob_failed 5 in
  let wf := Demo.world [] [Demo.task1 failed (Some 5000)] [dead] in
  attempts r + 1 >= MAX_ATTEMPTS E /\
  (exists w',
      deliver E (returning r) w = (Ok tt, w') /\
      outboxRow w' "o-1" = Some dead /\
      taskRow w' "t-1" = Some (Demo.task1 failed (Some 5000))) /\
  NoDup (map outboxId (outbox wf)) /\
  forall n,
    In dead (outbox (snd (repeat_ n (outboxJob E) wf))) /\
    forall now dbNow msg,
      In msg (snd (claimQueued now dbNow (outbox (snd (repeat_ n (outboxJob E) wf))))) ->
      outbox_id msg <> "o-1".
Proof.
  cbv zeta.
  assert (B : attempts (Demo.row1 "email" ob_sending 4) + 1
              >= MAX_ATTEMPTS (Demo.env Demo.scheduled false))
    by (vm_compute; discriminate).
  assert (N : NoDup (map outboxId
                       (outbox (Demo.world [] [Demo.task1 failed (Some 5000)]
                                  [Demo.row1 "email" ob_failed 5]))))
    by (repeat constructor; intros []).
  split; [exact B|split; [|split; [exact N|]]].
  - destruct (proj1 (exhausted_row_fails_for_good (Demo.env Demo.scheduled false))
                (Demo.world [] [Demo.task1 sending (Some 5000)]
                   [Demo.row1 "email" ob_sending 4])
                (Demo.row1 "email" ob_sending 4) (Thrown "SES unavailable")
                eq_refl eq_refl (@linked_demo sending (Some 5000) "email" ob_sending 4)
                (demo_send_throws 4) B)
      as (w' & Run & Row & task & T0 & T1 & Ev).
    exists w'. repeat split; auto.
    vm_compute in T0. inversion T0; subst. exact T1.
  - intros n.
    apply (proj2 (exhausted_row_fails_for_good (Demo.env Demo.scheduled false))
             (Demo.world [] [Demo.task1 failed (Some 5000)]
                [Demo.row1 "email" ob_failed 5])
             (Demo.row1 "email" ob_failed 5) n N (or_introl eq_refl) eq_refl).
Defined.

Lemma execute_is_noop_unless_due_witness :
  let E := Demo.env Demo.scheduled true in
  let w := Demo.world [] [Demo.task1 done (Some 5000)] [] in
  (forall t, taskRow w "t-1" = Some t -> t_status t <> due) /\
  exists entries,
    processExecute E {| ej_taskId := "t-1" |} w
    = (Ok tt, with_logs (fun l => l ++ entries) w).
Proof.
  cbv zeta.
  assert (H : forall t, taskRow (Demo.world [] [Demo.task1 done (Some 5000)] [])
                          (ej_taskId {| ej_taskId := "t-1" |}) = Some t ->
                        t_status t <> due)
    by (intros t T; vm_compute in T; inversion T; subst; discriminate).
  split; [exact H|].
  exact (@execute_is_noop_unless_due (Demo.env Demo.scheduled true)
           {| ej_taskId := "t-1" |} (Demo.world [] [Demo.task1 done (Some 5000)] []) H).
Defined.


Lemma demo_extractor_says x up text tz iso :
  extractorSays (Demo.env x up) text tz iso x.
Proof.
  intros w. unfold extractFollowUp, callClaude, bind, log, modify, ret.
  cbn [fst snd claude parseExtraction Demo.env].
  change (String.eqb EXTRACTION_SYSTEM EXTRACTION_SYSTEM) with true.
  cbv iota. cbn [fst snd]. now rewrite String.eqb_refl.
Qed.

Lemma ingest_is_anchored_on_source_inbound_witness :
  let E := Demo.env Demo.scheduled true in
  let w := Demo.world [Demo.inbound1 received] [] [] in
  let w1 := snd (processIngest E Demo.job1 w) in
  let w2 := snd (processIngest E Demo.job1 w1) in
  anchored w /\
  option_map in_status (inboundRow w1 "in-1") = Some processed /\
  map sourceInboundId (tasks w1) = ["in-1"] /\
  anchored w1 /\
  fst (processIngest E Demo.job1 w1) = Threw P2002 /\
  sameStore w1 w2.
Proof.
  cbv zeta.
  assert (A : anchored (Demo.world [Demo.inbound1 received] [] []))
    by (intros i [<-|[]] St; discriminate St).
  pose proof (@ingest_is_anchored_on_source_inbound (Demo.env Demo.scheduled true)
                Demo.job1 (Demo.world [Demo.inbound1 received] [] [])) as H.
  cbv zeta in H. destruct H as (_ & _ & Anch & _ & Retry).
  split; [exact A|]. split; [vm_compute; reflexivity|].
  split; [vm_compute; reflexivity|]. split; [exact (proj2 (Anch A))|].
  split; [vm_compute; reflexivity|].
  apply Retry. vm_compute. discriminate.
Defined.

Lemma ingest_due_at_follows_extraction_witness :
  let E := Demo.env Demo.scheduled true in
  let w := Demo.world [Demo.inbound1 received] [] [] in
  needs_clarification_ Demo.scheduled = false /\
  parseDate E "2025-01-01T10:00:00Z" = Some 1735725600000 /\
  exists t w',
    processIngest E Demo.job1 w = (Ok tt, w') /\ tasks w' = tasks w ++ [t] /\
    t_status t = pending /\ dueAt t = Some 1735725600000.
Proof.
  cbv zeta. split; [reflexivity|split; [reflexivity|]].
  apply (proj1 (proj2 (@ingest_due_at_follows_extraction
                         (Demo.env Demo.scheduled true) Demo.job1
                         (Demo.world [Demo.inbound1 received] [] [])
                         (Demo.inbound1 received) Demo.alice Demo.scheduled
                         eq_refl eq_refl (demo_extractor_says _ _ _ _ _) eq_refl))
           "2025-01-01T10:00:00Z" 1735725600000 eq_refl eq_refl);
    [discriminate|reflexivity].
Defined.

Lemma demo_request_valid x up : validRequest (Demo.env x up) Demo.request.
Proof. split; [now left|reflexivity]. Qed.

Lemma email_webhook_outcomes_witness :
  let E := Demo.env Demo.scheduled true in
  let w := Demo.world [] [] [] in
  validRequest E Demo.request /\
  exists entries row w',
    emailRoutes E (fun x => x) Demo.request w
      = (Ok {| status := 200; sent := Accepted (inboundId row) |}, w') /\
    inboundMessages w' = [row] /\
    inboundId row = "id-0" /\
    in_userId row = "u-1" /\
    idempotencyKey row = "u-1:msg-1" /\
    in_status row = received /\
    ingestQueue w' = [ingestJob row] /\
    tasks w' = tasks (with_logs (fun l => l ++ entries) w) /\
    outbox w' = outbox (with_logs (fun l => l ++ entries) w).
Proof.
  cbv zeta. split; [apply demo_request_valid|].
  exact (@email_webhook_outcomes (Demo.env Demo.scheduled true) (fun x => x)
           Demo.request (Demo.world [] [] []) (demo_request_valid _ _)).
Defined.


(** *** Where the code does something else *)


Lemma undated_extraction_is_pending_without_due_at :
  let E := Demo.env Demo.undated true in
  let w' := snd (processIngest E Demo.job1 (Demo.world [Demo.inbound1 received] [] [])) in
  needs_clarification_ Demo.undated = false /\
  map (fun t => (t_status t, dueAt t)) (tasks w') = [(pending, None)].
Proof. vm_compute. repeat split. Qed.

(** C8: the route checks for a duplicate and then inserts, without a guard
    around the insert, although its own comment announces an idempotent
    upsert.  A request whose key is inserted by another request between the
    check and the insert is not answered [duplicate], as the claim says a
    conflict is: the insert throws, the answer is 500, and the request adds
    neither a row nor a job. *)
Lemma racing_insert_is_answered_500 :
  let E := Demo.env Demo.scheduled true in
  let w := Demo.world [] [] [] in
  let res := emailRoutes E Demo.racing Demo.request w in
  validRequest E Demo.request /\
  fst res = Ok {| status := 500;
                  sent := ErrorBody "INTERNAL_ERROR" "Internal server error" |} /\
  fst res <> Ok {| status := 200; sent := Duplicate |} /\
  inboundMessages (snd res) = [Demo.inbound1 received] /\
  ingestQueue (snd res) = [].
Proof.
  cbv zeta. split; [apply demo_request_valid|]. vm_compute. repeat split. discriminate.
Qed.


(** ** The repository's tests and the scenarios of the specification, run
       on the embedding *)

(** tests/outbox.test.ts, "should apply exponential backoff delays". *)
Example backoff_delays_of_the_test :
  map delayMs [0; 1; 2; 3; 4; 10] = [30000; 60000; 120000; 240000; 480000; 600000].
Proof. reflexivity. Qed.

(** tests/scheduler.test.ts, "should handle multiple due tasks in one tick"
    and "should not double-process tasks on second tick", at 10:00. *)
Example tick_of_the_test :
  let now := 10 * Demo.hour in
  let first := claimDueTasks now now Demo.testTasks in
  snd first = [("task-1", "user-1"); ("task-2", "user-2"); ("task-3", "user-1")] /\
  map t_status (fst first) = [due; due; due; pending] /\
  snd (claimDueTasks now now (fst first)) = [].
Proof. vm_compute. repeat split. Qed.

(** tests/scheduler.test.ts, "should NOT pick up tasks that are not in
    pending status" and "should NOT pick up tasks with null due_at". *)
Example tick_skips_other_rows :
  let rows := [Demo.testTask "task-done" "user-1" done (Some 0);
               Demo.testTask "task-failed" "user-1" failed (Some 0);
               Demo.testTask "task-due" "user-1" due (Some 0);
               Demo.testTask "task-clarify" "user-1" needs_clarification (Some 0);
               Demo.testTask "task-null" "user-1" pending None] in
  claimDueTasks Demo.hour Demo.hour rows = (rows, []).
Proof. reflexivity. Qed.

(** tests/idempotency.test.ts: the first webhook is accepted, the same one
    again is a duplicate, and one row exists under the key
    [user_id ":" provider_message_id]. *)
Example webhook_twice :
  let E := Demo.env Demo.scheduled true in
  let first := emailRoutes E (fun w => w) Demo.request (Demo.world [] [] []) in
  let second := emailRoutes E (fun w => w) Demo.request (snd first) in
  fst first = Ok {| status := 200; sent := Accepted "id-0" |} /\
  fst second = Ok {| status := 200; sent := Duplicate |} /\
  map idempotencyKey (inboundMessages (snd second)) = ["u-1:msg-1"] /\
  map (fun j => jobId j) (ingestQueue (snd second)) = ["u-1:msg-1"].
Proof. vm_compute. repeat split. Qed.

(** Scenario 5 of the specification: the send fails four times and succeeds
    the fifth.  After each poll: status, attempts and [next_retry_at] of the
    row, the status of the task and the events written.  The failures
    happen at 3, 6, 9 and 12 million ms, so the delays are 60000, 120000,
    240000 and 480000 ms. *)
Example outbox_retry_scenario :
  let w0 := Demo.world [] [Demo.task1 sending (Some 5000)]
              [Demo.row1 "email" ob_queued 0] in
  let after := fun n =>
    let w := snd (repeat_ n (outboxJob Demo.flaky) w0) in
    (map (fun o => (o_status o, attempts o, nextRetryAt o)) (outbox w),
     map t_status (tasks w), map eventType (taskEvents w), length (sendCalls w)) in
  map after [1; 2; 3; 4; 5]%nat
  = [([(ob_queued, 1, 3060000)], [sending], [], 1%nat);
     ([(ob_queued, 2, 6120000)], [sending], [], 2%nat);
     ([(ob_queued, 3, 9240000)], [sending], [], 3%nat);
     ([(ob_queued, 4, 12480000)], [sending], [], 4%nat);
     ([(ob_sent, 5, 12480000)], [done], [ev_sent; ev_done], 5%nat)].
Proof. vm_compute. reflexivity. Qed.

(** Scenario 6 of the specification: five failures in a row leave the row
    and the task [failed] with one [failed] event, and later polls send
    nothing more. *)
Example outbox_permanent_failure_scenario :
  let E := Demo.env Demo.scheduled false in
  let w0 := Demo.world [] [Demo.task1 sending (Some 5000)]
              [Demo.row1 "email" ob_queued 4] in
  let after := fun n =>
    let w := snd (repeat_ n (outboxJob E) w0) in
    (map (fun o => (o_status o, attempts o)) (outbox w),
     map t_status (tasks w), map eventType (taskEvents w), length (sendCalls w)) in
  map after [1; 2; 3]%nat
  = [([(ob_failed, 5)], [failed], [ev_failed], 1%nat);
     ([(ob_failed, 5)], [failed], [ev_failed], 1%nat);
     ([(ob_failed, 5)], [failed], [ev_failed], 1%nat)].
Proof. vm_compute. reflexivity. Qed.

(* ================================================================== *)
(** * Further properties of the pipeline *)

(** ** A claim statement in general: filter, order, cut, rewrite by key *)

Section Claiming.

Context {A : Type}.
Variables (key : A -> string) (p : A -> bool) (le : A -> A -> bool) (n : nat).

Lemma selection_incl rows : incl (firstn n (orderBy le (filter p rows))) rows.
Proof. intros x H. now apply selected_In in H. Qed.




(** A row that fails the [WHERE] clause is not rewritten. *)
Lemma unselected_spared rows x :
  NoDup (map key rows) -> In x rows -> p x = false ->
  inIds (map key (firstn n (orderBy le (filter p rows)))) (key x) = false.
Proof.
  intros N Hx F. destruct (inIds _ _) eqn:I; [|reflexivity].
  apply (@picked_iff _ key _ rows x N (@selection_incl rows) Hx) in I.
  apply selected_In in I. destruct I as (_ & P). congruence.
Qed.

End Claiming.

Section OutboxFacts.

Variable E : Env.

(** ** The outbox sender: what a poll claims and what it sends *)



Lemma isQueued_spec now o :
  isQueued now o = true <-> o_status o = ob_queued /\ nextRetryAt o <= now.
Proof.
  unfold isQueued. rewrite andb_true_iff, Z.leb_le. split; intros (S & L); split; auto.
  - now destruct (o_status o).
  - now rewrite S.
Qed.


Lemma SameCalls_refl w : SameCalls w w.
Proof. reflexivity. Qed.

Lemma SameCalls_trans a b c : SameCalls a b -> SameCalls b c -> SameCalls a c.
Proof. unfold SameCalls. congruence. Qed.

Lemma log_calls lvl msg : Frame SameCalls (log lvl msg).
Proof. intros w. reflexivity. Qed.

Lemma recordTaskEvent_calls t u ty p : Frame SameCalls (recordTaskEvent E t u ty p).
Proof. intros w. reflexivity. Qed.

Lemma task_update_calls id data : Frame SameCalls (task_update id data).
Proof.
  intros w. unfold task_update, bind, gets. cbn.
  destruct (updateFirst _ data (tasks w)); reflexivity.
Qed.

Lemma outboxMessage_update_calls id data : Frame SameCalls (outboxMessage_update id data).
Proof.
  intros w. unfold outboxMessage_update, bind, gets. cbn.
  destruct (updateFirst _ data (outbox w)); reflexivity.
Qed.

Lemma computeNextRetry_calls n : Frame SameCalls (computeNextRetry E n).
Proof. intros w. reflexivity. Qed.

(** Whether it returns or throws, the send of a message adds its call. *)
Lemma dispatch_calls msg w :
  sendCalls (snd (dispatch E msg w)) = sendCalls w ++ callsOf msg.
Proof.
  unfold dispatch, callsOf, sendEmail, sendWhatsApp, bind, gets, log, modify.
  destruct (String.eqb (channel msg) "email"); cbn.
  - destruct (sesSend E _ _); reflexivity.
  - destruct (String.eqb (channel msg) "whatsapp"); cbn; [|now rewrite app_nil_r].
    destruct (whatsappFetch E _ _); reflexivity.
Qed.

Lemma grows_bind {A B} cs (m : M A) (k : A -> M B) :
  (forall w, sendCalls (snd (m w)) = sendCalls w ++ cs) ->
  (forall a, Frame SameCalls (k a)) ->
  forall w, sendCalls (snd (bind m k w)) = sendCalls w ++ cs.
Proof.
  intros Hm Hk w. unfold bind. specialize (Hm w).
  destruct (m w) as [[a|e] w1]; cbn [snd] in *; [|exact Hm].
  now rewrite (Hk a w1).
Qed.

Lemma grows_tryCatch {A} cs (m : M A) h :
  (forall w, sendCalls (snd (m w)) = sendCalls w ++ cs) ->
  (forall e, Frame SameCalls (h e)) ->
  forall w, sendCalls (snd (tryCatch m h w)) = sendCalls w ++ cs.
Proof.
  intros Hm Hh w. unfold tryCatch. specialize (Hm w).
  destruct (m w) as [[a|e] w1]; cbn [snd] in *; [exact Hm|].
  now rewrite (Hh e w1).
Qed.

(** One claimed message, one send on its channel, whatever the outcome. *)
Lemma deliver_calls msg w :
  sendCalls (snd (deliver E msg w)) = sendCalls w ++ callsOf msg.
Proof.
  pose proof SameCalls_refl as Rf. pose proof SameCalls_trans as Tr.
  unfold deliver. apply grows_tryCatch.
  - apply grows_bind; [apply dispatch_calls|intros _].
    apply (frame_bind Tr); [apply outboxMessage_update_calls|intros _].
    apply (frame_bind Tr); [|intros _; apply log_calls].
    apply (frame_whenTruthy Rf). intros s.
    apply (frame_bind Tr); [apply task_update_calls|intros _].
    apply (frame_bind Tr); [apply recordTaskEvent_calls|intros _].
    apply recordTaskEvent_calls.
  - intros err. cbv zeta. destruct (msg_attempts msg + 1 >=? MAX_ATTEMPTS E).
    + apply (frame_bind Tr); [apply outboxMessage_update_calls|intros _].
      apply (frame_bind Tr); [|intros _; apply log_calls].
      apply (frame_whenTruthy Rf). intros s.
      apply (frame_bind Tr); [apply task_update_calls|intros _].
      apply recordTaskEvent_calls.
    + apply (frame_bind Tr); [apply computeNextRetry_calls|intros nextRetry].
      apply (frame_bind Tr); [apply outboxMessage_update_calls|intros _].
      apply log_calls.
Qed.

(** *** No claimed row is left [sending] *)

Lemma find_key {A} (key : A -> string) id l :
  find (fun x => String.eqb (key x) id) l <> None <-> In id (map key l).
Proof.
  induction l as [|x l IH]; cbn; [tauto|].
  destruct (String.eqb (key x) id) eqn:K.
  - apply String.eqb_eq in K. split; [now left|discriminate].
  - apply String.eqb_neq in K. rewrite IH. tauto.
Qed.

(** With unique keys, the row found by key is the only row with the key. *)
Lemma find_key_unique {A} (key : A -> string) id l x y :
  NoDup (map key l) -> find (fun x => String.eqb (key x) id) l = Some x ->
  In y l -> key y = id -> y = x.
Proof.
  intros N F Hy K. apply find_some in F. destruct F as (Hx & Kx).
  apply String.eqb_eq in Kx. apply (key_inj key l y x N Hy Hx). congruence.
Qed.


Lemma Settles_refl id w : Settles id w w.
Proof. split; auto. Qed.

Lemma Settles_trans id a b c : Settles id a b -> Settles id b c -> Settles id a c.
Proof.
  intros (K1 & R1) (K2 & R2). split; [congruence|].
  intros o Ho. destruct (R2 o Ho) as [Hb|Done]; auto.
Qed.

Lemma SameOutbox_Settles id {A} (m : M A) : Frame SameOutbox m -> Frame (Settles id) m.
Proof.
  intros H w. specialize (H w). unfold SameOutbox in H. split; rewrite H; auto.
Qed.

Lemma outboxMessage_update_settles id data :
  (forall o, outboxId (data o) = outboxId o) ->
  (forall o, o_status (data o) <> ob_sending) ->
  Frame (Settles id) (outboxMessage_update id data).
Proof.
  intros K St w. unfold outboxMessage_update, bind, gets. cbn.
  destruct (updateFirst _ data (outbox w)) as [rows|] eqn:U; cbn.
  - destruct (updateFirst_frame outboxId id data (outbox w) K U) as (M1 & _).
    split; [exact M1|]. intros o Ho.
    destruct (updateFirst_rows _ _ _ U o Ho) as [Old|(x & Hx & Kx & ->)]; [now left|].
    right. rewrite K. apply String.eqb_eq in Kx. auto.
  - apply Settles_refl.
Qed.

Lemma deliver_settles msg : Frame (Settles (outbox_id msg)) (deliver E msg).
Proof.
  set (id := outbox_id msg).
  pose proof (Settles_refl id) as Rf. pose proof (@Settles_trans id) as Tr.
  assert (Same : forall A (m : M A), Frame SameOutbox m -> Frame (Settles id) m)
    by (intros; now apply SameOutbox_Settles).
  assert (Up : forall st k retryAt, st <> ob_sending ->
               Frame (Settles id) (outboxMessage_update id (outbox_with st k retryAt)))
    by (intros; now apply outboxMessage_update_settles).
  unfold deliver. fold id.
  apply (frame_tryCatch Tr).
  - apply (frame_bind Tr); [apply Same, dispatch_outbox|intros _].
    apply (frame_bind Tr); [apply Up; discriminate|intros _].
    apply (frame_bind Tr); [|intros _; apply Same, log_outbox].
    apply (frame_whenTruthy Rf). intros s.
    apply (frame_bind Tr); [apply Same, task_update_outbox|intros _].
    apply (frame_bind Tr); [apply Same, recordTaskEvent_outbox|intros _].
    apply Same, recordTaskEvent_outbox.
  - intros e. cbv zeta.
    destruct (msg_attempts msg + 1 >=? MAX_ATTEMPTS E).
    + apply (frame_bind Tr); [apply Up; discriminate|intros _].
      apply (frame_bind Tr); [|intros _; apply Same, log_outbox].
      apply (frame_whenTruthy Rf). intros s.
      apply (frame_bind Tr); [apply Same, task_update_outbox|intros _].
      apply Same, recordTaskEvent_outbox.
    + apply (frame_bind Tr); [apply Same, computeNextRetry_outbox|intros nextRetry].
      apply (frame_bind Tr); [apply Up; discriminate|intros _; apply Same, log_outbox].
Qed.

Lemma SameTaskKeys_refl w : SameTaskKeys w w.
Proof. reflexivity. Qed.

Lemma SameTaskKeys_trans a b c : SameTaskKeys a b -> SameTaskKeys b c -> SameTaskKeys a c.
Proof. unfold SameTaskKeys. congruence. Qed.

Lemma SameTasks_keys {A} (m : M A) : Frame SameTasks m -> Frame SameTaskKeys m.
Proof. intros H w. specialize (H w). unfold SameTasks in H. unfold SameTaskKeys. now rewrite H. Qed.

Lemma task_update_keys id data :
  (forall t, taskId (data t) = taskId t) -> Frame SameTaskKeys (task_update id data).
Proof.
  intros K w. unfold task_update, bind, gets. cbn.
  destruct (updateFirst _ data (tasks w)) as [rows|] eqn:U; cbn; [|reflexivity].
  now destruct (updateFirst_frame taskId id data (tasks w) K U).
Qed.

Lemma dispatch_tasks msg : Frame SameTasks (dispatch E msg).
Proof.
  intros w. unfold dispatch, sendEmail, sendWhatsApp, bind, gets, log, modify.
  destruct (String.eqb (channel msg) "email"); cbn.
  - destruct (sesSend E _ _); reflexivity.
  - destruct (String.eqb (channel msg) "whatsapp"); cbn; [|reflexivity].
    destruct (whatsappFetch E _ _); reflexivity.
Qed.

Lemma outboxMessage_update_tasks id data : Frame SameTasks (outboxMessage_update id data).
Proof.
  intros w. unfold outboxMessage_update, bind, gets. cbn.
  destruct (updateFirst _ data (outbox w)); reflexivity.
Qed.

Lemma computeNextRetry_tasks n : Frame SameTasks (computeNextRetry E n).
Proof. intros w. reflexivity. Qed.

Lemma deliver_task_keys msg : Frame SameTaskKeys (deliver E msg).
Proof.
  pose proof SameTaskKeys_refl as Rf. pose proof SameTaskKeys_trans as Tr.
  assert (Same : forall A (m : M A), Frame SameTasks m -> Frame SameTaskKeys m)
    by (intros; now apply SameTasks_keys).
  unfold deliver.
  apply (frame_tryCatch Tr).
  - apply (frame_bind Tr); [apply Same, dispatch_tasks|intros _].
    apply (frame_bind Tr); [apply Same, outboxMessage_update_tasks|intros _].
    apply (frame_bind Tr); [|intros _; apply Same, log_tasks].
    apply (frame_whenTruthy Rf). intros s.
    apply (frame_bind Tr); [apply task_update_keys; reflexivity|intros _].
    apply (frame_bind Tr); [apply Same, recordTaskEvent_tasks|intros _].
    apply Same, recordTaskEvent_tasks.
  - intros e. cbv zeta.
    destruct (msg_attempts msg + 1 >=? MAX_ATTEMPTS E).
    + apply (frame_bind Tr); [apply Same, outboxMessage_update_tasks|intros _].
      apply (frame_bind Tr); [|intros _; apply Same, log_tasks].
      apply (frame_whenTruthy Rf). intros s.
      apply (frame_bind Tr); [apply task_update_keys; reflexivity|intros _].
      apply Same, recordTaskEvent_tasks.
    + apply (frame_bind Tr); [apply Same, computeNextRetry_tasks|intros nextRetry].
      apply (frame_bind Tr); [apply Same, outboxMessage_update_tasks|intros _].
      apply Same, log_tasks.
Qed.

(** A claimed message whose row and task exist is dealt with: the loop body
    returns and the row has left [sending]. *)
Lemma deliver_total msg w r :
  outboxRow w (outbox_id msg) = Some r -> linked w msg ->
  exists w' r',
    deliver E msg w = (Ok tt, w') /\
    outboxRow w' (outbox_id msg) = Some r' /\ o_status r' <> ob_sending /\
    attempts r' = msg_attempts msg + 1.
Proof.
  intros Row Link.
  pose proof (dispatch_outbox E msg w) as O. pose proof (dispatch_tasks msg w) as T.
  unfold SameOutbox in O. unfold SameTasks in T.
  destruct (dispatch E msg w) as [[[]|e] w1] eqn:D; cbn [snd] in O, T.
  - assert (Row1 : outboxRow w1 (outbox_id msg) = Some r)
      by (unfold outboxRow in *; now rewrite O).
    assert (Link1 : linked w1 msg)
      by (unfold linked, taskRow in *; now rewrite T).
    destruct (@deliver_sent E msg w w1 r D Row1 Link1) as (w' & Run & _ & R' & _).
    exists w'. eexists. split; [exact Run|]. split; [exact R'|].
    split; [discriminate|reflexivity].
  - assert (Row1 : outboxRow w1 (outbox_id msg) = Some r)
      by (unfold outboxRow in *; now rewrite O).
    assert (Link1 : linked w1 msg)
      by (unfold linked, taskRow in *; now rewrite T).
    destruct (Z_lt_ge_dec (msg_attempts msg + 1) (MAX_ATTEMPTS E)) as [Lt|Ge].
    + destruct (@deliver_retried E msg w w1 r e D Row1 Lt) as (w' & Run & R' & _).
      exists w'. eexists. split; [exact Run|]. split; [exact R'|].
      split; [discriminate|reflexivity].
    + destruct (@deliver_exhausted E msg w w1 r e D Row1 Link1 Ge) as (w' & Run & R' & _).
      exists w'. eexists. split; [exact Run|]. split; [exact R'|].
      split; [discriminate|reflexivity].
Qed.

Lemma forEach_deliver_settles msgs : forall w,
  NoDup (map outboxId (outbox w)) ->
  (forall msg, In msg msgs -> outboxRow w (outbox_id msg) <> None /\ linked w msg) ->
  exists w',
    forEach msgs (deliver E) w = (Ok tt, w') /\
    map outboxId (outbox w') = map outboxId (outbox w) /\
    sendCalls w' = sendCalls w ++ flat_map callsOf msgs /\
    forall o, In o (outbox w') ->
      (In o (outbox w) /\ ~ In (outboxId o) (map outbox_id msgs)) \/
      o_status o <> ob_sending.
Proof.
  induction msgs as [|m ms IH]; intros w N Pre; cbn [forEach].
  - exists w. split; [reflexivity|]. split; [reflexivity|].
    split; [cbn; now rewrite app_nil_r|]. intros o Ho. left. split; [exact Ho|intros []].
  - destruct (Pre m (or_introl eq_refl)) as (Row & Link).
    destruct (outboxRow w (outbox_id m)) as [r|] eqn:Rw; [|congruence].
    destruct (@deliver_total m w r Rw Link) as (w1 & r' & Run & Row1 & St & _).
    pose proof (deliver_settles m w) as (Keys & Rows).
    pose proof (deliver_task_keys m w) as TK.
    pose proof (deliver_calls m w) as Calls.
    rewrite Run in Keys, Rows, TK, Calls. cbn [snd] in Keys, Rows, TK, Calls.
    unfold SameTaskKeys in TK.
    assert (N1 : NoDup (map outboxId (outbox w1))) by (now rewrite Keys).
    destruct (IH w1 N1) as (w' & Run' & Keys' & Calls' & Rows').
    { intros msg Hm. destruct (Pre msg (or_intror Hm)) as (Rm & Lm). split.
      - unfold outboxRow in *. rewrite find_key in *. now rewrite Keys.
      - intros t Ht. destruct (Lm t Ht) as (Ne & Ex). split; [exact Ne|].
        unfold taskRow in *. rewrite find_key in *. now rewrite TK. }
    exists w'. split; [unfold bind; now rewrite Run|].
    split; [congruence|]. split.
    { rewrite Calls', Calls. cbn [flat_map]. now rewrite app_assoc. }
    intros o Ho. destruct (Rows' o Ho) as [(In1 & Nms)|Done]; [|now right].
    destruct (String.eqb (outboxId o) (outbox_id m)) eqn:K.
    + apply String.eqb_eq in K. right.
      rewrite (@find_key_unique _ outboxId (outbox_id m) (outbox w1) r' o N1 Row1 In1 K).
      exact St.
    + apply String.eqb_neq in K.
      destruct (Rows o In1) as [Old|(K' & _)]; [|contradiction].
      left. split; [exact Old|]. cbn [map In]. intros [Eq|Hin]; [now symmetry in Eq|auto].
Qed.

Lemma filter_all {A} (p : A -> bool) l :
  (forall x, In x l -> p x = true) -> filter p l = l.
Proof.
  induction l as [|x l IH]; intros H; cbn; [reflexivity|].
  rewrite (H x (or_introl eq_refl)). f_equal. apply IH. intros y Hy. apply H. now right.
Qed.

(** X2: When the outbox is intact and no row is [sending], a poll returns, its
    send calls are those of all the messages it claimed, one for each, and
    it leaves no row [sending]: every claimed row has become [sent],
    [failed] or [queued] again. *)
Theorem poll_settles_every_claimed_row w :
  intact w ->
  (forall o, In o (outbox w) -> o_status o <> ob_sending) ->
  let claimed := snd (claimQueued (clock E (clockReads w)) (clock E (S (clockReads w)))
                        (outbox w)) in
  exists w',
    pollOutbox E w = (Ok tt, w') /\
    map outboxId (outbox w') = map outboxId (outbox w) /\
    sendCalls w' = sendCalls w ++ flat_map callsOf claimed /\
    forall o, In o (outbox w') -> o_status o <> ob_sending.
Proof.
  intros (N & Links) Quiet. cbv zeta. rewrite pollOutbox_run. cbv zeta.
  set (now := clock E (clockReads w)).
  set (dbNow := clock E (S (clockReads w))).
  set (w1 := with_outbox (fun _ => fst (claimQueued now dbNow (outbox w)))
               (with_clockReads S (with_clockReads S w))).
  set (msgs := snd (claimQueued now dbNow (outbox w))).
  assert (Keys : map outboxId (outbox w1) = map outboxId (outbox w))
    by (apply claimQueued_keys).
  assert (Pre : forall msg, In msg msgs ->
                  outboxRow w1 (outbox_id msg) <> None /\ linked w1 msg).
  { intros msg Hm. unfold msgs, claimQueued, snd in Hm.
    apply in_map_iff in Hm. destruct Hm as (o & <- & Ho).
    apply filter_In in Ho. destruct Ho as (Ho & _). split.
    - unfold outboxRow. rewrite find_key, Keys. cbn [returning outbox_id]. now apply in_map.
    - exact (Links o Ho). }
  assert (After : forall o, In o (outbox w1) ->
                    In (outboxId o) (map outbox_id msgs) \/ o_status o <> ob_sending).
  { intros o' Ho'. change (In o' (fst (claimQueued now dbNow (outbox w)))) in Ho'.
    unfold claimQueued, fst in Ho'.
    apply in_map_iff in Ho'. destruct Ho' as (o & <- & Ho).
    destruct (inIds (map outboxId (selectQueued now 20 (outbox w))) (outboxId o)) eqn:P.
    - left. apply in_map_iff. exists (returning o). split; [reflexivity|].
      unfold msgs, claimQueued, snd. apply in_map. apply filter_In. now split.
    - right. now apply Quiet. }
  assert (N1 : NoDup (map outboxId (outbox w1))) by (now rewrite Keys).
  destruct (@forEach_deliver_settles msgs
              (with_logs (fun l => l ++ [(lvl_info, "Processing outbox batch")]) w1)
              N1 Pre) as (w' & Run & Keys' & Calls & Rows).
  destruct msgs as [|m ms] eqn:Ms.
  - exists w1. split; [reflexivity|]. split; [exact Keys|].
    split; [cbn; now rewrite app_nil_r|].
    intros o Ho. destruct (After o Ho) as [[]|Ok_]. exact Ok_.
  - exists w'. split; [unfold bind; rewrite log_run; exact Run|].
    split; [rewrite Keys'; exact Keys|]. split; [exact Calls|].
    intros o Ho. destruct (Rows o Ho) as [(Old & Nin)|Ok_]; [|exact Ok_].
    destruct (After o Old) as [Hin|Ok_]; [contradiction|exact Ok_].
Qed.

(** *** What a poll does to the rows it claims, and to the others *)




(** A row that is due is picked, and returned, by a claim that has room
    for every eligible row. *)
Lemma due_row_is_picked now rows r :
  NoDup (map outboxId rows) -> In r rows -> isQueued now r = true ->
  (length (filter (isQueued now) rows) <= 20)%nat ->
  inIds (map outboxId (selectQueued now 20 rows)) (outboxId r) = true.
Proof.
  intros N Hr Q Room.
  apply (@picked_iff _ outboxId (selectQueued now 20 rows) rows r N);
    [apply selection_incl|exact Hr|].
  unfold selectQueued. rewrite firstn_all2.
  - apply (Permutation_in _ (Permutation_sym (orderBy_Permutation retryLe _))).
    apply filter_In. now split.
  - now rewrite (Permutation_length (orderBy_Permutation retryLe _)).
Qed.

Lemma due_row_is_claimed now dbNow rows r :
  NoDup (map outboxId rows) -> In r rows -> isQueued now r = true ->
  (length (filter (isQueued now) rows) <= 20)%nat ->
  In (returning r) (snd (claimQueued now dbNow rows)).
Proof.
  intros N Hr Q Room.
  unfold claimQueued, snd. apply in_map. apply filter_In. split; [exact Hr|].
  now apply due_row_is_picked.
Qed.

(** *** A retry waits for its backoff *)

(** X3: After a failed send below the limit, the row is not returned by a claim
    statement run before [next_retry_at]; once that instant has come, a
    claim with room for every eligible row returns it, with the incremented
    attempt count. *)
Theorem retried_row_waits_for_its_backoff w r e :
  NoDup (map outboxId (outbox w)) ->
  outboxRow w (outboxId r) = Some r ->
  sendThrows E w (returning r) e ->
  attempts r + 1 < MAX_ATTEMPTS E ->
  let after := outbox (snd (deliver E (returning r) w)) in
  let retryAt := clock E (clockReads w) + delayMs (attempts r + 1) in
  (forall now dbNow msg,
      now < retryAt -> In msg (snd (claimQueued now dbNow after)) ->
      outbox_id msg <> outboxId r) /\
  (forall now dbNow,
      retryAt <= now -> (length (filter (isQueued now) after) <= 20)%nat ->
      exists msg,
        In msg (snd (claimQueued now dbNow after)) /\
        outbox_id msg = outboxId r /\ msg_attempts msg = attempts r + 1).
Proof.
  intros N Row Send Lt. cbv zeta.
  destruct (@dispatch_throws E (returning r) w e Send) as (w1 & D & Same & Clock).
  destruct (@sameStore_rows w w1 (returning r) Same) as (R1 & _ & _).
  assert (Row1 : outboxRow w1 (outbox_id (returning r)) = Some r) by (now rewrite R1).
  destruct (@deliver_retried E (returning r) w w1 r e D Row1 Lt) as (w' & Run & R' & _).
  pose proof (deliver_settles (returning r) w) as (Keys & _).
  rewrite Run in *. cbn [snd returning outbox_id msg_attempts] in *.
  rewrite Clock in R'.
  set (r' := outbox_with ob_queued (attempts r + 1)
               (Some (clock E (clockReads w) + delayMs (attempts r + 1))) r) in *.
  assert (N' : NoDup (map outboxId (outbox w'))) by (now rewrite Keys).
  assert (In' : In r' (outbox w')) by (apply find_some in R'; apply R').
  split.
  - intros now dbNow msg Early Hm Eq.
    unfold claimQueued, snd in Hm. apply in_map_iff in Hm. destruct Hm as (o & <- & Ho).
    apply filter_In in Ho. destruct Ho as (Ho & Picked). cbn [returning outbox_id] in Eq.
    assert (o = r') by (apply (@find_key_unique _ outboxId _ _ _ _ N' R' Ho Eq)). subst o.
    unfold selectQueued in Picked.
    rewrite (@unselected_spared _ outboxId (isQueued now) retryLe 20 (outbox w') r' N' In')
      in Picked; [discriminate|].
    unfold isQueued, r'. cbn. apply Z.leb_gt. exact Early.
  - intros now dbNow Late Room.
    exists (returning r'). split; [|split; reflexivity].
    apply due_row_is_claimed; auto.
    apply isQueued_spec. split; [reflexivity|]. unfold r'. cbn. exact Late.
Qed.

End OutboxFacts.

Section WorkerFacts.

Variable E : Env.

(** ** The scheduler: one job and one event for each claimed task *)

Lemma forEach_enqueue rows : forall w,
  exists w',
    forEach rows
      (fun row =>
         recordTaskEvent E (fst row) (snd row) ev_due NoPayload ;;
         executeQueue_add "execute" {| ej_taskId := fst row |} ("exec:" ++ fst row)%string ;;
         log lvl_info "Execute job enqueued") w = (Ok tt, w') /\
    executeQueue w' = executeQueue w ++ map executeJob rows /\
    map entryOf (taskEvents w')
    = map entryOf (taskEvents w) ++ map (fun row => (fst row, snd row, ev_due, NoPayload)) rows /\
    tasks w' = tasks w /\ outbox w' = outbox w /\
    inboundMessages w' = inboundMessages w /\ ingestQueue w' = ingestQueue w /\
    sendCalls w' = sendCalls w /\ users w' = users w /\ idsIssued w' = idsIssued w.
Proof.
  induction rows as [|row rows IH]; intros w; cbn [forEach].
  - exists w. cbn. rewrite !app_nil_r. repeat split.
  - set (w1 := with_logs (fun l => l ++ [(lvl_info, "Execute job enqueued")])
                 (with_executeQueue (fun q => q ++ [executeJob row])
                    (recorded E (fst row) (snd row) ev_due NoPayload w))).
    destruct (IH w1) as (w' & Run & Q & Ev & T & O & I & Iq & S & U & Ids).
    exists w'. split; [|repeat split].
    + eapply run_bind; [|exact Run]. reflexivity.
    + rewrite Q. cbn. now rewrite <- app_assoc.
    + rewrite Ev. cbn. rewrite map_app. cbn. now rewrite <- app_assoc.
    + rewrite T. reflexivity.
    + rewrite O. reflexivity.
    + rewrite I. reflexivity.
    + rewrite Iq. reflexivity.
    + rewrite S. reflexivity.
    + rewrite U. reflexivity.
    + rewrite Ids. reflexivity.
Qed.

Lemma tick_effects w :
  let claim := claimDueTasks (clock E (clockReads w)) (clock E (S (clockReads w)))
                 (tasks w) in
  exists w',
    tick E w = (Ok tt, w') /\
    tasks w' = fst claim /\
    executeQueue w' = executeQueue w ++ map executeJob (snd claim) /\
    map entryOf (taskEvents w')
    = map entryOf (taskEvents w)
        ++ map (fun row => (fst row, snd row, ev_due, NoPayload)) (snd claim) /\
    outbox w' = outbox w /\ inboundMessages w' = inboundMessages w /\
    ingestQueue w' = ingestQueue w /\ sendCalls w' = sendCalls w /\
    users w' = users w /\ idsIssued w' = idsIssued w.
Proof.
  cbv zeta. rewrite tick_run. cbv zeta.
  destruct (claimDueTasks _ _ (tasks w)) as [rows' claimed]. cbn [fst snd].
  set (w1 := with_tasks _ _).
  destruct claimed as [|c cs].
  - exists w1. cbn. rewrite !app_nil_r. repeat split.
  - destruct (forEach_enqueue (c :: cs)
                (with_logs (fun l => l ++ [(lvl_info, "Tasks marked as due")]) w1))
      as (w' & Run & Q & Ev & T & O & I & Iq & S & U & Ids).
    exists w'. split; [unfold bind; rewrite log_run; exact Run|].
    repeat split; assumption.
Qed.

(** X4: a tick returns; for each row its claim statement returned, in that
    order, it has appended one [due] event and one job [execute] with job
    id [exec:<task_id>] to the execute queue, and it has touched neither
    the outbox, the inbound messages, the ingest queue nor the send APIs. *)
Theorem tick_enqueues_each_claimed_task w :
  let claimed := snd (claimDueTasks (clock E (clockReads w)) (clock E (S (clockReads w)))
                        (tasks w)) in
  exists w',
    tick E w = (Ok tt, w') /\
    executeQueue w' = executeQueue w ++ map executeJob claimed /\
    map entryOf (taskEvents w')
    = map entryOf (taskEvents w)
        ++ map (fun row => (fst row, snd row, ev_due, NoPayload)) claimed /\
    outbox w' = outbox w /\ inboundMessages w' = inboundMessages w /\
    ingestQueue w' = ingestQueue w /\ sendCalls w' = sendCalls w.
Proof.
  cbv zeta.
  destruct (tick_effects w) as (w' & Run & _ & Q & Ev & O & I & Iq & S & _).
  exists w'. repeat split; assumption.
Qed.

(** ** The executor: a due task *)

Lemma draftFollowUp_run hint ctx tone_ text :
  claude E DRAFTING_SYSTEM
    ("Contact: " ++ hint ++ Js.nl ++ "Context: " ++ ctx ++ Js.nl
       ++ "Tone: " ++ tone_ ++ Js.nl ++ Js.nl ++ "Draft a follow-up message.")%string
  = inr text ->
  exists entries, forall w,
    draftFollowUp E hint ctx tone_ w
    = (Ok (match parseDraft E text with
           | Some d => d
           | None =>
               {| draft_subject := ("Follow up: " ++ hint)%string;
                  draft_body := ("Hi, I wanted to follow up regarding " ++ ctx
                                   ++ ". Could you please provide an update? Thank you!")%string |}
           end),
       with_logs (fun l => l ++ entries) w).
Proof.
  intros C. unfold draftFollowUp, callClaude, bind, log, modify, ret. cbn [fst snd].
  rewrite C. destruct (parseDraft E text); eexists; intros w;
    unfold with_logs; cbn; rewrite <- ?app_assoc; reflexivity.
Qed.

Lemma draftFollowUp_throws hint ctx tone_ e w :
  claude E DRAFTING_SYSTEM
    ("Contact: " ++ hint ++ Js.nl ++ "Context: " ++ ctx ++ Js.nl
       ++ "Tone: " ++ tone_ ++ Js.nl ++ Js.nl ++ "Draft a follow-up message.")%string
  = inl e ->
  draftFollowUp E hint ctx tone_ w
  = (Threw e, with_logs (fun l => l ++ [(lvl_info, "Calling Claude for drafting")]) w).
Proof.
  intros C. unfold draftFollowUp, callClaude, bind, log, modify, throw. cbn [fst snd].
  now rewrite C.
Qed.

(** The executor skips a job whose task is missing or not [due]. *)
Lemma processExecute_skips job w :
  (forall t, taskRow w (ej_taskId job) = Some t -> t_status t <> due) ->
  exists entries,
    processExecute E job w = (Ok tt, with_logs (fun l => l ++ entries) w).
Proof.
  intros H. unfold taskRow in H.
  unfold processExecute, bind, log, modify, task_findUnique_include_user, gets.
  cbn [fst snd tasks users with_logs].
  destruct (find _ (tasks w)) as [t|]; cbn [option_map].
  - specialize (H t eq_refl).
    destruct (t_status t); try congruence; cbn [TaskStatus_eqb negb];
      eexists; unfold with_logs; cbn; rewrite <- app_assoc; reflexivity.
  - eexists. unfold with_logs; cbn. rewrite <- app_assoc. reflexivity.
Qed.

Lemma task_update_rows id data w rows :
  updateFirst (fun t => String.eqb (taskId t) id) data (tasks w) = Some rows ->
  task_update id data w = (Ok tt, with_tasks (fun _ => rows) w).
Proof. intros U. unfold task_update, bind, gets. cbn. now rewrite U. Qed.

Lemma outboxMessage_create_row task user channel_ p st w :
  let row := newOutboxMessage (uuid E (idsIssued w)) (clock E (clockReads w))
               task user channel_ p st in
  outboxMessage_create E task user channel_ p st w
  = (Ok row, with_outbox (fun l => l ++ [row]) (with_clockReads S (with_idsIssued S w))).
Proof. reflexivity. Qed.

Lemma processExecute_run job w task user d :
  taskRow w (ej_taskId job) = Some task ->
  t_status task = due ->
  userRow w (t_userId task) = Some user ->
  (actionType task = "remind" \/
   exists text, claude E DRAFTING_SYSTEM (draftPrompt task user) = inr text /\
                d = draftFrom E task text) ->
  let now := clock E (clockReads w) in
  let channel_ := replyChannel w task user in
  exists w' o,
    processExecute E job w = (Ok tt, w') /\
    outbox w' = outbox w ++ [o] /\
    o_taskId o = Some (ej_taskId job) /\ o_userId o = t_userId task /\
    o_status o = ob_queued /\ attempts o = 0 /\ o_channel o = channel_ /\
    payload o = {| to := addressOn channel_ user;
                   subject := Some (fst (messageOf task user d));
                   body := snd (messageOf task user d) |} /\
    taskRow w' (ej_taskId job)
      = Some (task_with_status sending (task_executing now task)) /\
    map entryOf (taskEvents w') = map entryOf (taskEvents w) ++
      (ej_taskId job, t_userId task, ev_executing, NoPayload)
      :: (if String.eqb (actionType task) "remind" then []
          else [(ej_taskId job, t_userId task, ev_draft_generated, Draft d)])
      ++ [(ej_taskId job, t_userId task, ev_sending, NoPayload)] /\
    sendCalls w' = sendCalls w /\ inboundMessages w' = inboundMessages w /\
    users w' = users w /\
    map taskId (tasks w') = map taskId (tasks w) /\
    outboxId o = uuid E (idsIssued w) /\
    exists k, nextRetryAt o = clock E k /\ (k <= clockReads w')%nat.
Proof.
  intros T D U Msg. cbv zeta.
  unfold taskRow in T. unfold userRow in U.
  destruct (updateFirst_hit _ (task_executing (clock E (clockReads w))) _ T)
    as (rows1 & U1 & F1); [cbn; apply find_some in T; apply T|].
  destruct (updateFirst_hit _ (task_with_status sending) _ F1)
    as (rows2 & U2 & F2); [cbn; apply find_some in T; apply T|].
  destruct (updateFirst_frame taskId (ej_taskId job)
              (task_executing (clock E (clockReads w))) (tasks w) (fun _ => eq_refl) U1)
    as (K1 & _).
  destruct (updateFirst_frame taskId (ej_taskId job) (task_with_status sending) rows1
              (fun _ => eq_refl) U2) as (K2 & _).
  unfold processExecute, task_findUnique_include_user, inboundMessage_findUnique_inboundId.
  unfold messageOf, replyChannel, addressOn, inboundRow, taskRow. cbv zeta.
  destruct (String.eqb (actionType task) "remind") eqn:Rm.
  - do 2 eexists. split.
    + eapply run_bind; [apply log_run|].
      eapply run_bind; [apply gets_run|]. cbn [tasks users with_logs]. rewrite T.
      cbn [option_map]. rewrite U, D. cbn [TaskStatus_eqb negb].
      eapply run_bind; [reflexivity|].
      eapply run_bind; [apply task_update_rows; exact U1|].
      eapply run_bind; [apply recordTaskEvent_run|].
      eapply run_bind; [apply gets_run|]. rewrite Rm.
      eapply run_bind; [reflexivity|].
      eapply run_bind; [apply outboxMessage_create_row|].
      eapply run_bind; [apply task_update_rows; exact U2|].
      eapply run_bind; [apply recordTaskEvent_run|].
      apply log_run.
    + cbn. rewrite !map_app. cbn. rewrite <- !app_assoc. repeat split;
        [exact F2|congruence|eexists; split; [reflexivity|cbn; lia]].
  - destruct Msg as [A|(text & C & ->)];
      [rewrite A in Rm; discriminate|].
    destruct (draftFollowUp_run _ _ _ C) as (entries & Dr).
    do 2 eexists. split.
    + eapply run_bind; [apply log_run|].
      eapply run_bind; [apply gets_run|]. cbn [tasks users with_logs]. rewrite T.
      cbn [option_map]. rewrite U, D. cbn [TaskStatus_eqb negb].
      eapply run_bind; [reflexivity|].
      eapply run_bind; [apply task_update_rows; exact U1|].
      eapply run_bind; [apply recordTaskEvent_run|].
      eapply run_bind; [apply gets_run|]. rewrite Rm.
      eapply run_bind.
      { eapply run_bind; [apply Dr|].
        eapply run_bind; [apply recordTaskEvent_run|]. reflexivity. }
      eapply run_bind; [apply outboxMessage_create_row|].
      eapply run_bind; [apply task_update_rows; exact U2|].
      eapply run_bind; [apply recordTaskEvent_run|].
      apply log_run.
    + cbn. rewrite !map_app. cbn. rewrite <- !app_assoc. repeat split;
        [exact F2|congruence|eexists; split; [reflexivity|cbn; lia]].
Qed.

(** X5: For a task that is [due] and whose user exists, when the drafting call
    (not made for a [remind] task) returns: the job returns, having queued
    exactly one outbox row for the task, on the channel of the source
    inbound message (else the fallback preference, else [email]), addressed
    to the user on that channel, with the reminder or the draft as its
    message; the task is [sending], its attempt count is incremented and
    its last attempt stamped; the events are [executing], then
    [draft_generated] unless the action is [remind], then [sending]; no
    send API is called.  Run again, the job skips the task. *)
Theorem due_task_is_executed_once job w task user d :
  taskRow w (ej_taskId job) = Some task ->
  t_status task = due ->
  userRow w (t_userId task) = Some user ->
  (actionType task = "remind" \/
   exists text, claude E DRAFTING_SYSTEM (draftPrompt task user) = inr text /\
                d = draftFrom E task text) ->
  let now := clock E (clockReads w) in
  let channel_ := replyChannel w task user in
  exists w' o,
    processExecute E job w = (Ok tt, w') /\
    outbox w' = outbox w ++ [o] /\
    o_taskId o = Some (ej_taskId job) /\ o_userId o = t_userId task /\
    o_status o = ob_queued /\ attempts o = 0 /\ o_channel o = channel_ /\
    payload o = {| to := addressOn channel_ user;
                   subject := Some (fst (messageOf task user d));
                   body := snd (messageOf task user d) |} /\
    taskRow w' (ej_taskId job)
      = Some (task_with_status sending (task_executing now task)) /\
    map entryOf (taskEvents w') = map entryOf (taskEvents w) ++
      (ej_taskId job, t_userId task, ev_executing, NoPayload)
      :: (if String.eqb (actionType task) "remind" then []
          else [(ej_taskId job, t_userId task, ev_draft_generated, Draft d)])
      ++ [(ej_taskId job, t_userId task, ev_sending, NoPayload)] /\
    sendCalls w' = sendCalls w /\
    exists entries,
      processExecute E job w' = (Ok tt, with_logs (fun l => l ++ entries) w').
Proof.
  intros T D U Msg. cbv zeta.
  destruct (@processExecute_run job w task user d T D U Msg)
    as (w' & o & Run & O & A1 & A2 & A3 & A4 & A5 & A6 & Row & Ev & Calls & _).
  exists w', o. repeat (split; [assumption|]).
  apply processExecute_skips. intros t Ht. rewrite Row in Ht.
  inversion Ht; subst. discriminate.
Qed.

(** X6: When the drafting call throws, the job throws the same error after it
    has moved the task to [executing]: nothing is queued, and the job run
    again (as the queue does for a failed job) skips the task, which stays
    [executing]. *)
Theorem failed_draft_strands_the_task job w task user e :
  taskRow w (ej_taskId job) = Some task ->
  t_status task = due ->
  userRow w (t_userId task) = Some user ->
  actionType task <> "remind" ->
  claude E DRAFTING_SYSTEM (draftPrompt task user) = inl e ->
  exists w',
    processExecute E job w = (Threw e, w') /\
    taskRow w' (ej_taskId job) = Some (task_executing (clock E (clockReads w)) task) /\
    outbox w' = outbox w /\
    map entryOf (taskEvents w')
    = map entryOf (taskEvents w) ++ [(ej_taskId job, t_userId task, ev_executing, NoPayload)] /\
    exists entries,
      processExecute E job w' = (Ok tt, with_logs (fun l => l ++ entries) w').
Proof.
  intros T D U Rm C.
  pose proof T as T0. unfold taskRow in T. unfold userRow in U.
  destruct (updateFirst_hit _ (task_executing (clock E (clockReads w))) _ T)
    as (rows1 & U1 & F1); [cbn; apply find_some in T; apply T|].
  apply String.eqb_neq in Rm.
  assert (Run : exists w',
            processExecute E job w = (Threw e, w') /\
            tasks w' = rows1 /\ outbox w' = outbox w /\
            map entryOf (taskEvents w')
            = map entryOf (taskEvents w)
                ++ [(ej_taskId job, t_userId task, ev_executing, NoPayload)]).
  { eexists. split.
    - unfold processExecute, task_findUnique_include_user,
        inboundMessage_findUnique_inboundId. cbv zeta.
      eapply run_bind; [apply log_run|].
      eapply run_bind; [apply gets_run|]. cbn [tasks users with_logs]. rewrite T.
      cbn [option_map]. rewrite U, D. cbn [TaskStatus_eqb negb].
      eapply run_bind; [reflexivity|].
      eapply run_bind; [apply task_update_rows; exact U1|].
      eapply run_bind; [apply recordTaskEvent_run|].
      eapply run_bind; [apply gets_run|]. rewrite Rm.
      apply run_bind_threw. apply run_bind_threw.
      apply draftFollowUp_throws. exact C.
    - cbn. rewrite map_app. repeat split. }
  destruct Run as (w' & Run & Tw & Ow & Ev).
  exists w'. split; [exact Run|]. unfold taskRow. rewrite Tw.
  split; [exact F1|]. split; [exact Ow|]. split; [exact Ev|].
  apply processExecute_skips. unfold taskRow. rewrite Tw, F1.
  intros t Ht. inversion Ht; subst. discriminate.
Qed.

End WorkerFacts.

Section IngestFacts.

Variable E : Env.

(** ** The ingest worker: what it asks, and what a failure leaves *)

Lemma inboundMessage_update_status_rows id st w rows :
  updateFirst (fun i => String.eqb (inboundId i) id) (inbound_with_status st)
    (inboundMessages w) = Some rows ->
  inboundMessage_update_status id st w
  = (Ok tt, with_inboundMessages (fun _ => rows) w).
Proof. intros U. unfold inboundMessage_update_status, bind, gets. cbn. now rewrite U. Qed.

(** Up to the extractor's answer, an ingest job for a present row. *)
Ltac ingest_start In_ Us :=
  unfold processIngest; cbv zeta;
  unfold inboundMessage_findUnique_inboundId, user_findUnique_userId;
  eapply run_bind; [apply log_run|];
  eapply run_bind; [apply gets_run|]; cbn [inboundMessages with_logs]; rewrite In_;
  eapply run_bind; [apply gets_run|]; cbn [users with_logs]; rewrite Us;
  eapply run_bind; [reflexivity|]; cbn [clockReads with_logs].

Lemma clarification_run job w inbound user x :
  inboundRow w (ij_inboundId job) = Some inbound ->
  userRow w (ij_userId job) = Some user ->
  extractorSays E (safeTextOf inbound) (timezoneOf user)
    (toISOString E (clock E (clockReads w))) x ->
  needs_clarification_ x = true ->
  sourceTaken w (ij_inboundId job) = false ->
  exists w' t o,
    processIngest E job w = (Ok tt, w') /\
    tasks w' = tasks w ++ [t] /\
    t_status t = needs_clarification /\ dueAt t = None /\
    actionType t = Js.or (action_type x) (defaultActionOf user) /\
    contactHint t = Js.orNull (contact_hint x) /\
    context t = Js.orNull (context_ x) /\
    outbox w' = outbox w ++ [o] /\
    o_taskId o = Some (taskId t) /\ o_status o = ob_queued /\
    o_channel o = in_channel inbound /\
    payload o = {| to := addressOn (in_channel inbound) user;
                   subject := Some "Quick question about your follow-up";
                   body := clarifying_question x |} /\
    map entryOf (taskEvents w') = map entryOf (taskEvents w) ++
      [(taskId t, ij_userId job, ev_created, Source "ingest");
       (taskId t, ij_userId job, ev_clarification_sent,
        Question (clarifying_question x))] /\
    option_map in_status (inboundRow w' (ij_inboundId job)) = Some processed.
Proof.
  intros In_ Us Says NC Free.
  unfold inboundRow in In_. unfold userRow in Us.
  destruct (updateFirst_hit _ (inbound_with_status processed) _ In_)
    as (rows & Up & Fd); [cbn; apply find_some in In_; apply In_|].
  set (w1 := with_clockReads S
               (with_logs (fun l => l ++ [(lvl_info, "Processing ingest job")]) w)).
  destruct (@extractFollowUp_says E _ _ _ x w1 Says) as (entries & Ex).
  do 3 eexists. split.
  - ingest_start In_ Us.
    eapply run_bind; [exact Ex|]. rewrite NC.
    eapply run_bind.
    { eapply run_bind; [apply task_create_run; [discriminate|exact Free]|].
      eapply run_bind; [apply recordTaskEvent_run|].
      eapply run_bind; [apply recordTaskEvent_run|].
      eapply run_bind; [apply outboxMessage_create_row|]. apply log_run. }
    apply inboundMessage_update_status_rows. exact Up.
  - cbn. rewrite !map_app. cbn. rewrite <- !app_assoc. unfold inboundRow. cbn.
    rewrite Fd. repeat split.
Qed.

(** X7: When the extraction asks for clarification, the job creates the task
    [needs_clarification] without a due date, with the action of the
    extraction (else the user's default), and queues for it one outbox row
    on the channel of the inbound message, addressed to the user on that
    channel, whose body is the clarifying question; the events are
    [created] and [clarification_sent] with the question. *)
Theorem clarification_is_asked_on_the_inbound_channel job w inbound user x :
  inboundRow w (ij_inboundId job) = Some inbound ->
  userRow w (ij_userId job) = Some user ->
  extractorSays E (safeTextOf inbound) (timezoneOf user)
    (toISOString E (clock E (clockReads w))) x ->
  needs_clarification_ x = true ->
  sourceTaken w (ij_inboundId job) = false ->
  exists w' t o,
    processIngest E job w = (Ok tt, w') /\
    tasks w' = tasks w ++ [t] /\
    t_status t = needs_clarification /\ dueAt t = None /\
    actionType t = Js.or (action_type x) (defaultActionOf user) /\
    contactHint t = Js.orNull (contact_hint x) /\
    context t = Js.orNull (context_ x) /\
    outbox w' = outbox w ++ [o] /\
    o_taskId o = Some (taskId t) /\ o_status o = ob_queued /\
    o_channel o = in_channel inbound /\
    payload o = {| to := addressOn (in_channel inbound) user;
                   subject := Some "Quick question about your follow-up";
                   body := clarifying_question x |} /\
    map entryOf (taskEvents w') = map entryOf (taskEvents w) ++
      [(taskId t, ij_userId job, ev_created, Source "ingest");
       (taskId t, ij_userId job, ev_clarification_sent,
        Question (clarifying_question x))].
Proof.
  intros In_ Us Says NC Free.
  destruct (@clarification_run job w inbound user x In_ Us Says NC Free)
    as (w' & t & o & Run & T & A1 & A2 & A3 & A4 & A5 & O & B1 & B2 & B3 & B4 & Ev & _).
  exists w', t, o. repeat (split; [assumption|]). exact Ev.
Qed.

(** X8: When the extraction is clear and its date, if it gives one, parses,
    the job creates the task [pending] with that due instant and records
    the events [created] and [scheduled] with the instant.  When the
    instant can be formatted in the time zone of the user, or there is
    none, the job queues one outbox row for the task on the channel of the
    inbound message, addressed to the user on that channel, with subject
    [Follow-up scheduled] and the confirmation as its body: the label of
    the action the extraction names, the formatted date (or [the scheduled
    time]) and the contact.  When the engine does not know the time zone,
    the job throws its error at that point: the task and its two events
    are written, nothing is queued and the inbound message is left as it
    was. *)
Theorem schedule_is_confirmed_on_the_inbound_channel job w inbound user x :
  inboundRow w (ij_inboundId job) = Some inbound ->
  userRow w (ij_userId job) = Some user ->
  extractorSays E (safeTextOf inbound) (timezoneOf user)
    (toISOString E (clock E (clockReads w))) x ->
  needs_clarification_ x = false ->
  requestedDue E x <> Some None ->
  sourceTaken w (ij_inboundId job) = false ->
  exists w' t,
    tasks w' = tasks w ++ [t] /\
    t_status t = pending /\ dueAt t = dueOf E x /\
    actionType t = Js.or (action_type x) (defaultActionOf user) /\
    map entryOf (taskEvents w') = map entryOf (taskEvents w) ++
      [(taskId t, ij_userId job, ev_created, Source "ingest");
       (taskId t, ij_userId job, ev_scheduled,
        DueAtIso (option_map (toISOString E) (dueOf E x)))] /\
    match friendlyDateOf E user (dueOf E x) with
    | Some friendlyDate =>
        processIngest E job w = (Ok tt, w') /\
        exists o,
          outbox w' = outbox w ++ [o] /\
          o_taskId o = Some (taskId t) /\ o_status o = ob_queued /\
          o_channel o = in_channel inbound /\
          payload o = {| to := addressOn (in_channel inbound) user;
                         subject := Some "Follow-up scheduled";
                         body := confirmationOf x friendlyDate |} /\
          inboundRow w' (ij_inboundId job) = Some (inbound_with_status processed inbound)
    | None =>
        processIngest E job w = (Threw (InvalidTimeZone (timezoneOf user)), w') /\
        outbox w' = outbox w /\ inboundMessages w' = inboundMessages w
    end.
Proof.
  intros In_ Us Says NC Due Free.
  unfold inboundRow in In_. unfold userRow in Us.
  destruct (updateFirst_hit _ (inbound_with_status processed) _ In_)
    as (rows & Up & Fd); [cbn; apply find_some in In_; apply In_|].
  set (w1 := with_clockReads S
               (with_logs (fun l => l ++ [(lvl_info, "Processing ingest job")]) w)).
  destruct (@extractFollowUp_says E _ _ _ x w1 Says) as (entries & Ex).
  unfold friendlyDateOf, dueOf, confirmationOf, timezoneOf, requestedDue in *.
  rewrite NC in *.
  destruct (if Js.truthyOpt (due_at_iso x)
            then option_map (parseDate E) (due_at_iso x) else None) as [[d|]|] eqn:DD;
    [|congruence|].
  - destruct (toLocaleString E d _) as [friendlyDate|] eqn:TL.
    + do 2 eexists. split; [|split; [|split; [|split; [|split; [|split]]]]].
      6: { ingest_start In_ Us.
           eapply run_bind; [exact Ex|]. rewrite NC. cbv zeta. rewrite DD.
           eapply run_bind.
           { eapply run_bind; [apply task_create_run; [discriminate|exact Free]|].
             eapply run_bind; [apply recordTaskEvent_run|].
             eapply run_bind; [apply recordTaskEvent_run|].
             eapply run_bind; [rewrite TL; reflexivity|].
             eapply run_bind; [apply outboxMessage_create_row|]. apply log_run. }
           apply inboundMessage_update_status_rows. exact Up. }
      all: cbn; rewrite ?map_app; cbn; rewrite <- ?app_assoc; try reflexivity.
      eexists. unfold inboundRow. cbn. rewrite Fd. repeat split.
    + do 2 eexists. split; [|split; [|split; [|split; [|split; [|split]]]]].
      6: { ingest_start In_ Us.
           eapply run_bind; [exact Ex|]. rewrite NC. cbv zeta. rewrite DD.
           apply run_bind_threw.
           eapply run_bind; [apply task_create_run; [discriminate|exact Free]|].
           eapply run_bind; [apply recordTaskEvent_run|].
           eapply run_bind; [apply recordTaskEvent_run|].
           apply run_bind_threw. rewrite TL. reflexivity. }
      all: cbn; rewrite ?map_app; cbn; rewrite <- ?app_assoc; try reflexivity.
      split; reflexivity.
  - do 2 eexists. split; [|split; [|split; [|split; [|split; [|split]]]]].
    6: { ingest_start In_ Us.
         eapply run_bind; [exact Ex|]. rewrite NC. cbv zeta. rewrite DD.
         eapply run_bind.
         { eapply run_bind; [apply task_create_run; [discriminate|exact Free]|].
           eapply run_bind; [apply recordTaskEvent_run|].
           eapply run_bind; [apply recordTaskEvent_run|].
           eapply run_bind; [reflexivity|].
           eapply run_bind; [apply outboxMessage_create_row|]. apply log_run. }
         apply inboundMessage_update_status_rows. exact Up. }
    all: cbn; rewrite ?map_app; cbn; rewrite <- ?app_assoc; try reflexivity.
    eexists. unfold inboundRow. cbn. rewrite Fd. repeat split.
Qed.

Lemma extractFollowUp_falls_back text tz iso answer :
  claude E EXTRACTION_SYSTEM
    ("Current date/time: " ++ iso ++ Js.nl ++ "User timezone: " ++ tz ++ Js.nl ++ Js.nl
       ++ "User message:" ++ Js.nl ++ text)%string = inr answer ->
  parseExtraction E answer = None ->
  extractorSays E text tz iso
    {| needs_clarification_ := true; clarifying_question := rephrase;
       due_at_iso := None; action_type := "remind_and_draft";
       contact_hint := ""; context_ := text |}.
Proof.
  intros C P w. unfold extractFollowUp, callClaude, bind, log, modify, ret. cbn [fst snd].
  rewrite C, P. reflexivity.
Qed.

(** X9: When the answer of the model is not JSON, so that [JSON.parse]
    throws, the job does not fail: it creates the task
    [needs_clarification] with the redacted text as its context and no
    contact, and queues the request to rephrase. *)
Theorem unparseable_extraction_asks_to_rephrase job w inbound user answer :
  inboundRow w (ij_inboundId job) = Some inbound ->
  userRow w (ij_userId job) = Some user ->
  claude E EXTRACTION_SYSTEM (extractionPrompt E w inbound user) = inr answer ->
  parseExtraction E answer = None ->
  sourceTaken w (ij_inboundId job) = false ->
  exists w' t o,
    processIngest E job w = (Ok tt, w') /\
    tasks w' = tasks w ++ [t] /\
    t_status t = needs_clarification /\ dueAt t = None /\
    actionType t = "remind_and_draft" /\ contactHint t = None /\
    context t = Js.orNull (safeTextOf inbound) /\
    outbox w' = outbox w ++ [o] /\
    o_taskId o = Some (taskId t) /\ o_status o = ob_queued /\
    body (payload o) = rephrase /\
    option_map in_status (inboundRow w' (ij_inboundId job)) = Some processed.
Proof.
  intros In_ Us C P Free.
  pose proof (extractFollowUp_falls_back _ _ _ C P) as Says.
  destruct (@clarification_run job w inbound user _ In_ Us Says eq_refl Free)
    as (w' & t & o & Run & T & A1 & A2 & A3 & A4 & A5 & O & B1 & B2 & B3 & B4 & _ & I).
  exists w', t, o. rewrite B4. cbn in A3, A4, A5.
  repeat (split; [assumption|]). split; [reflexivity|exact I].
Qed.

(** X10: When the call to the model throws, the job throws the same error and
    has written nothing: the tables and the queues are as before and the
    inbound row keeps its status. *)
Theorem failed_extraction_writes_nothing job w inbound user e :
  inboundRow w (ij_inboundId job) = Some inbound ->
  userRow w (ij_userId job) = Some user ->
  claude E EXTRACTION_SYSTEM (extractionPrompt E w inbound user) = inl e ->
  exists w', processIngest E job w = (Threw e, w') /\ sameStore w w'.
Proof.
  intros In_ Us C. unfold inboundRow in In_. unfold userRow in Us.
  eexists. split.
  - ingest_start In_ Us.
    apply run_bind_threw.
    unfold extractFollowUp. eapply run_bind; [apply log_run|].
    apply run_bind_threw. unfold callClaude.
    unfold extractionPrompt, safeTextOf, timezoneOf in C. rewrite C. reflexivity.
  - repeat split.
Qed.

(** X11: When the extraction gives a date that does not parse, the store
    refuses the task: the job throws and has written nothing, so the
    inbound row is not marked [processed]. *)
Theorem unparseable_date_fails_the_job job w inbound user x s :
  inboundRow w (ij_inboundId job) = Some inbound ->
  userRow w (ij_userId job) = Some user ->
  extractorSays E (safeTextOf inbound) (timezoneOf user)
    (toISOString E (clock E (clockReads w))) x ->
  needs_clarification_ x = false ->
  due_at_iso x = Some s -> s <> "" -> parseDate E s = None ->
  exists w',
    processIngest E job w = (Threw PrismaValidation, w') /\ sameStore w w'.
Proof.
  intros In_ Us Says NC Iso Ne P. unfold inboundRow in In_. unfold userRow in Us.
  set (w1 := with_clockReads S
               (with_logs (fun l => l ++ [(lvl_info, "Processing ingest job")]) w)).
  destruct (@extractFollowUp_says E _ _ _ x w1 Says) as (entries & Ex).
  eexists. split.
  - ingest_start In_ Us.
    eapply run_bind; [exact Ex|]. rewrite NC, Iso.
    destruct s as [|c s]; [congruence|]. cbn [Js.truthyOpt Js.truthy option_map].
    rewrite P. apply run_bind_threw. apply run_bind_threw. reflexivity.
  - repeat split.
Qed.

(** X12: Whatever its outcome, an ingest job changes no user and no existing
    task or outbox row: it adds at most one task and at most one outbox
    row, and an outbox row only with the task it is linked to. *)
Theorem ingest_only_appends job w :
  let w' := snd (processIngest E job w) in
  users w' = users w /\
  exists ts os,
    tasks w' = tasks w ++ ts /\ outbox w' = outbox w ++ os /\
    (length os <= length ts <= 1)%nat /\
    Forall (fun o => o_status o = ob_queued /\
                     exists t, In t ts /\ o_taskId o = Some (taskId t)) os.
Proof.
  cbv zeta.
  destruct (processIngest_outcome E job w)
    as [(U & _ & T & O & _)|(_ & t & T & Src & U & [(o & O & St & Lk & _)|(O & _)])].
  - split; [exact U|]. exists [], []. rewrite !app_nil_r.
    repeat split; auto; cbn; lia.
  - split; [exact U|]. exists [t], [o].
    split; [exact T|]. split; [exact O|]. split; [cbn; lia|].
    constructor; [|constructor]. split; [exact St|]. exists t. split; [now left|exact Lk].
  - split; [exact U|]. exists [t], []. rewrite app_nil_r.
    split; [exact T|]. split; [exact O|]. split; [cbn; lia|constructor].
Qed.


End IngestFacts.

Section IngressFacts.

Variable E : Env.

(** ** The email webhook: rejections and repetition *)

(** X13: A request that fails the signature check is answered 401 and one whose
    body fails the schema 400, in that order of precedence; neither writes
    anything, and no other request has been given the turn. *)
Theorem rejected_webhook_writes_nothing others request w :
  (EMAIL_WEBHOOK_SECRET E <> "" ->
   x_webhook_signature request
     <> Some (hmacHex E (EMAIL_WEBHOOK_SECRET E) (requestBody request)) ->
   exists message w',
     emailRoutes E others request w
     = (Ok {| status := 401; sent := ErrorBody "UNAUTHORIZED" message |}, w') /\
     sameStore w w') /\
  (EMAIL_WEBHOOK_SECRET E = "" \/
   (x_webhook_signature request
      = Some (hmacHex E (EMAIL_WEBHOOK_SECRET E) (requestBody request)) /\
    hmacHex E (EMAIL_WEBHOOK_SECRET E) (requestBody request) <> "") ->
   emailBodySchema E (requestBody request) = false ->
   exists w',
     emailRoutes E others request w
     = (Ok {| status := 400; sent := InvalidPayload |}, w') /\
     sameStore w w').
Proof.
  split.
  - intros Secret Bad. unfold emailRoutes, postWebhookEmail, validateEmailWebhook.
    destruct (EMAIL_WEBHOOK_SECRET E) as [|c secret] eqn:Sec; [congruence|].
    cbn [Js.truthy negb].
    destruct (x_webhook_signature request) as [[|c' sig]|] eqn:Sig; cbn [Js.truthy negb].
    + do 2 eexists. split.
      * eapply run_catch; [apply run_bind_threw; reflexivity|].
        cbn [errorHandler UnauthorizedError]. eapply run_bind; [apply log_run|].
        reflexivity.
      * repeat split.
    + destruct (String.eqb (String c' sig) (hmacHex E (String c secret) (requestBody request)))
        eqn:Eq; [apply String.eqb_eq in Eq; congruence|]. cbn [negb].
      do 2 eexists. split.
      * eapply run_catch.
        -- apply run_bind_threw. eapply run_bind; [apply log_run|]. reflexivity.
        -- cbn [errorHandler UnauthorizedError]. eapply run_bind; [apply log_run|].
           reflexivity.
      * repeat split.
    + do 2 eexists. split.
      * eapply run_catch; [apply run_bind_threw; reflexivity|].
        cbn [errorHandler UnauthorizedError]. eapply run_bind; [apply log_run|].
        reflexivity.
      * repeat split.
  - intros Signed Schema.
    assert (Valid : exists entries, forall w,
              validateEmailWebhook E request w
              = (Ok tt, with_logs (fun l => l ++ entries) w)).
    { unfold validateEmailWebhook. destruct Signed as [Empty|(Sig & Ne)].
      - rewrite Empty. cbn [Js.truthy negb]. eexists. intros w0. apply log_run.
      - destruct (Js.truthy (EMAIL_WEBHOOK_SECRET E)); cbn [negb];
          [|eexists; intros w0; apply log_run].
        rewrite Sig.
        destruct (hmacHex E (EMAIL_WEBHOOK_SECRET E) (requestBody request)) as [|c s] eqn:Hx;
          [congruence|].
        cbn [Js.truthy negb]. rewrite String.eqb_refl. cbn [negb].
        exists []. intros w0. unfold ret, with_logs. rewrite app_nil_r. now destruct w0. }
    destruct Valid as (entries & Val).
    eexists. split.
    + unfold emailRoutes, postWebhookEmail. apply run_try.
      eapply run_bind; [apply Val|]. rewrite Schema. cbn [negb].
      eapply run_bind; [apply log_run|]. reflexivity.
    + repeat split.
Qed.

Lemma validateEmailWebhook_passes request :
  validRequest E request ->
  exists entries, forall w,
    validateEmailWebhook E request w = (Ok tt, with_logs (fun l => l ++ entries) w).
Proof.
  intros ([Empty|(Sig & Ne)] & _); unfold validateEmailWebhook.
  - rewrite Empty. cbn [Js.truthy negb]. eexists. intros w. apply log_run.
  - destruct (Js.truthy (EMAIL_WEBHOOK_SECRET E)); cbn [negb];
      [|eexists; intros w; apply log_run].
    rewrite Sig.
    destruct (hmacHex E (EMAIL_WEBHOOK_SECRET E) (requestBody request)) as [|c s] eqn:Hx;
      [congruence|].
    cbn [Js.truthy negb]. rewrite String.eqb_refl. cbn [negb].
    exists []. intros w. unfold ret, with_logs. rewrite app_nil_r. now destruct w.
Qed.

(** The route run alone, on a valid request of a known sender. *)
Lemma emailRoutes_alone request w user :
  validRequest E request ->
  senderOf w (from (requestBody request)) = Some user ->
  let key := (userId user ++ ":" ++ messageId (requestBody request))%string in
  exists w',
    (inboundByKey w key <> None /\
     emailRoutes E (fun x => x) request w
       = (Ok {| status := 200; sent := Duplicate |}, w') /\
     sameStore w w') \/
    (inboundByKey w key = None /\
     exists row,
       emailRoutes E (fun x => x) request w
         = (Ok {| status := 200; sent := Accepted (inboundId row) |}, w') /\
       inboundMessages w' = inboundMessages w ++ [row] /\
       idempotencyKey row = key /\
       ingestQueue w' = ingestQueue w ++ [ingestJob row] /\
       users w' = users w /\ tasks w' = tasks w /\ outbox w' = outbox w /\
       taskEvents w' = taskEvents w /\ executeQueue w' = executeQueue w /\
       row = newInboundMessage (uuid E (idsIssued w)) (clock E (clockReads w))
               (userId user) "email" (messageId (requestBody request)) key
               (Some (subject_ (requestBody request) ++ Js.nl
                        ++ textBody (requestBody request))%string) received /\
       clockReads w' = S (clockReads w)).
Proof.
  intros Valid Us. cbv zeta.
  destruct (validateEmailWebhook_passes Valid) as (entries & Val).
  destruct Valid as (_ & Schema).
  unfold senderOf in Us. unfold inboundByKey.
  destruct (find _ (inboundMessages w)) as [dup|] eqn:Dup.
  - eexists. left. split; [discriminate|]. split.
    + unfold emailRoutes, postWebhookEmail. rewrite Schema. cbn [negb]. cbv zeta.
      unfold user_findUnique_primaryEmail, inboundMessage_findUnique_idempotencyKey.
      apply run_try. eapply run_bind; [apply Val|].
      eapply run_bind; [apply gets_run|]. cbn [users with_logs]. rewrite Us.
      eapply run_bind; [apply gets_run|]. cbn [inboundMessages with_logs]. rewrite Dup.
      eapply run_bind; [apply log_run|]. reflexivity.
    + repeat split.
  - eexists. right. split; [reflexivity|]. eexists. split.
    + unfold emailRoutes, postWebhookEmail. rewrite Schema. cbn [negb]. cbv zeta.
      unfold user_findUnique_primaryEmail, inboundMessage_findUnique_idempotencyKey.
      apply run_try. eapply run_bind; [apply Val|].
      eapply run_bind; [apply gets_run|]. cbn [users with_logs]. rewrite Us.
      eapply run_bind; [apply gets_run|]. cbn [inboundMessages with_logs]. rewrite Dup.
      eapply run_bind; [reflexivity|].
      eapply run_bind; [apply inboundMessage_create_run; exact Dup|].
      eapply run_bind; [reflexivity|].
      eapply run_bind; [apply log_run|]. reflexivity.
    + cbn. repeat split.
Qed.

Lemma find_app_new {A} (p : A -> bool) l x :
  p x = true -> find p (l ++ [x]) <> None.
Proof.
  intros P. induction l as [|y l IH]; cbn; [now rewrite P|].
  destruct (p y); [discriminate|exact IH].
Qed.

(** X14: A valid request of a known sender, delivered twice to the route with
    no other request in between: the second delivery is answered
    [duplicate] and changes nothing, so the two together add at most one
    inbound message and one ingest job. *)
Theorem repeated_webhook_is_a_duplicate request w :
  validRequest E request ->
  senderOf w (from (requestBody request)) <> None ->
  let first := emailRoutes E (fun x => x) request w in
  let second := emailRoutes E (fun x => x) request (snd first) in
  fst second = Ok {| status := 200; sent := Duplicate |} /\
  sameStore (snd first) (snd second) /\
  (length (inboundMessages (snd second)) <= S (length (inboundMessages w)))%nat /\
  (length (ingestQueue (snd second)) <= S (length (ingestQueue w)))%nat.
Proof.
  intros Valid Known. cbv zeta.
  destruct (senderOf w (from (requestBody request))) as [user|] eqn:Us; [|congruence].
  assert (Again : forall w1, users w1 = users w ->
            inboundByKey w1 (userId user ++ ":" ++ messageId (requestBody request))
              <> None ->
            exists w2,
              emailRoutes E (fun x => x) request w1
                = (Ok {| status := 200; sent := Duplicate |}, w2) /\
              sameStore w1 w2).
  { intros w1 U K.
    assert (Us1 : senderOf w1 (from (requestBody request)) = Some user)
      by (unfold senderOf in *; now rewrite U).
    destruct (@emailRoutes_alone request w1 user Valid Us1)
      as (w2 & [(_ & Run & Same)|(None_ & _)]); [|congruence].
    now exists w2. }
  destruct (@emailRoutes_alone request w user Valid Us)
    as (w1 & [(K & Run & Same)|(K & row & Run & In_ & Key & Q & U & _)]);
    rewrite Run; cbn [fst snd].
  - destruct (Again w1) as (w2 & Run2 & Same2).
    + apply Same.
    + unfold inboundByKey in *. destruct Same as (_ & I & _). now rewrite I.
    + rewrite Run2. cbn [fst snd]. split; [reflexivity|]. split; [exact Same2|].
      destruct Same as (_ & I1 & _ & _ & _ & Q1 & _).
      destruct Same2 as (_ & I2 & _ & _ & _ & Q2 & _).
      rewrite I2, I1, Q2, Q1. lia.
  - destruct (Again w1) as (w2 & Run2 & Same2).
    + exact U.
    + unfold inboundByKey. rewrite In_. apply find_app_new.
      rewrite Key. apply String.eqb_refl.
    + rewrite Run2. cbn [fst snd]. split; [reflexivity|]. split; [exact Same2|].
      destruct Same2 as (_ & I2 & _ & _ & _ & Q2 & _).
      rewrite I2, In_, Q2, Q, !length_app. cbn. lia.
Qed.

Lemma find_app_last {A} (p : A -> bool) l x :
  find p l = None -> p x = true -> find p (l ++ [x]) = Some x.
Proof.
  intros F P. induction l as [|y l IH]; cbn in *; [now rewrite P|].
  destruct (p y); [discriminate|now apply IH].
Qed.

(** X15: From the webhook to the task: when the route has accepted a valid
    request of a known sender, the ingest worker, run on the job the route
    enqueued (under the idempotency key as its job id), finds the new
    inbound row and the sender, and for an extraction whose date is valid
    and can be formatted in the time zone of the sender creates one task of
    that user for that inbound message with one queued outbox row, and
    marks the inbound message [processed]. *)
Theorem accepted_email_becomes_a_task request w user x :
  let p := requestBody request in
  let key := (userId user ++ ":" ++ messageId p)%string in
  let id := uuid E (idsIssued w) in
  let w1 := snd (emailRoutes E (fun x => x) request w) in
  validRequest E request ->
  senderOf w (from p) = Some user ->
  userRow w (userId user) = Some user ->
  inboundByKey w key = None ->
  inboundRow w id = None ->
  extractorSays E (Pii.redactPii (subject_ p ++ Js.nl ++ textBody p))
    (timezoneOf user) (toISOString E (clock E (clockReads w1))) x ->
  requestedDue E x <> Some None ->
  friendlyDateOf E user (dueOf E x) <> None ->
  sourceTaken w id = false ->
  exists job w2 t o,
    ingestQueue w1 = ingestQueue w ++ [job] /\ jobId job = key /\
    processIngest E (jobData job) w1 = (Ok tt, w2) /\
    tasks w2 = tasks w ++ [t] /\
    t_userId t = userId user /\ sourceInboundId t = id /\
    t_status t = (if needs_clarification_ x then needs_clarification else pending) /\
    outbox w2 = outbox w ++ [o] /\
    o_taskId o = Some (taskId t) /\ o_status o = ob_queued /\
    option_map (fun i => (idempotencyKey i, in_status i)) (inboundRow w2 id)
    = Some (key, processed).
Proof.
  cbv zeta. intros Valid Us Ur Key Fresh Says Due Zone Free.
  destruct (@emailRoutes_alone request w user Valid Us)
    as (w1 & [(K & _)|(_ & row & Run & In_ & Kr & Q & U & T & O & _ & _ & Row & Clock)]);
    [congruence|].
  rewrite Run in *. cbn [snd] in *.
  assert (Id : inboundId row = uuid E (idsIssued w)) by (now rewrite Row).
  assert (In1 : inboundRow w1 (uuid E (idsIssued w)) = Some row).
  { unfold inboundRow in *. rewrite In_. apply find_app_last; [exact Fresh|].
    rewrite Id. apply String.eqb_refl. }
  assert (Ur1 : userRow w1 (userId user) = Some user)
    by (unfold userRow in *; now rewrite U).
  assert (Free1 : sourceTaken w1 (uuid E (idsIssued w)) = false)
    by (unfold sourceTaken in *; now rewrite T).
  assert (User : in_userId row = userId user) by (now rewrite Row).
  assert (Says1 : extractorSays E (safeTextOf row) (timezoneOf user)
                    (toISOString E (clock E (clockReads w1))) x)
    by (now rewrite Row).
  destruct (@processIngest_creates E
              {| ij_inboundId := inboundId row; ij_userId := in_userId row |} w1 row user x)
    as (t & o & w2 & Run2 & T2 & O2 & _ & Tu & Ts & St & _ & Ot & Os & I2 & _);
    cbn [ij_inboundId ij_userId]; rewrite ?Id, ?User; auto.
  cbn [ij_inboundId ij_userId] in *. rewrite Id, User in *.
  exists (ingestJob row), w2, t, o.
  split; [exact Q|]. split; [exact Kr|].
  split; [unfold ingestJob; cbn [jobData]; now rewrite Id, User|].
  rewrite I2, T2, O2, T, O.
  cbn [option_map inbound_with_status idempotencyKey in_status]. rewrite Kr.
  repeat split; auto.
Qed.

End IngressFacts.

Section WhatsAppFacts.

Variable E : Env.
Variable C : Config.

(** ** The WhatsApp webhook *)

Lemma forEach_app {A} (xs ys : list A) body w :
  forEach (xs ++ ys) body w = bind (forEach xs body) (fun _ => forEach ys body) w.
Proof.
  revert w. induction xs as [|x xs IH]; intros w; cbn [forEach app].
  - reflexivity.
  - unfold bind in *. destruct (body x w) as [[[]|e] w1]; [apply IH|reflexivity].
Qed.

(** Two nested loops visit the elements of the inner lists in order. *)
Lemma forEach_flat_map {A B} (f : A -> list B) xs body w :
  forEach xs (fun x => forEach (f x) body) w = forEach (flat_map f xs) body w.
Proof.
  revert w. induction xs as [|x xs IH]; intros w; cbn [forEach flat_map].
  - reflexivity.
  - rewrite forEach_app. unfold bind.
    destruct (forEach (f x) body w) as [[[]|e] w1]; [apply IH|reflexivity].
Qed.

Lemma forEach_ext {A} (xs : list A) body body' w :
  (forall x w0, body x w0 = body' x w0) -> forEach xs body w = forEach xs body' w.
Proof.
  intros H. revert w. induction xs as [|x xs IH]; intros w; cbn [forEach]; [reflexivity|].
  unfold bind. rewrite H. destruct (body' x w) as [[[]|e] w1]; [apply IH|reflexivity].
Qed.

Lemma whatsapp_loops body_ w :
  forEach (entry body_)
    (fun entry_ =>
       forEach (changes entry_)
         (fun change =>
            match messages (value change) with
            | None => ret tt
            | Some messages_ => forEach messages_ (ingestWhatsAppMessage E (fun x => x))
            end)) w
  = forEach (allMessages body_) (ingestWhatsAppMessage E (fun x => x)) w.
Proof.
  unfold allMessages. rewrite <- forEach_flat_map. apply forEach_ext.
  intros entry_ w0. rewrite <- forEach_flat_map. apply forEach_ext.
  intros change w1. now destruct (messages (value change)).
Qed.

Lemma validateWhatsAppWebhook_passes request :
  signedWhatsApp C request ->
  exists entries, forall w,
    validateWhatsAppWebhook C request w = (Ok tt, with_logs (fun l => l ++ entries) w).
Proof.
  intros [Empty|Sig]; unfold validateWhatsAppWebhook.
  - rewrite Empty. cbn [Js.truthy negb]. eexists. intros w. apply log_run.
  - destruct (Js.truthy (WHATSAPP_APP_SECRET C)); cbn [negb];
      [|eexists; intros w; apply log_run].
    rewrite Sig. cbn [append Js.truthy negb]. cbv zeta.
    change (String "s" ("ha256=" ++ ?x))%string with ("sha256=" ++ x)%string.
    rewrite String.eqb_refl. cbn [negb].
    exists []. intros w. unfold ret, with_logs. rewrite app_nil_r. now destruct w.
Qed.

Lemma find_app_some {A} (p : A -> bool) l l' :
  find p l <> None -> find p (l ++ l') <> None.
Proof.
  induction l as [|x l IH]; cbn; [congruence|].
  destruct (p x); [discriminate|exact IH].
Qed.

(** One message: either a new inbound message and its job, or nothing. *)
Lemma ingestWhatsAppMessage_run msg w :
  exists w',
    ingestWhatsAppMessage E (fun x => x) msg w = (Ok tt, w') /\
    ((exists user,
        let key := (userId user ++ ":" ++ wa_id msg)%string in
        let row := newInboundMessage (uuid E (idsIssued w)) (clock E (clockReads w))
                     (userId user) "whatsapp" (wa_id msg) key (wa_text msg) received in
        takenUp msg = true /\ whatsappSender w (wa_from msg) = Some user /\
        inboundByKey w key = None /\
        inboundMessages w' = inboundMessages w ++ [row] /\
        ingestQueue w' = ingestQueue w ++ [ingestJob row] /\
        users w' = users w /\ tasks w' = tasks w /\ outbox w' = outbox w /\
        taskEvents w' = taskEvents w /\ executeQueue w' = executeQueue w) \/
     (sameStore w w' /\ (takenUp msg = true -> storedFor w msg))).
Proof.
  unfold ingestWhatsAppMessage, takenUp, storedFor, whatsappSender, inboundByKey.
  unfold user_findUnique_whatsappNumber, inboundMessage_findUnique_idempotencyKey.
  destruct (String.eqb (wa_type msg) "text"); cbn [negb orb andb];
    [|exists w; split; [reflexivity|right; split; [apply sameStore_refl|discriminate]]].
  destruct (Js.truthyOpt (wa_text msg)); cbn [negb];
    [|exists w; split; [reflexivity|right; split; [apply sameStore_refl|discriminate]]].
  destruct (find _ (users w)) as [user|] eqn:Us.
  - destruct (find (fun i => String.eqb (idempotencyKey i)
                               (userId user ++ ":" ++ wa_id msg)) (inboundMessages w))
      as [dup|] eqn:Dup.
    + eexists. split.
      * eapply run_bind; [apply gets_run|]. rewrite Us.
        eapply run_bind; [apply gets_run|]. rewrite Dup. apply log_run.
      * right. split; [repeat split|]. intros _ user' Eq. inversion Eq; subst.
        rewrite Dup. discriminate.
    + eexists. split.
      * eapply run_bind; [apply gets_run|]. rewrite Us.
        eapply run_bind; [apply gets_run|]. rewrite Dup.
        eapply run_bind; [reflexivity|].
        eapply run_bind; [apply inboundMessage_create_run; exact Dup|].
        eapply run_bind; [reflexivity|]. apply log_run.
      * left. exists user. cbn. repeat split. exact Dup.
  - eexists. split.
    + eapply run_bind; [apply gets_run|]. rewrite Us. apply log_run.
    + right. split; [repeat split|]. intros _ user Eq. discriminate.
Qed.

Lemma storedFor_grows w w' rows msg :
  users w' = users w -> inboundMessages w' = inboundMessages w ++ rows ->
  storedFor w msg -> storedFor w' msg.
Proof.
  intros U I St user Us. unfold whatsappSender in Us. rewrite U in Us.
  specialize (St user Us). unfold inboundByKey in *. rewrite I. now apply find_app_some.
Qed.

Lemma whatsapp_batch msgs : forall w,
  exists w' rows,
    forEach msgs (ingestWhatsAppMessage E (fun x => x)) w = (Ok tt, w') /\
    inboundMessages w' = inboundMessages w ++ rows /\
    ingestQueue w' = ingestQueue w ++ map ingestJob rows /\
    users w' = users w /\ tasks w' = tasks w /\ outbox w' = outbox w /\
    taskEvents w' = taskEvents w /\ executeQueue w' = executeQueue w /\
    Forall (fun row =>
              in_channel row = "whatsapp" /\ in_status row = received /\
              exists msg user,
                In msg msgs /\ takenUp msg = true /\
                whatsappSender w (wa_from msg) = Some user /\
                in_userId row = userId user /\ providerMessageId row = wa_id msg /\
                idempotencyKey row = (userId user ++ ":" ++ wa_id msg)%string /\
                rawTextRedacted row = wa_text msg) rows /\
    (forall msg, In msg msgs -> takenUp msg = true -> storedFor w' msg).
Proof.
  induction msgs as [|m ms IH]; intros w; cbn [forEach].
  - exists w, []. cbn. rewrite !app_nil_r. repeat split; auto. intros msg [].
  - destruct (ingestWhatsAppMessage_run m w) as (w1 & Run1 & Step).
    destruct (IH w1) as (w' & rows & Run & I & Q & U & T & O & Ev & Xq & Rows & St).
    assert (Sender : users w1 = users w ->
              Forall (fun row =>
                in_channel row = "whatsapp" /\ in_status row = received /\
                exists msg user,
                  In msg (m :: ms) /\ takenUp msg = true /\
                  whatsappSender w (wa_from msg) = Some user /\
                  in_userId row = userId user /\ providerMessageId row = wa_id msg /\
                  idempotencyKey row = (userId user ++ ":" ++ wa_id msg)%string /\
                  rawTextRedacted row = wa_text msg) rows).
    { intros U1. eapply Forall_impl; [|exact Rows]. cbv beta.
      intros row (A1 & A2 & msg & user & Hm & Tk & Us & Rest).
      split; [exact A1|]. split; [exact A2|]. exists msg, user.
      split; [now right|]. split; [exact Tk|]. split; [|exact Rest].
      unfold whatsappSender in *. now rewrite <- U1. }
    destruct Step as [(user & Tk & Us & Free & I1 & Q1 & U1 & T1 & O1 & Ev1 & Xq1)
                     |(Same & St1)]; cbv zeta in *.
    + eexists w', (_ :: rows). split; [unfold bind; rewrite Run1; exact Run|].
      rewrite I, I1, Q, Q1, U, U1, T, T1, O, O1, Ev, Ev1, Xq, Xq1, <- !app_assoc.
      cbn [app map]. repeat split.
      * constructor; [|now apply Sender].
        split; [reflexivity|]. split; [reflexivity|]. exists m, user.
        repeat split; auto. now left.
      * intros msg [<-|Hm] Tk'; [|now apply St].
        apply (@storedFor_grows w1 w' rows); auto.
        intros user' Us'. unfold whatsappSender in Us'. rewrite U1 in Us'.
        unfold whatsappSender in Us. rewrite Us in Us'. inversion Us'; subst user'.
        unfold inboundByKey. rewrite I1. apply find_app_new. cbn. apply String.eqb_refl.
    + destruct Same as (U1 & I1 & T1 & O1 & Ev1 & Q1 & Xq1).
      exists w', rows. split; [unfold bind; rewrite Run1; exact Run|].
      rewrite I, I1, Q, Q1, U, U1, T, T1, O, O1, Ev, Ev1, Xq, Xq1.
      repeat split; [now apply Sender|].
      intros msg [<-|Hm] Tk'; [|now apply St].
      apply (@storedFor_grows w1 w' rows); auto.
      intros user Us. unfold whatsappSender in Us. rewrite U1 in Us.
      specialize (St1 Tk' user Us). unfold inboundByKey in *. now rewrite I1.
Qed.

Lemma whatsapp_batch_again msgs : forall w,
  (forall msg, In msg msgs -> takenUp msg = true -> storedFor w msg) ->
  exists w', forEach msgs (ingestWhatsAppMessage E (fun x => x)) w = (Ok tt, w') /\ sameStore w w'.
Proof.
  induction msgs as [|m ms IH]; intros w St; cbn [forEach].
  - exists w. split; [reflexivity|apply sameStore_refl].
  - destruct (ingestWhatsAppMessage_run m w) as (w1 & Run1 & Step).
    destruct Step as [(user & Tk & Us & Free & _)|(Same & _)]; cbv zeta in *.
    + exfalso. exact (St m (or_introl eq_refl) Tk user Us Free).
    + destruct (IH w1) as (w' & Run & Same').
      * intros msg Hm Tk user Us. destruct Same as (U1 & I1 & _).
        unfold whatsappSender in Us. rewrite U1 in Us.
        specialize (St msg (or_intror Hm) Tk user Us).
        unfold inboundByKey in *. now rewrite I1.
      * exists w'. split; [unfold bind; rewrite Run1; exact Run|].
        eapply sameStore_trans; eauto.
Qed.


(** X17: The same signed payload delivered again, with no other request in
    between, gets the same answer and changes nothing in the store. *)
Theorem repeated_whatsapp_webhook_adds_nothing request w :
  signedWhatsApp C request ->
  let first := postWebhookWhatsApp E C (fun x => x) request w in
  let second := postWebhookWhatsApp E C (fun x => x) request (snd first) in
  (exists reply, fst first = Ok reply /\ fst second = Ok reply) /\
  sameStore (snd first) (snd second).
Proof.
  intros Signed. cbv zeta.
  destruct (validateWhatsAppWebhook_passes Signed) as (entries & Val).
  destruct (String.eqb (object (whatsappBody request)) "whatsapp_business_account") eqn:Obj.
  - assert (Run : forall w0 w1,
              forEach (allMessages (whatsappBody request)) (ingestWhatsAppMessage E (fun x => x))
                (with_logs (fun l => l ++ entries) w0) = (Ok tt, w1) ->
              postWebhookWhatsApp E C (fun x => x) request w0
              = (Ok {| wa_status := 200; wa_sent := StatusOnly "accepted" |}, w1)).
    { intros w0 w1 R. unfold postWebhookWhatsApp. eapply run_bind; [apply Val|].
      cbv zeta. rewrite Obj. cbn [negb].
      eapply run_bind; [rewrite whatsapp_loops; exact R|]. reflexivity. }
    destruct (whatsapp_batch (allMessages (whatsappBody request))
                (with_logs (fun l => l ++ entries) w))
      as (w1 & rows & Run1 & _ & _ & _ & _ & _ & _ & _ & _ & St).
    destruct (@whatsapp_batch_again (allMessages (whatsappBody request))
                (with_logs (fun l => l ++ entries) w1))
      as (w2 & Run2 & Same); [exact St|].
    rewrite (Run w w1 Run1). cbn [fst snd]. rewrite (Run w1 w2 Run2). cbn [fst snd].
    split; [eexists; split; reflexivity|].
    destruct Same as (A1 & A2 & A3 & A4 & A5 & A6 & A7). repeat split; assumption.
  - assert (Run : forall w0,
              postWebhookWhatsApp E C (fun x => x) request w0
              = (Ok {| wa_status := 200; wa_sent := StatusOnly "ignored" |},
                 with_logs (fun l => l ++ entries) w0)).
    { intros w0. unfold postWebhookWhatsApp. eapply run_bind; [apply Val|].
      cbv zeta. rewrite Obj. reflexivity. }
    rewrite (Run w). cbn [fst snd]. rewrite Run. cbn [fst snd].
    split; [eexists; split; reflexivity|repeat split].
Qed.

(** X18: A request that fails the signature check is answered 401 by the error
    handler; a signed payload for another object is answered 200
    [ignored]; neither writes anything, whatever other requests do
    meanwhile. *)
Theorem rejected_whatsapp_webhook_writes_nothing others request w :
  (WHATSAPP_APP_SECRET C <> "" ->
   x_hub_signature_256 request
     <> Some ("sha256=" ++ hmacHexWhatsApp C (WHATSAPP_APP_SECRET C)
                             (whatsappBody request))%string ->
   exists message w',
     served (postWebhookWhatsApp E C others request) w
     = (Ok (inr {| status := 401; sent := ErrorBody "UNAUTHORIZED" message |}), w') /\
     sameStore w w') /\
  (signedWhatsApp C request ->
   object (whatsappBody request) <> "whatsapp_business_account" ->
   exists w',
     served (postWebhookWhatsApp E C others request) w
     = (Ok (inl {| wa_status := 200; wa_sent := StatusOnly "ignored" |}), w') /\
     sameStore w w').
Proof.
  split.
  - intros Secret Bad. unfold served, postWebhookWhatsApp, validateWhatsAppWebhook.
    destruct (WHATSAPP_APP_SECRET C) as [|c secret] eqn:Sec; [congruence|].
    cbn [Js.truthy negb].
    destruct (x_hub_signature_256 request) as [[|c' sig]|] eqn:Sig; cbn [Js.truthy negb].
    + do 2 eexists. split.
      * eapply run_catch; [apply run_bind_threw; apply run_bind_threw; reflexivity|].
        cbn [errorHandler UnauthorizedError]. eapply run_bind; [|reflexivity].
        eapply run_bind; [apply log_run|]. reflexivity.
      * repeat split.
    + cbv zeta.
      destruct (String.eqb (String c' sig) _) eqn:Eq;
        [apply String.eqb_eq in Eq; congruence|]. cbn [negb].
      do 2 eexists. split.
      * eapply run_catch.
        -- apply run_bind_threw. apply run_bind_threw.
           eapply run_bind; [apply log_run|]. reflexivity.
        -- cbn [errorHandler UnauthorizedError]. eapply run_bind; [|reflexivity].
           eapply run_bind; [apply log_run|]. reflexivity.
      * repeat split.
    + do 2 eexists. split.
      * eapply run_catch; [apply run_bind_threw; apply run_bind_threw; reflexivity|].
        cbn [errorHandler UnauthorizedError]. eapply run_bind; [|reflexivity].
        eapply run_bind; [apply log_run|]. reflexivity.
      * repeat split.
  - intros Signed Obj. apply String.eqb_neq in Obj.
    destruct (validateWhatsAppWebhook_passes Signed) as (entries & Val).
    eexists. split.
    + unfold served. apply run_try. eapply run_bind; [|reflexivity].
      unfold postWebhookWhatsApp. eapply run_bind; [apply Val|].
      cbv zeta. rewrite Obj. reflexivity.
    + repeat split.
Qed.

End WhatsAppFacts.

Section AdminFacts.

Variable E : Env.
Variable C : Config.

(** ** The admin server *)

Lemma outboxMessage_update_rows id data w rows :
  updateFirst (fun o => String.eqb (outboxId o) id) data (outbox w) = Some rows ->
  outboxMessage_update id data w = (Ok tt, with_outbox (fun _ => rows) w).
Proof. intros U. unfold outboxMessage_update, bind, gets. cbn. now rewrite U. Qed.

(** X20: The retry of an outbox message answers 404 for an unknown identifier
    and 400 for a message that is not [failed], and changes nothing then.
    A [failed] message becomes [queued] with no attempts and
    [next_retry_at] at the instant of the request, every other row being
    left as it is; from that instant on, a claim of the sender with room
    for every eligible row returns it. *)
Theorem admin_retry_requeues_a_failed_message id w :
  NoDup (map outboxId (outbox w)) ->
  match outboxRow w id with
  | None =>
      postAdminOutboxRetry E id w
      = (Ok {| ad_status := 404; ad_sent := ErrorOnly "Outbox message not found" |}, w)
  | Some r =>
      if OutboxStatus_eqb (o_status r) ob_failed then
        let now := clock E (clockReads w) in
        exists w',
          postAdminOutboxRetry E id w
          = (Ok {| ad_status := 200; ad_sent := Retried id |}, w') /\
          outboxRow w' id = Some (outbox_with ob_queued 0 (Some now) r) /\
          map outboxId (outbox w') = map outboxId (outbox w) /\
          (forall o, In o (outbox w) -> outboxId o <> id -> In o (outbox w')) /\
          tasks w' = tasks w /\ taskEvents w' = taskEvents w /\
          sendCalls w' = sendCalls w /\
          forall later dbNow,
            now <= later ->
            (length (filter (isQueued later) (outbox w')) <= 20)%nat ->
            exists msg,
              In msg (snd (claimQueued later dbNow (outbox w'))) /\
              outbox_id msg = id /\ msg_attempts msg = 0
      else
        postAdminOutboxRetry E id w
        = (Ok {| ad_status := 400;
                 ad_sent := ErrorOnly "Outbox message is not in failed state" |}, w)
  end.
Proof.
  intros N. unfold outboxRow.
  destruct (find _ (outbox w)) as [r|] eqn:F.
  - destruct (OutboxStatus_eqb (o_status r) ob_failed) eqn:St.
    + cbv zeta.
      destruct (updateFirst_hit _ (outbox_with ob_queued 0 (Some (clock E (clockReads w))))
                  _ F) as (rows & U & F'); [cbn; apply find_some in F; apply F|].
      destruct (updateFirst_frame outboxId id
                  (outbox_with ob_queued 0 (Some (clock E (clockReads w))))
                  (outbox w) (fun o => eq_refl) U)
        as (Keys & Others).
      assert (Id : outboxId r = id)
        by (apply find_some in F; destruct F as (_ & K); now apply String.eqb_eq in K).
      eexists. split; [|split; [|split; [|split; [|split; [|split; [|split]]]]]].
      * unfold postAdminOutboxRetry, outboxMessage_findUnique.
        eapply run_bind; [apply gets_run|]. rewrite F, St. cbn [negb].
        eapply run_bind; [reflexivity|].
        eapply run_bind; [apply outboxMessage_update_rows; exact U|].
        eapply run_bind; [apply log_run|]. reflexivity.
      * exact F'.
      * exact Keys.
      * exact Others.
      * reflexivity.
      * reflexivity.
      * reflexivity.
      * intros later dbNow Late Room. cbn [outbox with_logs with_outbox] in *.
        exists (returning (outbox_with ob_queued 0 (Some (clock E (clockReads w))) r)).
        split; [|split; [exact Id|reflexivity]].
        apply due_row_is_claimed; auto.
        -- now rewrite Keys.
        -- apply find_some in F'. apply F'.
        -- apply isQueued_spec. split; [reflexivity|]. cbn. exact Late.
    + unfold postAdminOutboxRetry, outboxMessage_findUnique.
      eapply run_bind; [apply gets_run|]. rewrite F, St. reflexivity.
  - unfold postAdminOutboxRetry, outboxMessage_findUnique.
    eapply run_bind; [apply gets_run|]. rewrite F. reflexivity.
Qed.

(** X21: The retry of a task answers 404 for an unknown identifier and 400 for
    a task that is not [failed], and changes nothing then.  A [failed] task
    becomes [due] with an attempt count of zero, and one job [execute] for
    it, with job id [retry:<task_id>:<instant>], is appended to the execute
    queue; the executor, run on that job, then queues a new outbox message
    for the task (when the user of the task exists and the draft, if one is
    needed, is obtained). *)
Theorem admin_retry_makes_a_failed_task_due id w :
  match taskRow w id with
  | None =>
      postAdminTaskRetry E id w
      = (Ok {| ad_status := 404; ad_sent := ErrorOnly "Task not found" |}, w)
  | Some t =>
      if TaskStatus_eqb (t_status t) failed then
        exists w',
          postAdminTaskRetry E id w
          = (Ok {| ad_status := 200; ad_sent := Retried id |}, w') /\
          taskRow w' id = Some (task_retried t) /\
          map taskId (tasks w') = map taskId (tasks w) /\
          (forall t', In t' (tasks w) -> taskId t' <> id -> In t' (tasks w')) /\
          executeQueue w' = executeQueue w ++
            [{| jobName := "execute"; jobData := {| ej_taskId := id |};
                jobId := ("retry:" ++ id ++ ":" ++ Js.showZ (clock E (clockReads w)))%string |}] /\
          outbox w' = outbox w /\ users w' = users w /\
          inboundMessages w' = inboundMessages w /\
          forall user d,
            userRow w (t_userId t) = Some user ->
            (actionType t = "remind" \/
             exists text, claude E DRAFTING_SYSTEM (draftPrompt t user) = inr text /\
                          d = draftFrom E t text) ->
            exists w'' o,
              processExecute E {| ej_taskId := id |} w' = (Ok tt, w'') /\
              outbox w'' = outbox w ++ [o] /\
              o_taskId o = Some id /\ o_status o = ob_queued /\
              option_map t_status (taskRow w'' id) = Some sending
      else
        postAdminTaskRetry E id w
        = (Ok {| ad_status := 400; ad_sent := ErrorOnly "Task is not in failed state" |}, w)
  end.
Proof.
  unfold taskRow.
  destruct (find _ (tasks w)) as [t|] eqn:F.
  - destruct (TaskStatus_eqb (t_status t) failed) eqn:St.
    + destruct (updateFirst_hit _ task_retried _ F) as (rows & U & F');
        [cbn; apply find_some in F; apply F|].
      destruct (updateFirst_frame taskId id task_retried (tasks w) (fun o => eq_refl) U)
        as (Keys & Others).
      eexists. split; [|split; [|split; [|split]]].
      * unfold postAdminTaskRetry, task_findUnique.
        eapply run_bind; [apply gets_run|]. rewrite F, St. cbn [negb].
        eapply run_bind; [apply task_update_rows; exact U|].
        eapply run_bind; [reflexivity|].
        eapply run_bind; [reflexivity|].
        eapply run_bind; [apply log_run|]. reflexivity.
      * exact F'.
      * exact Keys.
      * exact Others.
      * cbn [executeQueue outbox users inboundMessages with_logs with_executeQueue
               with_clockReads with_tasks].
        repeat (split; [reflexivity|]).
        intros user d Us Msg.
        set (w' := with_logs _ _).
        destruct (@processExecute_run E {| ej_taskId := id |} w' (task_retried t) user d
                    F' eq_refl Us Msg)
          as (w'' & o & Run & O & A1 & _ & A3 & _ & _ & _ & Row & _).
        exists w'', o. cbn [ej_taskId] in *. unfold taskRow in Row. rewrite Row.
        repeat split; auto.
    + unfold postAdminTaskRetry, task_findUnique.
      eapply run_bind; [apply gets_run|]. rewrite F, St. reflexivity.
  - unfold postAdminTaskRetry, task_findUnique.
    eapply run_bind; [apply gets_run|]. rewrite F. reflexivity.
Qed.

Lemma postAdminRetentionRedact_run w :
  let cutoff := clock E (clockReads w) - RETENTION_DAYS C * 24 * 60 * 60 * 1000 in
  postAdminRetentionRedact E C w
  = (Ok {| ad_status := 200;
           ad_sent := RedactionDone
                        (length (filter (pastRetention cutoff) (inboundMessages w))) |},
     with_logs (fun l => l ++ [(lvl_info, "Retention redaction complete")])
       (with_inboundMessages
          (map (fun i => if pastRetention cutoff i then inbound_redacted i else i))
          (with_clockReads S w))).
Proof. reflexivity. Qed.

Lemma redacted_is_not_past cutoff i :
  pastRetention cutoff (if pastRetention cutoff i then inbound_redacted i else i) = false.
Proof.
  destruct (pastRetention cutoff i) eqn:P; [|exact P].
  unfold pastRetention. cbn. apply andb_false_r.
Qed.

(** X22: The retention run answers 200 with the number of rows it rewrote.  It
    rewrites exactly the rows received before the cutoff whose text is
    neither NULL nor already the marker, and of those only the text, which
    becomes the marker of [redactForRetention]; rows received at or after
    the cutoff are untouched, as is every other table.  A run that reads
    the same instant again rewrites nothing and reports zero. *)
Theorem retention_redacts_what_is_past_the_cutoff w :
  let cutoff := clock E (clockReads w) - RETENTION_DAYS C * 24 * 60 * 60 * 1000 in
  exists w' n,
    postAdminRetentionRedact E C w
    = (Ok {| ad_status := 200; ad_sent := RedactionDone n |}, w') /\
    Forall2 (fun i i' =>
               inboundId i' = inboundId i /\ in_userId i' = in_userId i /\
               in_channel i' = in_channel i /\
               providerMessageId i' = providerMessageId i /\
               idempotencyKey i' = idempotencyKey i /\
               in_status i' = in_status i /\ receivedAt i' = receivedAt i /\
               (receivedAt i < cutoff ->
                rawTextRedacted i'
                = option_map Pii.redactForRetention (rawTextRedacted i)) /\
               (cutoff <= receivedAt i -> i' = i) /\
               (i' <> i <-> pastRetention cutoff i = true))
      (inboundMessages w) (inboundMessages w') /\
    n = length (filter (pastRetention cutoff) (inboundMessages w)) /\
    users w' = users w /\ tasks w' = tasks w /\ outbox w' = outbox w /\
    taskEvents w' = taskEvents w /\
    (clock E (clockReads w') = clock E (clockReads w) ->
     exists w'',
       postAdminRetentionRedact E C w'
       = (Ok {| ad_status := 200; ad_sent := RedactionDone 0 |}, w'') /\
       inboundMessages w'' = inboundMessages w').
Proof.
  cbv zeta. rewrite postAdminRetentionRedact_run. cbv zeta.
  set (cutoff := clock E (clockReads w) - RETENTION_DAYS C * 24 * 60 * 60 * 1000).
  do 2 eexists. split; [reflexivity|].
  cbn [inboundMessages users tasks outbox taskEvents with_logs with_inboundMessages
         with_clockReads].
  split; [|split; [reflexivity|repeat (split; [reflexivity|])]].
  - apply Forall2_map_r. intros i _.
    destruct (pastRetention cutoff i) eqn:P.
    + cbn. repeat (split; [reflexivity|]).
      unfold pastRetention in P. apply andb_true_iff in P. destruct P as (Old & Text).
      apply Z.ltb_lt in Old.
      split; [|split; [lia|split; [reflexivity|]]].
      * intros _. destruct (rawTextRedacted i); [reflexivity|discriminate].
      * intros _ Eq. destruct (rawTextRedacted i) as [t|] eqn:T; [|discriminate].
        rewrite <- Eq in T. cbn in T. inversion T; subst.
        rewrite String.eqb_refl in Text. discriminate.
    + repeat (split; [reflexivity|]).
      split; [|split; [reflexivity|split; [congruence|discriminate]]].
      intros Old. unfold pastRetention in P.
      apply Z.ltb_lt in Old. rewrite Old in P. cbn in P.
      destruct (rawTextRedacted i) as [t|]; [|reflexivity].
      apply negb_false_iff, String.eqb_eq in P. now subst.
  - intros Same. rewrite postAdminRetentionRedact_run. cbv zeta.
    cbn [inboundMessages with_logs with_inboundMessages with_clockReads] in *.
    rewrite Same. fold cutoff.
    assert (Clean : forall l,
              Forall (fun i => pastRetention cutoff i = false)
                (map (fun i => if pastRetention cutoff i then inbound_redacted i else i) l)).
    { intros l. apply Forall_forall. intros i' H. apply in_map_iff in H.
      destruct H as (i & <- & _). apply redacted_is_not_past. }
    eexists. split.
    + rewrite (filter_none (pastRetention cutoff)); [reflexivity|].
      intros i' H. specialize (Clean (inboundMessages w)).
      rewrite Forall_forall in Clean. now apply Clean.
    + cbn. rewrite <- (map_id (map _ (inboundMessages w))) at 2.
      apply map_ext_in. intros i' H. specialize (Clean (inboundMessages w)).
      rewrite Forall_forall in Clean. now rewrite (Clean i' H).
Qed.

End AdminFacts.

(** ** The redaction: text that cannot hold a match *)

(** A match of a pattern with an atom for one character of a class holds a
    character of that class. *)
Lemma Matches_class r prev s n :
  Matches r prev s n ->
  forall q, In (Pii.Class q) r -> exists c, In c s /\ q c = true.
Proof.
  induction 1 as [prev s|k prev s n B _ IH|p k prev c s n P _ IH|p k prev s n _ IH
                 |p k prev c s n P _ IH|p k prev s n _ IH|m p k prev c s n P _ IH];
    intros q Hq.
  - destruct Hq.
  - destruct Hq as [Eq|Hq]; [discriminate|]. now apply IH.
  - destruct Hq as [Eq|Hq].
    + inversion Eq; subst. exists c. split; [now left|exact P].
    + destruct (IH q Hq) as (c' & Hc & Q). exists c'. split; [now right|exact Q].
  - destruct Hq as [Eq|Hq]; [discriminate|]. now apply IH.
  - destruct Hq as [Eq|Hq]; [discriminate|].
    destruct (IH q Hq) as (c' & Hc & Q). exists c'. split; [now right|exact Q].
  - destruct Hq as [Eq|Hq]; [discriminate|]. now apply IH.
  - destruct Hq as [Eq|Hq]; [discriminate|].
    destruct (IH q (or_intror Hq)) as (c' & Hc & Q). exists c'. split; [now right|exact Q].
Qed.

Lemma classless_Clean r q prev s :
  In (Pii.Class q) r -> (forall c, In c s -> q c = false) -> Clean r prev s.
Proof.
  intros Hq No pre suf n Eq _ M.
  destruct (Matches_class M q Hq) as (c & Hc & Q).
  rewrite (No c) in Q; [discriminate|]. rewrite Eq. apply in_or_app. now right.
Qed.

Lemma clean_text_is_kept r by_ text :
  consuming r = true -> Clean r None (list_ascii_of_string text) ->
  Pii.replaceAll r by_ text = text.
Proof.
  intros Co Cl. pose proof (@replaceAll_Redacted r by_ text Co) as Rd.
  apply (Redacted_Clean Rd) in Cl. unfold Pii.replaceAll in *.
  rewrite list_ascii_of_string_of_list_ascii in Cl.
  rewrite Cl. apply string_of_list_ascii_of_string.
Qed.

(** X23: A text with no digit and no [@] is returned as it is: every match of the
    SSN and of the card pattern holds a digit, every match of the address
    pattern an [@]. *)
Theorem text_without_digit_or_at_is_kept text :
  (forall c, In c (list_ascii_of_string text) ->
             Pii.isDigit c = false /\ Pii.isChar "@" c = false) ->
  Pii.redactPii text = text.
Proof.
  intros Plain. unfold Pii.redactPii.
  rewrite (@clean_text_is_kept Pii.SSN_PATTERN); [|reflexivity|].
  rewrite (@clean_text_is_kept Pii.CREDIT_CARD_PATTERN); [|reflexivity|].
  rewrite (@clean_text_is_kept Pii.EMAIL_IN_BODY_PATTERN); [reflexivity|reflexivity|].
  - apply (@classless_Clean _ (Pii.isChar "@")); [cbn; auto|].
    intros c Hc. now apply Plain.
  - apply (@classless_Clean _ Pii.isDigit); [cbn; auto|].
    intros c Hc. now apply Plain.
  - apply (@classless_Clean _ Pii.isDigit); [cbn; auto|].
    intros c Hc. now apply Plain.
Qed.

Section EndToEnd.

Variable E : Env.

(** ** From a due task to a delivered reminder *)








End EndToEnd.

(* ------------------------------------------------------------------ *)
(** ** The further properties at concrete inputs *)

Lemma demo_outbox_NoDup inbound ts r : NoDup (map outboxId (outbox (Demo.world inbound ts [r]))).
Proof. constructor; [intros []|constructor]. Qed.

Lemma demo_intact st due_ channel_ ost n :
  intact (Demo.world [] [Demo.task1 st due_] [Demo.row1 channel_ ost n]).
Proof.
  split; [apply demo_outbox_NoDup|].
  intros o [<-|[]]. apply linked_demo.
Qed.


Lemma poll_settles_every_claimed_row_witness :
  let E := Demo.env Demo.scheduled true in
  let w := Demo.world [] [Demo.task1 sending (Some 5000)]
             [Demo.row1 "email" ob_queued 0] in
  intact w /\
  (forall o, In o (outbox w) -> o_status o <> ob_sending) /\
  exists w',
    pollOutbox E w = (Ok tt, w') /\
    forall o, In o (outbox w') -> o_status o <> ob_sending.
Proof.
  cbv zeta.
  assert (Q : forall o, In o (outbox (Demo.world [] [Demo.task1 sending (Some 5000)]
                                        [Demo.row1 "email" ob_queued 0])) ->
                        o_status o <> ob_sending)
    by (intros o [<-|[]]; discriminate).
  split; [apply demo_intact|]. split; [exact Q|].
  destruct (@poll_settles_every_claimed_row (Demo.env Demo.scheduled true) _
              (demo_intact sending (Some 5000) "email" ob_queued 0) Q)
    as (w' & Run & _ & _ & Rows).
  exists w'. split; [exact Run|exact Rows].
Defined.

Lemma retried_row_waits_for_its_backoff_witness :
  let E := Demo.env Demo.scheduled false in
  let r := Demo.row1 "email" ob_sending 0 in
  let w := Demo.world [] [Demo.task1 sending (Some 5000)] [r] in
  NoDup (map outboxId (outbox w)) /\
  outboxRow w (outboxId r) = Some r /\
  sendThrows E w (returning r) (Thrown "SES unavailable") /\
  attempts r + 1 < MAX_ATTEMPTS E /\
  forall msg,
    In msg (snd (claimQueued 1059999 1059999 (outbox (snd (deliver E (returning r) w))))) ->
    outbox_id msg <> "o-1".
Proof.
  cbv zeta.
  assert (H4 : attempts (Demo.row1 "email" ob_sending 0) + 1
               < MAX_ATTEMPTS (Demo.env Demo.scheduled false))
    by (vm_compute; reflexivity).
  split; [apply demo_outbox_NoDup|]. split; [reflexivity|].
  split; [apply demo_send_throws|]. split; [exact H4|].
  intros msg.
  apply (proj1 (@retried_row_waits_for_its_backoff (Demo.env Demo.scheduled false)
                  (Demo.world [] [Demo.task1 sending (Some 5000)]
                     [Demo.row1 "email" ob_sending 0])
                  (Demo.row1 "email" ob_sending 0) (Thrown "SES unavailable")
                  (demo_outbox_NoDup _ _ _) eq_refl (demo_send_throws 0) H4)
           1059999 1059999 msg).
  vm_compute. reflexivity.
Defined.

Lemma due_task_is_executed_once_witness :
  let E := Demo.env Demo.scheduled true in
  let job := {| ej_taskId := "t-1" |} in
  let task := Demo.task1 due (Some 5000) in
  let w := Demo.world [Demo.inbound1 processed] [task] [] in
  taskRow w (ej_taskId job) = Some task /\
  t_status task = due /\
  userRow w (t_userId task) = Some Demo.alice /\
  actionType task = "remind" /\
  exists w' o,
    processExecute E job w = (Ok tt, w') /\
    outbox w' = [o] /\ o_channel o = "email" /\
    to (payload o) = Some "alice@example.com" /\
    exists entries,
      processExecute E job w' = (Ok tt, with_logs (fun l => l ++ entries) w').
Proof.
  cbv zeta. do 4 (split; [reflexivity|]).
  destruct (@due_task_is_executed_once (Demo.env Demo.scheduled true)
              {| ej_taskId := "t-1" |}
              (Demo.world [Demo.inbound1 processed] [Demo.task1 due (Some 5000)] [])
              (Demo.task1 due (Some 5000)) Demo.alice
              {| draft_subject := ""; draft_body := "" |}
              eq_refl eq_refl eq_refl (or_introl eq_refl))
    as (w' & o & Run & Out & _ & _ & _ & _ & Ch & Pay & _ & _ & _ & Again).
  exists w', o. split; [exact Run|]. split; [exact Out|]. split; [exact Ch|].
  split; [rewrite Pay; reflexivity|exact Again].
Defined.

Lemma failed_draft_strands_the_task_witness :
  let E := Cases.envWith "" (inl (Thrown "overloaded")) in
  let job := {| ej_taskId := "t-1" |} in
  let task := Cases.draftTask due in
  let w := Demo.world [Demo.inbound1 processed] [task] [] in
  taskRow w (ej_taskId job) = Some task /\
  t_status task = due /\
  userRow w (t_userId task) = Some Demo.alice /\
  actionType task <> "remind" /\
  claude E DRAFTING_SYSTEM (draftPrompt task Demo.alice) = inl (Thrown "overloaded") /\
  exists w',
    processExecute E job w = (Threw (Thrown "overloaded"), w') /\
    option_map t_status (taskRow w' "t-1") = Some executing /\
    outbox w' = [] /\
    exists entries,
      processExecute E job w' = (Ok tt, with_logs (fun l => l ++ entries) w').
Proof.
  cbv zeta.
  assert (H4 : actionType (Cases.draftTask due) <> "remind") by discriminate.
  do 3 (split; [reflexivity|]). split; [exact H4|]. split; [reflexivity|].
  destruct (@failed_draft_strands_the_task (Cases.envWith "" (inl (Thrown "overloaded")))
              {| ej_taskId := "t-1" |}
              (Demo.world [Demo.inbound1 processed] [Cases.draftTask due] [])
              (Cases.draftTask due) Demo.alice (Thrown "overloaded")
              eq_refl eq_refl eq_refl H4 eq_refl)
    as (w' & Run & Row & Out & _ & Again).
  exists w'. split; [exact Run|].
  split; [cbn [ej_taskId] in Row; rewrite Row; reflexivity|].
  split; [exact Out|exact Again].
Defined.

Lemma clarification_is_asked_on_the_inbound_channel_witness :
  let E := Demo.env Cases.unclear true in
  let inbound := Demo.inbound1 received in
  let w := Demo.world [inbound] [] [] in
  inboundRow w (ij_inboundId Demo.job1) = Some inbound /\
  userRow w (ij_userId Demo.job1) = Some Demo.alice /\
  extractorSays E (safeTextOf inbound) (timezoneOf Demo.alice)
    (toISOString E (clock E (clockReads w))) Cases.unclear /\
  needs_clarification_ Cases.unclear = true /\
  sourceTaken w (ij_inboundId Demo.job1) = false /\
  exists w' t o,
    processIngest E Demo.job1 w = (Ok tt, w') /\
    tasks w' = [t] /\ t_status t = needs_clarification /\
    outbox w' = [o] /\ o_channel o = "email" /\
    body (payload o) = "When should I remind you?".
Proof.
  cbv zeta. do 2 (split; [reflexivity|]).
  split; [apply demo_extractor_says|]. do 2 (split; [reflexivity|]).
  destruct (@clarification_is_asked_on_the_inbound_channel
              (Demo.env Cases.unclear true) Demo.job1
              (Demo.world [Demo.inbound1 received] [] [])
              (Demo.inbound1 received) Demo.alice Cases.unclear
              eq_refl eq_refl (demo_extractor_says _ _ _ _ _) eq_refl eq_refl)
    as (w' & t & o & Run & Ts & St & _ & _ & _ & _ & Out & _ & _ & Ch & Pay & _).
  exists w', t, o. split; [exact Run|]. split; [exact Ts|]. split; [exact St|].
  split; [exact Out|]. split; [exact Ch|]. rewrite Pay. reflexivity.
Defined.

Lemma schedule_is_confirmed_on_the_inbound_channel_witness :
  let E := Demo.env Demo.scheduled true in
  let inbound := Demo.inbound1 received in
  let w := Demo.world [inbound] [] [] in
  inboundRow w (ij_inboundId Demo.job1) = Some inbound /\
  userRow w (ij_userId Demo.job1) = Some Demo.alice /\
  extractorSays E (safeTextOf inbound) (timezoneOf Demo.alice)
    (toISOString E (clock E (clockReads w))) Demo.scheduled /\
  needs_clarification_ Demo.scheduled = false /\
  requestedDue E Demo.scheduled <> Some None /\
  sourceTaken w (ij_inboundId Demo.job1) = false /\
  exists w' t o,
    processIngest E Demo.job1 w = (Ok tt, w') /\
    tasks w' = [t] /\ t_status t = pending /\ dueAt t = Some 1735725600000 /\
    outbox w' = [o] /\ o_channel o = "email" /\
    body (payload o)
    = "Got it! I'll remind you on Wednesday, January 1 at 5:00 AM about Dr. Smith.".
Proof.
  cbv zeta.
  assert (H5 : requestedDue (Demo.env Demo.scheduled true) Demo.scheduled
               <> Some None) by (vm_compute; discriminate).
  do 2 (split; [reflexivity|]).
  split; [apply demo_extractor_says|]. split; [reflexivity|]. split; [exact H5|].
  split; [reflexivity|].
  destruct (@schedule_is_confirmed_on_the_inbound_channel
              (Demo.env Demo.scheduled true) Demo.job1
              (Demo.world [Demo.inbound1 received] [] [])
              (Demo.inbound1 received) Demo.alice Demo.scheduled
              eq_refl eq_refl (demo_extractor_says _ _ _ _ _) eq_refl H5 eq_refl)
    as (w' & t & Ts & St & Due & _ & _ & Rest).
  change (friendlyDateOf (Demo.env Demo.scheduled true) Demo.alice
            (dueOf (Demo.env Demo.scheduled true) Demo.scheduled))
    with (Some "Wednesday, January 1 at 5:00 AM") in Rest.
  cbv beta iota in Rest.
  destruct Rest as (Run & o & Out & _ & _ & Ch & Pay & _).
  exists w', t, o. split; [exact Run|]. split; [exact Ts|]. split; [exact St|].
  split; [rewrite Due; reflexivity|].
  split; [exact Out|]. split; [exact Ch|]. rewrite Pay. reflexivity.
Defined.

Lemma unparseable_extraction_asks_to_rephrase_witness :
  let answer := "Sure! Which day do you mean?" in
  let E := Cases.envWith "" (inr answer) in
  let inbound := Demo.inbound1 received in
  let w := Demo.world [inbound] [] [] in
  inboundRow w (ij_inboundId Demo.job1) = Some inbound /\
  userRow w (ij_userId Demo.job1) = Some Demo.alice /\
  claude E EXTRACTION_SYSTEM (extractionPrompt E w inbound Demo.alice) = inr answer /\
  parseExtraction E answer = None /\
  sourceTaken w (ij_inboundId Demo.job1) = false /\
  exists w' t o,
    processIngest E Demo.job1 w = (Ok tt, w') /\
    tasks w' = [t] /\ t_status t = needs_clarification /\
    outbox w' = [o] /\ body (payload o) = rephrase /\
    option_map in_status (inboundRow w' "in-1") = Some processed.
Proof.
  cbv zeta. do 5 (split; [reflexivity|]).
  destruct (@unparseable_extraction_asks_to_rephrase
              (Cases.envWith "" (inr "Sure! Which day do you mean?")) Demo.job1
              (Demo.world [Demo.inbound1 received] [] [])
              (Demo.inbound1 received) Demo.alice "Sure! Which day do you mean?"
              eq_refl eq_refl eq_refl eq_refl eq_refl)
    as (w' & t & o & Run & Ts & St & _ & _ & _ & _ & Out & _ & _ & Body & In_).
  exists w', t, o. split; [exact Run|]. split; [exact Ts|]. split; [exact St|].
  split; [exact Out|]. split; [exact Body|exact In_].
Defined.

Lemma failed_extraction_writes_nothing_witness :
  let E := Cases.envWith "" (inl (Thrown "overloaded")) in
  let inbound := Demo.inbound1 received in
  let w := Demo.world [inbound] [] [] in
  inboundRow w (ij_inboundId Demo.job1) = Some inbound /\
  userRow w (ij_userId Demo.job1) = Some Demo.alice /\
  claude E EXTRACTION_SYSTEM (extractionPrompt E w inbound Demo.alice)
  = inl (Thrown "overloaded") /\
  exists w', processIngest E Demo.job1 w = (Threw (Thrown "overloaded"), w') /\
             sameStore w w'.
Proof.
  cbv zeta. do 3 (split; [reflexivity|]).
  exact (@failed_extraction_writes_nothing (Cases.envWith "" (inl (Thrown "overloaded")))
           Demo.job1 (Demo.world [Demo.inbound1 received] [] [])
           (Demo.inbound1 received) Demo.alice (Thrown "overloaded")
           eq_refl eq_refl eq_refl).
Defined.

Lemma unparseable_date_fails_the_job_witness :
  let E := Demo.env Cases.vague true in
  let inbound := Demo.inbound1 received in
  let w := Demo.world [inbound] [] [] in
  inboundRow w (ij_inboundId Demo.job1) = Some inbound /\
  userRow w (ij_userId Demo.job1) = Some Demo.alice /\
  extractorSays E (safeTextOf inbound) (timezoneOf Demo.alice)
    (toISOString E (clock E (clockReads w))) Cases.vague /\
  needs_clarification_ Cases.vague = false /\
  due_at_iso Cases.vague = Some "tomorrow" /\ "tomorrow" <> "" /\
  parseDate E "tomorrow" = None /\
  exists w',
    processIngest E Demo.job1 w = (Threw PrismaValidation, w') /\ sameStore w w'.
Proof.
  cbv zeta.
  assert (H6 : "tomorrow" <> "") by discriminate.
  do 2 (split; [reflexivity|]). split; [apply demo_extractor_says|].
  do 2 (split; [reflexivity|]). split; [exact H6|]. split; [reflexivity|].
  exact (@unparseable_date_fails_the_job (Demo.env Cases.vague true)
           Demo.job1 (Demo.world [Demo.inbound1 received] [] [])
           (Demo.inbound1 received) Demo.alice Cases.vague "tomorrow"
           eq_refl eq_refl (demo_extractor_says _ _ _ _ _) eq_refl eq_refl H6 eq_refl).
Defined.

Lemma rejected_webhook_writes_nothing_witness :
  let E := Cases.envWith "s3cret" (inr "no answer") in
  let w := Demo.world [] [] [] in
  EMAIL_WEBHOOK_SECRET E <> "" /\
  x_webhook_signature Demo.request
    <> Some (hmacHex E (EMAIL_WEBHOOK_SECRET E) (requestBody Demo.request)) /\
  exists message w',
    emailRoutes E (fun x => x) Demo.request w
    = (Ok {| status := 401; sent := ErrorBody "UNAUTHORIZED" message |}, w') /\
    sameStore w w'.
Proof.
  cbv zeta.
  assert (H1 : EMAIL_WEBHOOK_SECRET (Cases.envWith "s3cret" (inr "no answer")) <> "")
    by discriminate.
  assert (H2 : x_webhook_signature Demo.request
               <> Some (hmacHex (Cases.envWith "s3cret" (inr "no answer"))
                          (EMAIL_WEBHOOK_SECRET (Cases.envWith "s3cret" (inr "no answer")))
                          (requestBody Demo.request))) by discriminate.
  split; [exact H1|]. split; [exact H2|].
  exact (proj1 (@rejected_webhook_writes_nothing (Cases.envWith "s3cret" (inr "no answer"))
                  (fun x => x) Demo.request (Demo.world [] [] [])) H1 H2).
Defined.

Lemma demo_sender_known inbound ts os :
  senderOf (Demo.world inbound ts os) (from (requestBody Demo.request)) <> None.
Proof. discriminate. Qed.

Lemma repeated_webhook_is_a_duplicate_witness :
  let E := Demo.env Demo.scheduled true in
  let w := Demo.world [] [] [] in
  validRequest E Demo.request /\
  senderOf w (from (requestBody Demo.request)) <> None /\
  let first := emailRoutes E (fun x => x) Demo.request w in
  let second := emailRoutes E (fun x => x) Demo.request (snd first) in
  fst second = Ok {| status := 200; sent := Duplicate |} /\
  sameStore (snd first) (snd second).
Proof.
  cbv zeta. split; [apply demo_request_valid|]. split; [apply demo_sender_known|].
  destruct (@repeated_webhook_is_a_duplicate (Demo.env Demo.scheduled true)
              Demo.request (Demo.world [] [] [])
              (demo_request_valid _ _) (@demo_sender_known _ _ _))
    as (Reply & Same & _).
  split; [exact Reply|exact Same].
Defined.

Lemma accepted_email_becomes_a_task_witness :
  let E := Demo.env Demo.scheduled true in
  let w := Demo.world [] [] [] in
  let w1 := snd (emailRoutes E (fun x => x) Demo.request w) in
  validRequest E Demo.request /\
  senderOf w "alice@example.com" = Some Demo.alice /\
  userRow w "u-1" = Some Demo.alice /\
  inboundByKey w "u-1:msg-1" = None /\
  inboundRow w "id-0" = None /\
  requestedDue E Demo.scheduled <> Some None /\
  friendlyDateOf E Demo.alice (dueOf E Demo.scheduled) <> None /\
  sourceTaken w "id-0" = false /\
  exists job w2 t o,
    ingestQueue w1 = [job] /\
    processIngest E (jobData job) w1 = (Ok tt, w2) /\
    tasks w2 = [t] /\ t_status t = pending /\
    outbox w2 = [o] /\ o_taskId o = Some (taskId t) /\
    option_map in_status (inboundRow w2 "id-0") = Some processed.
Proof.
  cbv zeta.
  assert (H7 : requestedDue (Demo.env Demo.scheduled true) Demo.scheduled
               <> Some None) by (vm_compute; discriminate).
  assert (H8 : friendlyDateOf (Demo.env Demo.scheduled true) Demo.alice
                 (dueOf (Demo.env Demo.scheduled true) Demo.scheduled) <> None)
    by (vm_compute; discriminate).
  split; [apply demo_request_valid|]. do 4 (split; [reflexivity|]).
  split; [exact H7|]. split; [exact H8|]. split; [reflexivity|].
  destruct (@accepted_email_becomes_a_task (Demo.env Demo.scheduled true)
              Demo.request (Demo.world [] [] []) Demo.alice Demo.scheduled
              (demo_request_valid _ _) eq_refl eq_refl eq_refl eq_refl
              (demo_extractor_says _ _ _ _ _) H7 H8 eq_refl)
    as (job & w2 & t & o & Q & _ & Run & Ts & _ & _ & St & Out & Link & _ & In_).
  exists job, w2, t, o. split; [exact Q|]. split; [exact Run|]. split; [exact Ts|].
  split; [exact St|]. split; [exact Out|]. split; [exact Link|].
  change (uuid (Demo.env Demo.scheduled true)
            (idsIssued (Demo.world [] [] []))) with "id-0" in In_.
  destruct (inboundRow w2 "id-0"); [|discriminate]. cbn in *. congruence.
Defined.

Lemma demo_signed request : signedWhatsApp (Cases.config "") request.
Proof. now left. Qed.


Lemma repeated_whatsapp_webhook_adds_nothing_witness :
  let E := Demo.env Demo.scheduled true in
  let C := Cases.config "" in
  let request := Cases.whatsappRequest None in
  let w := Demo.world [] [] [] in
  signedWhatsApp C request /\
  sameStore (snd (postWebhookWhatsApp E C (fun x => x) request w))
    (snd (postWebhookWhatsApp E C (fun x => x) request (snd (postWebhookWhatsApp E C (fun x => x) request w)))).
Proof.
  cbv zeta. split; [apply demo_signed|].
  exact (proj2 (@repeated_whatsapp_webhook_adds_nothing
                  (Demo.env Demo.scheduled true) (Cases.config "")
                  (Cases.whatsappRequest None) (Demo.world [] [] [])
                  (demo_signed _))).
Defined.

Lemma rejected_whatsapp_webhook_writes_nothing_witness :
  let E := Demo.env Demo.scheduled true in
  let C := Cases.config "s3cret" in
  let request := Cases.whatsappRequest None in
  let w := Demo.world [] [] [] in
  WHATSAPP_APP_SECRET C <> "" /\
  x_hub_signature_256 request
    <> Some ("sha256=" ++ hmacHexWhatsApp C (WHATSAPP_APP_SECRET C)
                            (whatsappBody request))%string /\
  exists message w',
    served (postWebhookWhatsApp E C (fun x => x) request) w
    = (Ok (inr {| status := 401; sent := ErrorBody "UNAUTHORIZED" message |}), w') /\
    sameStore w w'.
Proof.
  cbv zeta.
  assert (H1 : WHATSAPP_APP_SECRET (Cases.config "s3cret") <> "") by discriminate.
  assert (H2 : x_hub_signature_256 (Cases.whatsappRequest None)
               <> Some ("sha256=" ++ hmacHexWhatsApp (Cases.config "s3cret")
                                       (WHATSAPP_APP_SECRET (Cases.config "s3cret"))
                                       (whatsappBody (Cases.whatsappRequest None)))%string)
    by discriminate.
  split; [exact H1|]. split; [exact H2|].
  exact (proj1 (@rejected_whatsapp_webhook_writes_nothing
                  (Demo.env Demo.scheduled true) (Cases.config "s3cret")
                  (fun x => x) (Cases.whatsappRequest None) (Demo.world [] [] [])) H1 H2).
Defined.

Lemma admin_retry_requeues_a_failed_message_witness :
  let E := Demo.env Demo.scheduled true in
  let r := Demo.row1 "email" ob_failed 5 in
  let w := Demo.world [] [Demo.task1 failed (Some 5000)] [r] in
  NoDup (map outboxId (outbox w)) /\
  exists w',
    postAdminOutboxRetry E "o-1" w
    = (Ok {| ad_status := 200; ad_sent := Retried "o-1" |}, w') /\
    outboxRow w' "o-1" = Some (outbox_with ob_queued 0 (Some (clock E 0)) r) /\
    exists msg,
      In msg (snd (claimQueued (clock E 1) (clock E 2) (outbox w'))) /\
      outbox_id msg = "o-1" /\ msg_attempts msg = 0.
Proof.
  cbv zeta. split; [apply demo_outbox_NoDup|].
  pose proof (@admin_retry_requeues_a_failed_message
                (Demo.env Demo.scheduled true) "o-1"
                (Demo.world [] [Demo.task1 failed (Some 5000)]
                   [Demo.row1 "email" ob_failed 5])
                (demo_outbox_NoDup _ _ _)) as H.
  change (outboxRow (Demo.world [] [Demo.task1 failed (Some 5000)]
                       [Demo.row1 "email" ob_failed 5]) "o-1")
    with (Some (Demo.row1 "email" ob_failed 5)) in H.
  cbv beta iota zeta in H.
  change (OutboxStatus_eqb (o_status (Demo.row1 "email" ob_failed 5)) ob_failed)
    with true in H.
  cbv beta iota in H.
  destruct H as (w' & Run & Row & Keys & _ & _ & _ & _ & Later).
  exists w'. split; [exact Run|]. split; [exact Row|].
  apply Later; [vm_compute; discriminate|].
  etransitivity; [apply filter_length_le|].
  rewrite <- (length_map outboxId), Keys. cbn. lia.
Defined.

Lemma admin_retry_makes_a_failed_task_due_witness :
  let E := Demo.env Demo.scheduled true in
  let t := Demo.task1 failed (Some 5000) in
  let w := Demo.world [Demo.inbound1 processed] [t] [] in
  exists w' w'' o,
    postAdminTaskRetry E "t-1" w
    = (Ok {| ad_status := 200; ad_sent := Retried "t-1" |}, w') /\
    taskRow w' "t-1" = Some (task_retried t) /\
    processExecute E {| ej_taskId := "t-1" |} w' = (Ok tt, w'') /\
    outbox w'' = [o] /\
    option_map t_status (taskRow w'' "t-1") = Some sending.
Proof.
  cbv zeta.
  pose proof (@admin_retry_makes_a_failed_task_due
                (Demo.env Demo.scheduled true) "t-1"
                (Demo.world [Demo.inbound1 processed]
                   [Demo.task1 failed (Some 5000)] [])) as H.
  change (taskRow (Demo.world [Demo.inbound1 processed]
                     [Demo.task1 failed (Some 5000)] []) "t-1")
    with (Some (Demo.task1 failed (Some 5000))) in H.
  cbv beta iota in H.
  change (TaskStatus_eqb (t_status (Demo.task1 failed (Some 5000))) failed)
    with true in H.
  cbv beta iota in H.
  destruct H as (w' & Run & Row & _ & _ & _ & _ & _ & _ & Next).
  destruct (Next Demo.alice {| draft_subject := ""; draft_body := "" |}
              eq_refl (or_introl eq_refl))
    as (w'' & o & Run' & Out & _ & _ & St).
  exists w', w'', o. split; [exact Run|]. split; [exact Row|].
  split; [exact Run'|]. split; [exact Out|exact St].
Defined.

Lemma text_without_digit_or_at_is_kept_witness :
  (forall c, In c (list_ascii_of_string "Call Dr. Smith") ->
             Pii.isDigit c = false /\ Pii.isChar "@" c = false) /\
  Pii.redactPii "Call Dr. Smith" = "Call Dr. Smith".
Proof.
  assert (H : forall c, In c (list_ascii_of_string "Call Dr. Smith") ->
                        Pii.isDigit c = false /\ Pii.isChar "@" c = false).
  { intros c Hc. cbn in Hc.
    repeat (destruct Hc as [<-|Hc]; [split; reflexivity|]). destruct Hc. }
  split; [exact H|].
  exact (@text_without_digit_or_at_is_kept "Call Dr. Smith" H).
Defined.


(** The other outcome of the scheduling branch: the task is inserted, the
    confirmation is never queued, and every retry of the job is refused by
    the store. *)
Example unknown_time_zone_strands_the_task :
  let E := Demo.env Demo.scheduled true in
  let first := processIngest E Cases.bobsJob Cases.bobsWorld in
  fst first = Threw (InvalidTimeZone "Mars/Olympus_Mons") /\
  map (fun t => (sourceInboundId t, t_status t)) (tasks (snd first)) = [("in-2", pending)] /\
  map eventType (taskEvents (snd first)) = [ev_created; ev_scheduled] /\
  outbox (snd first) = [] /\
  map in_status (inboundMessages (snd first)) = [received] /\
  fst (processIngest E Cases.bobsJob (snd first)) = Threw P2002.
Proof. vm_compute. repeat split. Qed.
